(** * gop2b: the authenticated HTTP request pipeline of the p2pb2b client

    A shallow embedding of [http.go] (request signing, header merging,
    status checking, websocket request builders) and of the two endpoint
    methods [PostBalances] and [PostCurrencyBalance], together with the
    parts of the Go standard library they call.

    Conventions of the embedding:
    - a Go [string] is a [string] (a sequence of 8-bit characters), a
      [[]byte] is a [list byte]; [[]byte(s)] and [string(b)] are
      [list_byte_of_string] and [string_of_list_byte];
    - a Go [int] or [int64] is a [Z];
    - a Go [map[string]string] is a reference: [option loc], [None] being
      the nil map, into a store of [gmap string string]; aliasing is kept;
    - a function that receives a [*T] to a struct returns, with its
      results, the final value of the pointee (the pointer is not nil);
    - a Go result [(v, err)] is a pair of options, [None] being nil;
    - the wall clock, the order in which [range] visits a map, the URL
      parser, the JSON codec and the network are an environment. *)

From Stdlib Require Import ZArith String Ascii List Lia Permutation.
From Stdlib.Strings Require Import Byte.
From stdpp Require Import base option list gmap strings pretty fin_maps.

Import ListNotations.
Local Open Scope string_scope.
Local Open Scope list_scope.
Local Open Scope Z_scope.

(** [simpl] unfolds the concatenation of strings. *)
#[local] Arguments String.append : simpl nomatch.

(* ===================================================================== *)
(** * Bytes, hexadecimal and base64 *)
(* ===================================================================== *)

Module Bytes.

Definition to_Z (b : byte) : Z := Z.of_N (Byte.to_N b).

Definition of_Z (z : Z) : byte :=
  match Byte.of_N (Z.to_N (z mod 256)) with
  | Some b => b
  | None => x00
  end.

Definition char_at (alphabet : string) (i : Z) : ascii :=
  match String.get (Z.to_nat i) alphabet with
  | Some c => c
  | None => "000"%char
  end.

(** [encoding/hex]: [hextable = "0123456789abcdef"], two characters per
    byte, high nibble first. *)
Definition hextable : string := "0123456789abcdef".

Fixpoint hex_EncodeToString (src : list byte) : string :=
  match src with
  | [] => EmptyString
  | b :: rest =>
      String (char_at hextable (Z.shiftr (to_Z b) 4))
        (String (char_at hextable (Z.land (to_Z b) 15))
           (hex_EncodeToString rest))
  end.

(** [encoding/base64], [StdEncoding]: the RFC 4648 alphabet with [=]
    padding. *)
Definition encodeStd : string :=
  "ABCDEFGHIJKLMNOPQRSTUVWXYZabcdefghijklmnopqrstuvwxyz0123456789+/".

Definition b64 (v : Z) (shift : Z) : ascii :=
  char_at encodeStd (Z.land (Z.shiftr v shift) 63).

Fixpoint base64_EncodeToString (src : list byte) : string :=
  match src with
  | [] => EmptyString
  | [a] =>
      let v := Z.shiftl (to_Z a) 16 in
      String (b64 v 18) (String (b64 v 12) "==")
  | [a; b] =>
      let v := Z.lor (Z.shiftl (to_Z a) 16) (Z.shiftl (to_Z b) 8) in
      String (b64 v 18) (String (b64 v 12) (String (b64 v 6) "="))
  | a :: b :: c :: rest =>
      let v := Z.lor (Z.lor (Z.shiftl (to_Z a) 16) (Z.shiftl (to_Z b) 8))
                     (to_Z c) in
      String (b64 v 18) (String (b64 v 12) (String (b64 v 6)
        (String (b64 v 0) (base64_EncodeToString rest))))
  end.

End Bytes.

(* ===================================================================== *)
(** * SHA-512 (FIPS 180-4) and HMAC (RFC 2104) *)
(* ===================================================================== *)

Module SHA512.

Import Bytes.

Definition w64 (x : Z) : Z := Z.land x (Z.ones 64).
Definition add64 (x y : Z) : Z := w64 (x + y).
Definition rotr (n x : Z) : Z :=
  Z.lor (Z.shiftr x n) (w64 (Z.shiftl x (64 - n))).

Definition Ch (x y z : Z) : Z :=
  Z.lxor (Z.land x y) (Z.land (Z.lxor x (Z.ones 64)) z).
Definition Maj (x y z : Z) : Z :=
  Z.lxor (Z.lxor (Z.land x y) (Z.land x z)) (Z.land y z).
Definition Sigma0 (x : Z) : Z :=
  Z.lxor (Z.lxor (rotr 28 x) (rotr 34 x)) (rotr 39 x).
Definition Sigma1 (x : Z) : Z :=
  Z.lxor (Z.lxor (rotr 14 x) (rotr 18 x)) (rotr 41 x).
Definition sigma0 (x : Z) : Z :=
  Z.lxor (Z.lxor (rotr 1 x) (rotr 8 x)) (Z.shiftr x 7).
Definition sigma1 (x : Z) : Z :=
  Z.lxor (Z.lxor (rotr 19 x) (rotr 61 x)) (Z.shiftr x 6).

Definition K : list Z :=
  [ 0x428a2f98d728ae22; 0x7137449123ef65cd; 0xb5c0fbcfec4d3b2f;
    0xe9b5dba58189dbbc; 0x3956c25bf348b538; 0x59f111f1b605d019;
    0x923f82a4af194f9b; 0xab1c5ed5da6d8118; 0xd807aa98a3030242;
    0x12835b0145706fbe; 0x243185be4ee4b28c; 0x550c7dc3d5ffb4e2;
    0x72be5d74f27b896f; 0x80deb1fe3b1696b1; 0x9bdc06a725c71235;
    0xc19bf174cf692694; 0xe49b69c19ef14ad2; 0xefbe4786384f25e3;
    0x0fc19dc68b8cd5b5; 0x240ca1cc77ac9c65; 0x2de92c6f592b0275;
    0x4a7484aa6ea6e483; 0x5cb0a9dcbd41fbd4; 0x76f988da831153b5;
    0x983e5152ee66dfab; 0xa831c66d2db43210; 0xb00327c898fb213f;
    0xbf597fc7beef0ee4; 0xc6e00bf33da88fc2; 0xd5a79147930aa725;
    0x06ca6351e003826f; 0x142929670a0e6e70; 0x27b70a8546d22ffc;
    0x2e1b21385c26c926; 0x4d2c6dfc5ac42aed; 0x53380d139d95b3df;
    0x650a73548baf63de; 0x766a0abb3c77b2a8; 0x81c2c92e47edaee6;
    0x92722c851482353b; 0xa2bfe8a14cf10364; 0xa81a664bbc423001;
    0xc24b8b70d0f89791; 0xc76c51a30654be30; 0xd192e819d6ef5218;
    0xd69906245565a910; 0xf40e35855771202a; 0x106aa07032bbd1b8;
    0x19a4c116b8d2d0c8; 0x1e376c085141ab53; 0x2748774cdf8eeb99;
    0x34b0bcb5e19b48a8; 0x391c0cb3c5c95a63; 0x4ed8aa4ae3418acb;
    0x5b9cca4f7763e373; 0x682e6ff3d6b2b8a3; 0x748f82ee5defb2fc;
    0x78a5636f43172f60; 0x84c87814a1f0ab72; 0x8cc702081a6439ec;
    0x90befffa23631e28; 0xa4506cebde82bde9; 0xbef9a3f7b2c67915;
    0xc67178f2e372532b; 0xca273eceea26619c; 0xd186b8c721c0c207;
    0xeada7dd6cde0eb1e; 0xf57d4f7fee6ed178; 0x06f067aa72176fba;
    0x0a637dc5a2c898a6; 0x113f9804bef90dae; 0x1b710b35131c471b;
    0x28db77f523047d84; 0x32caab7b40c72493; 0x3c9ebe0a15c9bebc;
    0x431d67c49c100d4c; 0x4cc5d4becb3e42b6; 0x597f299cfc657e2a;
    0x5fcb6fab3ad6faec; 0x6c44198c4a475817 ].

Definition H0 : list Z :=
  [ 0x6a09e667f3bcc908; 0xbb67ae8584caa73b; 0x3c6ef372fe94f82b;
    0xa54ff53a5f1d36f1; 0x510e527fade682d1; 0x9b05688c2b3e6c1f;
    0x1f83d9abfb41bd6b; 0x5be0cd19137e2179 ].

(** Big-endian words. *)
Definition be_word (bs : list byte) : Z :=
  fold_left (fun acc b => Z.lor (Z.shiftl acc 8) (to_Z b)) bs 0.

Fixpoint be_bytes (n : nat) (x : Z) : list byte :=
  match n with
  | O => []
  | S n' => be_bytes n' (Z.shiftr x 8) ++ [of_Z x]
  end.

Fixpoint chunks {A} (size : nat) (fuel : nat) (l : list A) : list (list A) :=
  match fuel with
  | O => []
  | S fuel' =>
      match l with
      | [] => []
      | _ => take size l :: chunks size fuel' (drop size l)
      end
  end.

(** Padding: a [0x80] byte, zeros up to 112 modulo 128, and the length
    of the message in bits as a 128-bit big-endian number. *)
Definition pad (msg : list byte) : list byte :=
  let len := Z.of_nat (length msg) in
  let zeros := Z.to_nat ((111 - len) mod 128) in
  msg ++ [x80] ++ repeat x00 zeros ++ be_bytes 16 (8 * len).

(** The message schedule, most recent word first. *)
Fixpoint schedule (n : nat) (rev_w : list Z) : list Z :=
  match n with
  | O => rev_w
  | S n' =>
      let at_ i := nth i rev_w 0 in
      let w := add64 (add64 (sigma1 (at_ 1%nat)) (at_ 6%nat))
                     (add64 (sigma0 (at_ 14%nat)) (at_ 15%nat)) in
      schedule n' (w :: rev_w)
  end.

Definition round (st : list Z) (kw : Z * Z) : list Z :=
  match st with
  | [a; b; c; d; e; f; g; h] =>
      let t1 := add64 (add64 (add64 h (Sigma1 e)) (add64 (Ch e f g) (fst kw)))
                      (snd kw) in
      let t2 := add64 (Sigma0 a) (Maj a b c) in
      [add64 t1 t2; a; b; c; add64 d t1; e; f; g]
  | _ => st
  end.

Fixpoint zip_add (xs ys : list Z) : list Z :=
  match xs, ys with
  | x :: xs', y :: ys' => add64 x y :: zip_add xs' ys'
  | _, _ => []
  end.

Definition compress (h : list Z) (block : list byte) : list Z :=
  let w16 := List.map be_word (chunks 8 16 block) in
  let w := List.rev (schedule 64 (List.rev w16)) in
  zip_add h (fold_left round (List.combine K w) h).

Definition Sum512 (msg : list byte) : list byte :=
  let p := pad msg in
  let blocks := chunks 128 (length p) p in
  List.concat (List.map (be_bytes 8) (fold_left compress blocks H0)).

Definition BlockSize : nat := 128.

(** [crypto/hmac] with [sha512.New]: a key longer than the block size is
    hashed first, then padded with zeros to the block size. *)
Definition xor_pad (c : Z) (key : list byte) : list byte :=
  List.map (fun b => of_Z (Z.lxor (to_Z b) c)) key.

Definition hmac (key msg : list byte) : list byte :=
  let k := if (BlockSize <? length key)%nat then Sum512 key else key in
  let k := k ++ repeat x00 (BlockSize - length k) in
  Sum512 (xor_pad 0x5c k ++ Sum512 (xor_pad 0x36 k ++ msg)).

End SHA512.

(* ===================================================================== *)
(** * The Go runtime and standard library, as far as the client uses them *)
(* ===================================================================== *)

Module Go.

(** ** Errors *)

(** An [error] is either the sentinel [http.ErrUseLastResponse], which
    the redirect loop compares by identity, or an error made from a text
    ([errors.New], [fmt.Errorf]). *)
Inductive error : Type :=
| ErrUseLastResponse
| errorString (s : string).

Definition Error (e : error) : string :=
  match e with
  | ErrUseLastResponse => "net/http: use last response"
  | errorString s => s
  end.

Definition is_ErrUseLastResponse (e : error) : bool :=
  match e with
  | ErrUseLastResponse => true
  | errorString _ => false
  end.

(** ** Integers and their formatting *)

(** Wrap-around of a signed 64-bit integer. *)
Definition wrap64 (z : Z) : Z := (z + 2 ^ 63) mod 2 ^ 64 - 2 ^ 63.

(** [strconv.FormatInt(i, 10)] and the verb [%d]. *)
Definition FormatInt10 (i : Z) : string := pretty i.

(** The verb [%+v] applied to a [[]int]: the elements in decimal,
    separated by one space, between square brackets. *)
Fixpoint join_ints (l : list Z) : string :=
  match l with
  | [] => ""
  | [x] => FormatInt10 x
  | x :: rest => FormatInt10 x +:+ " " +:+ join_ints rest
  end.

Definition fmt_ints (l : list Z) : string := "[" +:+ join_ints l +:+ "]".

(** ** Time *)

(** A [time.Time], as seconds since the Unix epoch and nanoseconds within
    the second. *)
Record Time := mkTime { unixSec : Z; nsec : Z }.

Definition Unix (t : Time) : Z := unixSec t.

Definition UnixMilli (t : Time) : Z :=
  wrap64 (wrap64 (unixSec t * 1000) + Z.quot (nsec t) 1000000).

(** ** [net/textproto]: canonical header keys *)

Definition is_lower (c : ascii) : bool :=
  let n := nat_of_ascii c in ((97 <=? n) && (n <=? 122))%nat.
Definition is_upper (c : ascii) : bool :=
  let n := nat_of_ascii c in ((65 <=? n) && (n <=? 90))%nat.
Definition is_digit (c : ascii) : bool :=
  let n := nat_of_ascii c in ((48 <=? n) && (n <=? 57))%nat.

Definition to_upper (c : ascii) : ascii :=
  if is_lower c then ascii_of_nat (nat_of_ascii c - 32) else c.
Definition to_lower (c : ascii) : ascii :=
  if is_upper c then ascii_of_nat (nat_of_ascii c + 32) else c.

(** [validHeaderFieldByte]: the token characters of RFC 7230. *)
Definition validHeaderFieldByte (c : ascii) : bool :=
  is_lower c || is_upper c || is_digit c
  || existsb (Ascii.eqb c) (list_ascii_of_string "!#$%&'*+-.^_`|~").

Fixpoint all_valid (s : string) : bool :=
  match s with
  | EmptyString => true
  | String c rest => validHeaderFieldByte c && all_valid rest
  end.

(** The rewriting loop of [canonicalMIMEHeaderKey]: the first letter and
    every letter after a hyphen in upper case, the others in lower case. *)
Fixpoint canonical_loop (upper : bool) (s : string) : string :=
  match s with
  | EmptyString => EmptyString
  | String c rest =>
      let c' := if upper then to_upper c else to_lower c in
      String c' (canonical_loop (Ascii.eqb c' "-") rest)
  end.

(** [textproto.CanonicalMIMEHeaderKey]: a key holding a byte that is not
    a token character is returned unchanged. *)
Definition CanonicalMIMEHeaderKey (s : string) : string :=
  if all_valid s then canonical_loop true s else s.

(** ** [net/http]: headers, requests, responses *)

(** [http.Header] is a [map[string][]string]. *)
Definition Header_Add (h : gmap string (list string)) (key value : string)
  : gmap string (list string) :=
  let k := CanonicalMIMEHeaderKey key in
  <[k := default [] (h !! k) ++ [value]]> h.

Definition Header_Values (h : gmap string (list string)) (key : string)
  : list string :=
  default [] (h !! CanonicalMIMEHeaderKey key).

Definition Header_Get (h : gmap string (list string)) (key : string) : string :=
  match Header_Values h key with
  | [] => ""
  | v :: _ => v
  end.

(** An outgoing request. The body is the content of the [bytes.Reader]
    it was made from; [None] is the nil body of a GET. *)
Record Request := mkRequest {
  Method : string;
  URL : string;
  ReqHeader : gmap string (list string);
  ReqBody : option (list byte)
}.

(** A response body: what reading it to the end yields. *)
Record ReadCloser := mkReadCloser {
  content : list byte;
  read_error : option error
}.

Definition io_ReadAll (r : ReadCloser) : list byte * option error :=
  (content r, read_error r).

Record Response := mkResponse {
  StatusCode : Z;
  Status : string;
  RespHeader : gmap string (list string);
  Body : ReadCloser
}.

Definition closeBody (r : Response) : Response :=
  {| StatusCode := StatusCode r;
     Status := Status r;
     RespHeader := RespHeader r;
     Body := {| content := [];
                read_error :=
                  Some (errorString "http: read on closed response body") |} |}.

(** [http.Client], of which the client sets the redirect policy only:
    [CheckRedirect req via]. *)
Record Client := mkClient {
  CheckRedirect : option (Request -> list Request -> option error)
}.

(** The policy used when [CheckRedirect] is nil. *)
Definition defaultCheckRedirect (req : Request) (via : list Request)
  : option error :=
  if (10 <=? length via)%nat
  then Some (errorString "stopped after 10 redirects")
  else None.

Definition checkRedirect (c : Client) (req : Request) (via : list Request)
  : option error :=
  match CheckRedirect c with
  | Some fn => fn req via
  | None => defaultCheckRedirect req via
  end.

(** [redirectBehavior]: the method of the next hop, whether the response
    is a redirect to follow, and whether the body is sent again. *)
Definition outgoingLength (r : Request) : nat :=
  match ReqBody r with
  | Some b => length b
  | None => 0
  end.

Definition GetBody_is_nil (r : Request) : bool :=
  match ReqBody r with
  | Some _ => false
  | None => true
  end.

Definition redirectBehavior (reqMethod : string) (resp : Response)
    (ireq : Request) : string * bool * bool :=
  let code := StatusCode resp in
  if (code =? 301) || (code =? 302) || (code =? 303) then
    if negb (String.eqb reqMethod "GET") && negb (String.eqb reqMethod "HEAD")
    then ("GET", true, false)
    else (reqMethod, true, false)
  else if (code =? 307) || (code =? 308) then
    if GetBody_is_nil ireq && negb (outgoingLength ireq =? 0)%nat
    then (reqMethod, false, true)
    else (reqMethod, true, true)
  else ("", false, false).

End Go.

(* ===================================================================== *)
(** * The world the client runs in *)
(* ===================================================================== *)

Module Import Runtime.

Import Go.

(** The address of a map object. *)
Abbreviation loc := nat.

(** The state: the map objects allocated so far, how often the clock was
    read and a map was ranged over, the requests handed to the network
    (oldest first) and the lines printed. *)
Record World := mkWorld {
  maps : list (gmap string string);
  ticks : nat;
  iters : nat;
  wire : list Request;
  stdout : list string
}.

(** What the program does not decide. *)
Record Env := mkEnv {
  (** the successive readings of the wall clock *)
  now : nat -> Time;
  (** the order in which the n-th [range] visits the entries of a map *)
  range_order : nat -> gmap string string -> list (string * string);
  range_order_perm : forall n m, range_order n m ≡ₚ map_to_list m;
  (** [url.Parse]: the error, if the text is not a URL *)
  url_parse : string -> option error;
  (** [strconv.Quote] and the JSON encoding of a string *)
  strconv_Quote : string -> string;
  json_string : string -> string;
  (** the server: the answer to a request, given the earlier ones *)
  round_trip : list Request -> Request -> Response + error;
  (** how [Client.Do] builds the request of the next hop of a redirect and
      wraps its errors into a [*url.Error] *)
  next_hop : list Request -> Response -> string -> bool -> Request;
  url_Error : list Request -> error -> error;
  (** the number of iterations granted to the redirect loop *)
  fuel : nat
}.

(** How a computation ends. *)
Inductive Outcome (A : Type) : Type :=
| Done (a : A)
| Panic (msg : string)
| Diverge.
Arguments Done {A} a.
Arguments Panic {A} msg.
Arguments Diverge {A}.

Definition M (A : Type) : Type := World -> Outcome A * World.

Definition ret {A} (a : A) : M A := fun w => (Done a, w).

Definition bind {A B} (m : M A) (k : A -> M B) : M B :=
  fun w =>
    match m w with
    | (Done a, w') => k a w'
    | (Panic msg, w') => (Panic msg, w')
    | (Diverge, w') => (Diverge, w')
    end.

Definition panic {A} (msg : string) : M A := fun w => (Panic msg, w).
Definition diverge {A} : M A := fun w => (Diverge, w).

Notation "'let*' x ':=' m 'in' k" := (bind m (fun x => k))
  (at level 10, x pattern, m at level 100, k at level 200).

(** ** Maps *)

Definition set_maps (f : list (gmap string string) -> list (gmap string string))
    (w : World) : World :=
  {| maps := f (maps w); ticks := ticks w; iters := iters w;
     wire := wire w; stdout := stdout w |}.

(** The entries of the map behind a reference; the nil map has none. *)
Definition deref (w : World) (r : option loc) : gmap string string :=
  match r with
  | Some l => default ∅ (maps w !! l)
  | None => ∅
  end.

(** [make(map[string]string)] *)
Definition make_map : M (option loc) :=
  fun w => (Done (Some (length (maps w))), set_maps (fun ms => ms ++ [∅]) w).

(** [m[k]]: the zero value for a missing key and for the nil map. *)
Definition map_index (r : option loc) (k : string) : M string :=
  fun w => (Done (default "" (deref w r !! k)), w).

(** [m[k] = v]: an assignment to an entry of the nil map panics. *)
Definition map_assign (r : option loc) (k v : string) : M unit :=
  match r with
  | Some l =>
      fun w => (Done tt, set_maps (fun ms => <[l := <[k := v]> (deref w r)]> ms) w)
  | None => panic "assignment to entry in nil map"
  end.

(** [for k, v := range m]: the entries, in the order of this iteration. *)
Definition range (env : Env) (r : option loc) : M (list (string * string)) :=
  fun w =>
    (Done (range_order env (iters w) (deref w r)),
     {| maps := maps w; ticks := ticks w; iters := S (iters w);
        wire := wire w; stdout := stdout w |}).

Fixpoint for_each {A} (l : list A) (body : A -> M unit) : M unit :=
  match l with
  | [] => ret tt
  | x :: rest => let* _ := body x in for_each rest body
  end.

(** ** Clock, console and network *)

(** [time.Now()] *)
Definition time_Now (env : Env) : M Time :=
  fun w =>
    (Done (now env (ticks w)),
     {| maps := maps w; ticks := S (ticks w); iters := iters w;
        wire := wire w; stdout := stdout w |}).

(** [fmt.Println] *)
Definition Println (line : string) : M unit :=
  fun w =>
    (Done tt,
     {| maps := maps w; ticks := ticks w; iters := iters w;
        wire := wire w; stdout := stdout w ++ [line] |}).

(** One exchange with the server. *)
Definition send (env : Env) (req : Request) : M (Response + error) :=
  fun w =>
    (Done (round_trip env (wire w) req),
     {| maps := maps w; ticks := ticks w; iters := iters w;
        wire := wire w ++ [req]; stdout := stdout w |}).

(** [http.NewRequest]: fails when the URL does not parse; the header of
    the new request is empty. *)
Definition NewRequest (env : Env) (method url : string)
    (body : option (list byte)) : option Request * option error :=
  match url_parse env url with
  | Some err => (None, Some err)
  | None =>
      (Some {| Method := method; URL := url; ReqHeader := ∅; ReqBody := body |},
       None)
  end.

(** The method [Do] of [http.Client]: the redirect loop of
    [net/http/client.go]. [reqs] are the requests sent so far and [last]
    is the response to the latest of them, with the method and the body
    flag that [redirectBehavior] chose for the next hop. For every hop but
    the first the loop reads the [Location] of that response: if there is
    none the response is returned, as current versions of Go do; if it
    does not parse the call fails;
    otherwise the request of the next hop is made and shown to the
    redirect policy, which may stop the loop with the response
    ([ErrUseLastResponse]), stop it with an error, or let it go on. One
    unit of fuel is spent per iteration. *)
Fixpoint do_loop (env : Env) (n : nat) (c : Client) (reqs : list Request)
    (req : Request) (last : option (Response * string * bool))
  : M (option Response * option error) :=
  match n with
  | O => diverge
  | S n' =>
      (* For all but the first request, create the next hop. *)
      let hop : (option Response * option error) + Request :=
        match last with
        | None => inr req
        | Some (resp, redirectMethod, includeBody) =>
            let loc := Header_Get (RespHeader resp) "Location" in
            if String.eqb loc "" then inl (Some resp, None)
            else
              match url_parse env loc with
              | Some err =>
                  inl (None,
                       Some (url_Error env reqs
                         (errorString ("failed to parse Location header "
                            +:+ strconv_Quote env loc +:+ ": " +:+ Error err))))
              | None =>
                  let req' := next_hop env reqs resp redirectMethod includeBody in
                  match checkRedirect c req' reqs with
                  | Some err =>
                      if is_ErrUseLastResponse err then inl (Some resp, None)
                      else inl (Some (closeBody resp), Some (url_Error env reqs err))
                  | None => inr req'
                  end
              end
        end in
      match hop with
      | inl result => ret result
      | inr req =>
          let reqs := reqs ++ [req] in
          let* r := send env req in
          match r with
          | inr err => ret (None, Some (url_Error env reqs err))
          | inl resp =>
              let '(redirectMethod, shouldRedirect, includeBody) :=
                redirectBehavior (Method req) resp (hd req reqs) in
              if negb shouldRedirect then ret (Some resp, None)
              else do_loop env n' c reqs req (Some (resp, redirectMethod, includeBody))
          end
      end
  end.

Definition Client_Do (env : Env) (c : Client) (req : Request)
  : M (option Response * option error) :=
  do_loop env (fuel env) c [] req None.

End Runtime.

(* ===================================================================== *)
(** * Package gop2b *)
(* ===================================================================== *)

Module Gop2b.

(** HTTP header of the account API key, of the body encoded in base64,
    and of the HmacSHA512 signature of that payload. *)
Definition HeaderXTxcAPIKey : string := "X-TXC-APIKEY".
Definition HeaderXTxcPayload : string := "X-TXC-PAYLOAD".
Definition HeaderXTxcSignature : string := "X-TXC-SIGNATURE".

Definition baseAPI : string := "https://api.p2pb2b.com/api/v2".
Definition websocketApi : string := "wss://apiws.p2pb2b.com/".

Record auth := mkAuth {
  APIKey : string;
  APISecret : string
}.

(** The fields [http], [auth], [url] and [wsUrl] of the struct carry the
    prefix [c_], [auth] being the name of a struct as well. *)
Record client := mkClient {
  c_http : Go.Client;
  c_auth : option auth;
  c_url : string;
  c_wsUrl : string
}.

(** The [response] of the transport; the zero value has a nil body. *)
Record response := mkResponse {
  Header : gmap string (list string);
  Body : option Go.ReadCloser;
  StatusCode : Z;
  Status : string
}.

Definition response_zero : response :=
  {| Header := ∅; Body := None; StatusCode := 0; Status := "" |}.

(** A [[]string]; [None] is the nil slice. *)
Definition append_string (s : option (list string)) (x : string)
  : option (list string) :=
  Some (default [] s ++ [x]).

Record wsRequest := mkWsRequest {
  Method : string;
  Params : option (list string);
  Id : Z
}.

(** The basic request and response structs, and those of the endpoints.
    The field [Request] of the struct [Request] is [Request_]; the
    embedded [Request] and [Response] and the field [Result] of the
    endpoint structs carry the name of the endpoint as a prefix. *)
Record Request := mkRequest {
  Request_ : string;
  Nonce : string
}.

Record Response := mkResp {
  Success : bool;
  Message : string
}.

(** [decimal.Decimal]: [value * 10 ^ exp]. *)
Record Decimal := mkDecimal { value : Z; exp : Z }.

Record AccountBalance := mkAccountBalance {
  Available : Decimal;
  Freeze : Decimal
}.

Record AccountBalancesResp := mkAccountBalancesResp {
  balances_Response : Response;
  balances_Result : gmap string AccountBalance
}.

Record AccountBalancesRequest := mkAccountBalancesRequest {
  balances_Request : Request
}.

Record AccountCurrencyBalanceResp := mkAccountCurrencyBalanceResp {
  currency_Response : Response;
  currency_Result : AccountBalance
}.

Record AccountCurrencyBalanceRequest := mkAccountCurrencyBalanceRequest {
  currency_Request : Request;
  Currency : string
}.

(** ** Pure functions *)

(** [checkHTTPStatus]: the loop over [expected], leaving at the first
    match; [all] is the whole list, for the error text. *)
Fixpoint checkHTTPStatus_loop (resp : response) (all rest : list Z)
  : option Go.error :=
  match rest with
  | [] =>
      Some (Go.errorString
              ("http response status != " +:+ Go.fmt_ints all +:+ ", got "
               +:+ Go.FormatInt10 (StatusCode resp)))
  | e :: rest' =>
      if StatusCode resp =? e then None
      else checkHTTPStatus_loop resp all rest'
  end.

Definition checkHTTPStatus (resp : response) (expected : list Z)
  : option Go.error :=
  checkHTTPStatus_loop resp expected expected.

Definition StatusOK : Z := 200.

(** The policy [newClientWithURL] gives its [http.Client]. *)
Definition useLastResponse (req : Go.Request) (via : list Go.Request)
  : option Go.error :=
  Some Go.ErrUseLastResponse.

Definition newClientWithURL (url apiKey apiSecret : string)
  : option client * option Go.error :=
  (Some {| c_http := {| Go.CheckRedirect := Some useLastResponse |};
           c_auth := Some {| APIKey := apiKey; APISecret := apiSecret |};
           c_url := url;
           c_wsUrl := websocketApi |},
   None).

Definition NewClient (apiKey apiSecret : string)
  : option client * option Go.error :=
  newClientWithURL baseAPI apiKey apiSecret.

(** ** [encoding/json] on the request structs *)

Definition dquote : string := String (ascii_of_nat 34) EmptyString.

Definition json_key (name : string) : string :=
  dquote +:+ name +:+ dquote +:+ ":".

Section Package.

Context (env : Env).

(** The fields of the embedded [Request] come first. *)
Definition json_Request_fields (r : Request) : string :=
  json_key "request" +:+ json_string env (Request_ r) +:+ ","
  +:+ json_key "nonce" +:+ json_string env (Nonce r).

Definition json_Marshal_AccountBalancesRequest (r : AccountBalancesRequest)
  : list byte * option Go.error :=
  (list_byte_of_string
     ("{" +:+ json_Request_fields (balances_Request r) +:+ "}"),
   None).

Definition json_Marshal_AccountCurrencyBalanceRequest
    (r : AccountCurrencyBalanceRequest) : list byte * option Go.error :=
  (list_byte_of_string
     ("{" +:+ json_Request_fields (currency_Request r) +:+ ","
      +:+ json_key "currency" +:+ json_string env (Currency r) +:+ "}"),
   None).

(** [json.Unmarshal] into the response structs. *)
Variable json_Unmarshal_AccountBalancesResp
  : list byte -> AccountBalancesResp * option Go.error.
Variable json_Unmarshal_AccountCurrencyBalanceResp
  : list byte -> AccountCurrencyBalanceResp * option Go.error.

(** ** Websocket requests *)

Definition newWsRequest (method : string) (params : list string) : M wsRequest :=
  let req := {| Method := method; Params := Some []; Id := 0 |} in
  let req :=
    fold_left
      (fun req p =>
         {| Method := Method req; Params := append_string (Params req) p;
            Id := Id req |})
      params req in
  let* t := time_Now env in
  ret {| Method := Method req; Params := Params req; Id := Go.Unix t |}.

Definition newPingRequest : M wsRequest :=
  newWsRequest "server.ping" [].

Definition newUnsubscribeRequest (endpoint : string) : M wsRequest :=
  newWsRequest (endpoint +:+ ".unsubscribe") [].

(** ** Headers *)

Definition mergeHeaders (firstHeaders secondHeaders : option loc)
  : M (option loc) :=
  match secondHeaders with
  | None => ret firstHeaders
  | Some _ =>
      match firstHeaders with
      | None => ret secondHeaders
      | Some _ =>
          let* entries := range env secondHeaders in
          let* _ :=
            for_each entries (fun kv =>
              let* cur := map_index firstHeaders (fst kv) in
              if String.eqb cur "" then map_assign firstHeaders (fst kv) (snd kv)
              else ret tt) in
          ret firstHeaders
      end
  end.

(** [request.Header.Add(k, v)] for each entry, in order. *)
Definition add_all (request : Go.Request) (entries : list (string * string))
  : Go.Request :=
  fold_left
    (fun r kv =>
       {| Go.Method := Go.Method r; Go.URL := Go.URL r;
          Go.ReqHeader := Go.Header_Add (Go.ReqHeader r) (fst kv) (snd kv);
          Go.ReqBody := Go.ReqBody r |})
    entries request.

(** ** The transport *)

Definition sendRequest (c : client) (request : Go.Request)
    (additionalHeaders : option loc) : M (option response * option Go.error) :=
  let* entries := range env additionalHeaders in
  let request := add_all request entries in
  let* thisHeaders := make_map in
  let* _ := map_assign thisHeaders "Content-type" "application/json" in
  let* _ :=
    match c_auth c with
    | Some a => map_assign thisHeaders HeaderXTxcAPIKey (APIKey a)
    | None => ret tt
    end in
  let* headers := mergeHeaders additionalHeaders thisHeaders in
  let* entries := range env headers in
  let request := add_all request entries in
  let* r := Client_Do env (c_http c) request in
  match r with
  | (_, Some err) =>
      let* _ := Println ("erro: " +:+ Go.Error err) in
      ret (None, Some err)
  | (Some resp, None) =>
      ret (Some {| StatusCode := Go.StatusCode resp;
                   Status := Go.Status resp;
                   Header := Go.RespHeader resp;
                   Body := Some (Go.Body resp) |},
           None)
  | (None, None) => panic "invalid memory address or nil pointer dereference"
  end.

Definition sendPost (c : client) (url : string)
    (additionalHeaders : option loc) (body : Go.ReadCloser)
  : M (option response * option Go.error) :=
  match Go.io_ReadAll body with
  | (_, Some err) => ret (None, Some err)
  | (bodyBytes, None) =>
      match NewRequest env "POST" url (Some bodyBytes) with
      | (_, Some err) =>
          ret (Some response_zero,
               Some (Go.errorString
                       ("error creating POST request, " +:+ Go.Error err)))
      | (None, None) => panic "invalid memory address or nil pointer dereference"
      | (Some req, None) =>
          let* additionalHeaders :=
            match additionalHeaders with
            | None => make_map
            | Some _ => ret additionalHeaders
            end in
          let* _ :=
            map_assign additionalHeaders HeaderXTxcPayload
              (Bytes.base64_EncodeToString bodyBytes) in
          let* _ :=
            match c_auth c with
            | Some a =>
                let* payload := map_index additionalHeaders HeaderXTxcPayload in
                let signature :=
                  Bytes.hex_EncodeToString
                    (SHA512.hmac (list_byte_of_string (APISecret a))
                                 (list_byte_of_string payload)) in
                map_assign additionalHeaders HeaderXTxcSignature signature
            | None => ret tt
            end in
          sendRequest c req additionalHeaders
      end
  end.

Definition sendGet (c : client) (url : string)
    (additionalHeaders : option loc) : M (option response * option Go.error) :=
  match NewRequest env "GET" url None with
  | (_, Some err) =>
      ret (Some response_zero,
           Some (Go.errorString
                   ("error creating GET request, " +:+ Go.Error err)))
  | (None, None) => panic "invalid memory address or nil pointer dereference"
  | (Some req, None) => sendRequest c req additionalHeaders
  end.

(** ** The endpoints *)

Definition bytes_NewReader (b : list byte) : Go.ReadCloser :=
  {| Go.content := b; Go.read_error := None |}.

(** What both endpoints do with the answer of [sendPost]: read the body,
    check the status, decode. *)
Definition read_body (resp : response) : M (list byte * option Go.error) :=
  match Body resp with
  | Some b => ret (Go.io_ReadAll b)
  | None => panic "invalid memory address or nil pointer dereference"
  end.

Definition status_and_body (err : Go.error) (bodyBytes : list byte) : Go.error :=
  Go.errorString
    (Go.Error err +:+ ": " +:+ string_of_list_byte bodyBytes
     +:+ String (ascii_of_nat 10) EmptyString).

Definition PostBalances (c : client) (request : AccountBalancesRequest)
  : M (AccountBalancesRequest * (option AccountBalancesResp * option Go.error)) :=
  let url := c_url c +:+ "/account/balances" in
  match json_Marshal_AccountBalancesRequest request with
  | (_, Some err) => ret (request, (None, Some err))
  | (asJSON, None) =>
      let* r := sendPost c url None (bytes_NewReader asJSON) in
      match r with
      | (_, Some err) => ret (request, (None, Some err))
      | (None, None) => panic "invalid memory address or nil pointer dereference"
      | (Some resp, None) =>
          let* rd := read_body resp in
          match rd with
          | (_, Some err) => ret (request, (None, Some err))
          | (bodyBytes, None) =>
              match checkHTTPStatus resp [StatusOK] with
              | Some err =>
                  ret (request, (None, Some (status_and_body err bodyBytes)))
              | None =>
                  match json_Unmarshal_AccountBalancesResp bodyBytes with
                  | (_, Some err) => ret (request, (None, Some err))
                  | (result, None) => ret (request, (Some result, None))
                  end
              end
          end
      end
  end.

Definition PostCurrencyBalance (c : client)
    (request : AccountCurrencyBalanceRequest)
  : M (AccountCurrencyBalanceRequest
       * (option AccountCurrencyBalanceResp * option Go.error)) :=
  let url := c_url c +:+ "/account/balance" in
  let* t := time_Now env in
  let request :=
    {| currency_Request :=
         {| Request_ := Request_ (currency_Request request);
            Nonce := Go.FormatInt10 (Go.UnixMilli t) |};
       Currency := Currency request |} in
  let request :=
    {| currency_Request :=
         {| Request_ := "/api/v2/account/balance";
            Nonce := Nonce (currency_Request request) |};
       Currency := Currency request |} in
  match json_Marshal_AccountCurrencyBalanceRequest request with
  | (_, Some err) => ret (request, (None, Some err))
  | (asJSON, None) =>
      let* r := sendPost c url None (bytes_NewReader asJSON) in
      match r with
      | (_, Some err) => ret (request, (None, Some err))
      | (None, None) => panic "invalid memory address or nil pointer dereference"
      | (Some resp, None) =>
          let* rd := read_body resp in
          match rd with
          | (_, Some err) => ret (request, (None, Some err))
          | (bodyBytes, None) =>
              match checkHTTPStatus resp [StatusOK] with
              | Some err =>
                  ret (request, (None, Some (status_and_body err bodyBytes)))
              | None =>
                  match json_Unmarshal_AccountCurrencyBalanceResp bodyBytes with
                  | (_, Some err) => ret (request, (None, Some err))
                  | (result, None) => ret (request, (Some result, None))
                  end
              end
          end
      end
  end.

End Package.

End Gop2b.

(* ===================================================================== *)
(** * A scripted environment *)
(* ===================================================================== *)

(** An environment to run the client in: a clock that advances by one
    second and a bit per reading, maps visited in the order of
    [map_to_list], and a server given as a function. Strings are quoted
    by putting them between double quotes, which is what Go does for the
    texts used with it below. *)
Module Testbed.

Import Go.

Definition clock (n : nat) : Time :=
  {| unixSec := 1700000000 + Z.of_nat n; nsec := 7000000 * Z.of_nat n |}.

Definition in_order (n : nat) (m : gmap string string)
  : list (string * string) :=
  map_to_list m.

Definition in_order_perm n m : in_order n m ≡ₚ map_to_list m.
Proof. reflexivity. Qed.

Definition quote (s : string) : string :=
  Gop2b.dquote +:+ s +:+ Gop2b.dquote.

(** A text that begins with an ill-formed escape is not a URL. *)
Definition parse (s : string) : option error :=
  if String.prefix "%zz" s
  then Some (errorString ("parse " +:+ quote s +:+ ": invalid URL escape "
                          +:+ quote "%zz"))
  else None.

Definition follow (reqs : list Request) (resp : Response)
    (method : string) (includeBody : bool) : Request :=
  {| Method := method;
     URL := Header_Get (RespHeader resp) "Location";
     ReqHeader := ∅;
     ReqBody := if includeBody
                then match reqs with r :: _ => ReqBody r | [] => None end
                else None |}.

Definition wrap (reqs : list Request) (err : error) : error :=
  errorString
    (match reqs with r :: _ => Method r | [] => "" end
     +:+ " " +:+ quote (match List.rev reqs with r :: _ => URL r | [] => "" end)
     +:+ ": " +:+ Error err).

Definition scripted (server : list Request -> Request -> Response + error)
  : Env :=
  {| now := clock;
     range_order := in_order;
     range_order_perm := in_order_perm;
     url_parse := parse;
     strconv_Quote := quote;
     json_string := quote;
     round_trip := server;
     next_hop := follow;
     url_Error := wrap;
     fuel := 12 |}.

Definition empty_world : World :=
  {| maps := []; ticks := 0; iters := 0; wire := []; stdout := [] |}.

Definition reply (code : Z) (status : string)
    (header : gmap string (list string)) (body : string) : Response :=
  {| StatusCode := code; Status := status; RespHeader := header;
     Body := {| content := list_byte_of_string body; read_error := None |} |}.

(** A server that answers every request alike. *)
Definition always (r : Response) : list Request -> Request -> Response + error :=
  fun _ _ => inl r.

End Testbed.

(* ===================================================================== *)
(** * The vocabulary of the statements *)
(* ===================================================================== *)

(** What the theorems below talk about, beyond the program itself: worlds
    that differ in one part, the maps and the request that [sendRequest]
    and [sendPost] build on the way, the continuations of their calls, and
    the texts of the errors. None of it is part of the program. *)
Module Spec.

Import Go Gop2b.

(** ** Texts

    The characters of a number in decimal: digits and the minus sign. *)
Definition numeric_char (c : ascii) : bool :=
  is_digit c || Ascii.eqb c "-".

(** A text made of such characters only. *)
Fixpoint numeric (s : string) : bool :=
  match s with
  | EmptyString => true
  | String c rest => numeric_char c && numeric rest
  end.

(** A text at which a number ends: the end, or some other character. *)
Definition stops (s : string) : Prop :=
  match s with
  | EmptyString => True
  | String c _ => numeric_char c = false
  end.

(** The numbers of a list after the first, each behind a space. *)
Fixpoint tail_ints (l : list Z) : string :=
  match l with
  | [] => ""
  | x :: rest => " " +:+ FormatInt10 x +:+ tail_ints rest
  end.

(** The error of a status mismatch, as a function of what it reports. *)
Definition status_mismatch (expected : list Z) (actual : Z) : error :=
  errorString ("http response status != " +:+ fmt_ints expected
               +:+ ", got " +:+ FormatInt10 actual).

(** ** Worlds

    The world after one reading of the clock, and a world with other maps,
    another count of iterations, another wire. *)
Definition tick (w : World) : World :=
  {| maps := maps w; ticks := S (ticks w); iters := iters w;
     wire := wire w; stdout := stdout w |}.

Definition with_maps (ms : list (gmap string string)) (w : World) : World :=
  {| maps := ms; ticks := ticks w; iters := iters w;
     wire := wire w; stdout := stdout w |}.

Definition with_iters (n : nat) (w : World) : World :=
  {| maps := maps w; ticks := ticks w; iters := n;
     wire := wire w; stdout := stdout w |}.

Definition with_wire (rs : list Go.Request) (w : World) : World :=
  {| maps := maps w; ticks := ticks w; iters := iters w;
     wire := rs; stdout := stdout w |}.

(** A reference is valid when it is nil or points to an allocated map. *)
Definition valid_ref (w : World) (r : option loc) : Prop :=
  match r with
  | Some l => (l < length (maps w))%nat
  | None => True
  end.

(** ** Merging

    What the loop of [mergeHeaders] does to the first map, entry by
    entry. *)
Definition fill_missing (mf : gmap string string)
    (entries : list (string * string)) : gmap string string :=
  fold_left
    (fun m kv =>
       if String.eqb (default "" (m !! fst kv)) "" then <[fst kv := snd kv]> m
       else m)
    entries mf.

(** The entry of the merged map at a key: the value of the first map
    unless it is missing or the empty string, in which case the value of
    the second map is taken if there is one. *)
Definition merged_lookup (mf ms : gmap string string) (k : string)
  : option string :=
  if String.eqb (default "" (mf !! k)) ""
  then match ms !! k with Some v => Some v | None => mf !! k end
  else mf !! k.

(** The body of that loop. *)
Definition merge_body (firstHeaders : option loc) (kv : string * string)
  : M unit :=
  let* cur := map_index firstHeaders (fst kv) in
  if String.eqb cur "" then map_assign firstHeaders (fst kv) (snd kv)
  else ret tt.

(** ** Headers

    The values stored in a header under a canonical key. *)
Definition stored (h : gmap string (list string)) (K : string) : list string :=
  default [] (h !! K).

(** The values a list of entries contributes under a canonical key. *)
Definition values_for (K : string) (entries : list (string * string))
  : list string :=
  (filter (fun kv => CanonicalMIMEHeaderKey (fst kv) = K) entries).*2.

(** How often a value occurs. *)
Definition copies (v : string) (l : list string) : nat :=
  length (filter (fun x => x = v) l).

(** ** Signing

    The payload and the signature of a body. *)
Definition payload_of (body : list byte) : string :=
  Bytes.base64_EncodeToString body.

Definition signature_of (a : auth) (body : list byte) : string :=
  Bytes.hex_EncodeToString
    (SHA512.hmac (list_byte_of_string (APISecret a))
                 (list_byte_of_string (payload_of body))).

(** The header map after [sendPost] has written to it. *)
Definition signed (c : client) (body : list byte) (m : gmap string string)
  : gmap string string :=
  match c_auth c with
  | Some a =>
      <[HeaderXTxcSignature := signature_of a body]>
        (<[HeaderXTxcPayload := payload_of body]> m)
  | None => <[HeaderXTxcPayload := payload_of body]> m
  end.

(** The requests [http.NewRequest] makes for [sendPost] and [sendGet]. *)
Definition POST_request (url : string) (body : list byte) : Go.Request :=
  {| Go.Method := "POST"; URL := url; ReqHeader := ∅; ReqBody := Some body |}.

Definition GET_request (url : string) : Go.Request :=
  {| Go.Method := "GET"; URL := url; ReqHeader := ∅; ReqBody := None |}.

(** The reference [sendPost] passes on: the caller's, or a fresh map. *)
Definition post_ref (r : option loc) (w : World) : option loc :=
  match r with
  | Some _ => r
  | None => Some (length (maps w))
  end.

(** The world in which [sendPost] calls [sendRequest]. *)
Definition post_world (c : client) (body : list byte) (r : option loc)
    (w : World) : World :=
  match r with
  | Some f => with_maps (<[f := signed c body (deref w r)]> (maps w)) w
  | None => with_maps (maps w ++ [signed c body ∅]) w
  end.

(** ** The transport

    The headers [sendRequest] computes itself. *)
Definition computed (c : client) : gmap string string :=
  match c_auth c with
  | Some a =>
      <[HeaderXTxcAPIKey := APIKey a]>
        (<["Content-type" := "application/json"]> ∅)
  | None => <["Content-type" := "application/json"]> ∅
  end.

(** What [sendRequest] does with the answer of [Do]. *)
Definition finish (r : option Go.Response * option error)
  : M (option response * option error) :=
  match r with
  | (_, Some err) =>
      let* _ := Println ("erro: " +:+ Go.Error err) in
      ret (None, Some err)
  | (Some resp, None) =>
      ret (Some {| StatusCode := Go.StatusCode resp;
                   Status := Go.Status resp;
                   Header := Go.RespHeader resp;
                   Body := Some (Go.Body resp) |},
           None)
  | (None, None) => panic "invalid memory address or nil pointer dereference"
  end.

(** The [response] made of what [Do] returned. *)
Definition response_of (resp : Go.Response) : response :=
  {| StatusCode := Go.StatusCode resp;
     Status := Go.Status resp;
     Header := Go.RespHeader resp;
     Body := Some (Go.Body resp) |}.

(** The [Location] of a response is usable when it is absent (or empty)
    or parses as a URL. *)
Definition location_ok (env : Env) (resp : Go.Response) : Prop :=
  Header_Get (RespHeader resp) "Location" = ""
  \/ url_parse env (Header_Get (RespHeader resp) "Location") = None.

(** ** The endpoints

    What both endpoints do once [sendPost] has answered. *)
Definition after_post {Req Resp} (request : Req)
    (decode : list byte -> Resp * option error)
    (r : option response * option error)
  : M (Req * (option Resp * option error)) :=
  match r with
  | (_, Some err) => ret (request, (None, Some err))
  | (None, None) => panic "invalid memory address or nil pointer dereference"
  | (Some resp, None) =>
      let* rd := read_body resp in
      match rd with
      | (_, Some err) => ret (request, (None, Some err))
      | (bodyBytes, None) =>
          match checkHTTPStatus resp [StatusOK] with
          | Some err =>
              ret (request, (None, Some (status_and_body err bodyBytes)))
          | None =>
              match decode bodyBytes with
              | (_, Some err) => ret (request, (None, Some err))
              | (result, None) => ret (request, (Some result, None))
              end
          end
      end
  end.

(** An answer of [sendPost] that cannot make an endpoint panic. *)
Definition well_formed (r : option response * option error) : Prop :=
  match r with
  | (None, None) => False
  | (Some resp, None) => is_Some (Body resp)
  | (_, Some _) => True
  end.

(** The text of the error an endpoint returns on a status other than 200:
    the mismatch, a colon, the body as it came, and a line feed. *)
Definition non200_text (code : Z) (bodyBytes : list byte) : string :=
  "http response status != [200], got " +:+ FormatInt10 code +:+ ": "
  +:+ string_of_list_byte bodyBytes +:+ String (ascii_of_nat 10) EmptyString.

(** The bodies of the requests on the wire, as texts. *)
Definition bodies (w : World) : list string :=
  (fun r => default "" (string_of_list_byte <$> ReqBody r)) <$> wire w.

(** Two calls in a row, the second with the request the first left. *)
Definition twice {Req Res} (call : Req -> M (Req * Res)) (request : Req)
  : M (Req * Res) :=
  let* first := call request in
  call (fst first).

Section WithEnv.

Context (env : Env).

(** What [Do] answers under the policy [useLastResponse] when the server
    answers [r] to the request. *)
Definition first_answer (req : Go.Request) (r : Go.Response + error)
  : option Go.Response * option error :=
  match r with
  | inr err => (None, Some (url_Error env [req] err))
  | inl resp =>
      let loc := Header_Get (RespHeader resp) "Location" in
      if snd (fst (redirectBehavior (Go.Method req) resp req))
         && negb (String.eqb loc "")
      then match url_parse env loc with
           | Some err =>
               (None,
                Some (url_Error env [req]
                  (errorString ("failed to parse Location header "
                     +:+ strconv_Quote env loc +:+ ": " +:+ Error err))))
           | None => (Some resp, None)
           end
      else (Some resp, None)
  end.

(** The map [mergeHeaders] returns in [sendRequest]. *)
Definition merged (c : client) (r : option loc) (w : World)
  : gmap string string :=
  match r with
  | None => computed c
  | Some _ =>
      fill_missing (deref w r) (range_order env (S (iters w)) (computed c))
  end.

(** The entries the two loops of [sendRequest] add, in their order. *)
Definition first_entries (r : option loc) (w : World)
  : list (string * string) :=
  range_order env (iters w) (deref w r).

Definition second_entries (c : client) (r : option loc) (w : World)
  : list (string * string) :=
  match r with
  | None => range_order env (S (iters w)) (merged c r w)
  | Some _ => range_order env (S (S (iters w))) (merged c r w)
  end.

(** The request [sendRequest] hands to [Do], and the world it does so
    in. *)
Definition prepared (c : client) (request : Go.Request) (r : option loc)
    (w : World) : Go.Request :=
  add_all (add_all request (first_entries r w)) (second_entries c r w).

Definition before_Do (c : client) (r : option loc) (w : World) : World :=
  match r with
  | None => with_iters (2 + iters w) (with_maps (maps w ++ [computed c]) w)
  | Some f =>
      with_iters (3 + iters w)
        (with_maps (<[f := merged c r w]> (maps w) ++ [computed c]) w)
  end.

(** The request [PostCurrencyBalance] serializes: the caller's, with the
    nonce and the path written over. *)
Definition stamped (w : World) (request : AccountCurrencyBalanceRequest)
  : AccountCurrencyBalanceRequest :=
  {| currency_Request :=
       {| Request_ := "/api/v2/account/balance";
          Nonce := FormatInt10 (UnixMilli (now env (ticks w))) |};
     Currency := Currency request |}.

(** The serialized requests. *)
Definition balances_body (request : AccountBalancesRequest) : list byte :=
  fst (json_Marshal_AccountBalancesRequest env request).

Definition currency_body (request : AccountCurrencyBalanceRequest) : list byte :=
  fst (json_Marshal_AccountCurrencyBalanceRequest env request).

End WithEnv.

End Spec.

(* ===================================================================== *)
(** * Clients, worlds and servers to run the client on *)
(* ===================================================================== *)

Module Fixtures.

Import Go Gop2b Spec.

(** A server that answers 200 with an empty body, one that redirects to a
    text that is not a URL, one that redirects to a URL, and one that
    refuses the nonce. *)
Definition quiet_env : Env :=
  Testbed.scripted (Testbed.always (Testbed.reply 200 "200 OK" ∅ "")).

Definition content_type_maps : World :=
  {| maps := [ {[ "Content-type" := "" ]};
               {[ "Content-type" := "application/json" ]} ];
     ticks := 0; iters := 0; wire := []; stdout := [] |}.

Definition text_plain_maps : World :=
  {| maps := [ {[ "Content-type" := "text/plain" ]};
               {[ "Content-type" := "application/json" ]} ];
     ticks := 0; iters := 0; wire := []; stdout := [] |}.

Definition keyed_client : client :=
  {| c_http := {| CheckRedirect := Some useLastResponse |};
     c_auth := Some {| APIKey := "K"; APISecret := "S" |};
     c_url := baseAPI;
     c_wsUrl := websocketApi |}.


Definition custom_header : World :=
  {| maps := [ {[ "X-Request-Id" := "42" ]} ];
     ticks := 0; iters := 0; wire := []; stdout := [] |}.

Definition balances_url : string :=
  "https://api.p2pb2b.com/api/v2/account/balances".

Definition empty_object : ReadCloser :=
  bytes_NewReader (list_byte_of_string "{}").

Definition redirect_to_nowhere : Go.Response :=
  Testbed.reply 302 "302 Found" {[ "Location" := ["%zz"] ]} "".

Definition redirecting_env : Env :=
  Testbed.scripted (Testbed.always redirect_to_nowhere).

Definition found_elsewhere : Go.Response :=
  Testbed.reply 302 "302 Found"
    {[ "Location" := ["https://example.com/elsewhere"] ]} "moved".

Definition found_env : Env := Testbed.scripted (Testbed.always found_elsewhere).

Definition bad_nonce : Go.Response :=
  Testbed.reply 400 "400 Bad Request" ∅ "bad nonce".

Definition bad_nonce_env : Env := Testbed.scripted (Testbed.always bad_nonce).

Definition no_balances (b : list byte) : AccountBalancesResp * option error :=
  ({| balances_Response := {| Success := false; Message := "" |};
      balances_Result := ∅ |},
   Some (errorString "unexpected end of JSON input")).

Definition no_balance (b : list byte)
  : AccountCurrencyBalanceResp * option error :=
  ({| currency_Response := {| Success := false; Message := "" |};
      currency_Result :=
        {| Available := {| value := 0; exp := 0 |};
           Freeze := {| value := 0; exp := 0 |} |} |},
   Some (errorString "unexpected end of JSON input")).

Definition some_request : AccountBalancesRequest :=
  {| balances_Request :=
       {| Request_ := "/api/v2/account/balances"; Nonce := "1700000000000" |} |}.

Definition btc_request : AccountCurrencyBalanceRequest :=
  {| currency_Request := {| Request_ := ""; Nonce := "" |};
     Currency := "BTC" |}.

End Fixtures.

(* ===================================================================== *)
(** * More vocabulary and fixtures *)
(* ===================================================================== *)

Module SpecMore.

Import Go Gop2b Spec.

(** A text all of whose characters satisfy a test. *)
Fixpoint all_chars (P : ascii -> bool) (s : string) : bool :=
  match s with
  | EmptyString => true
  | String c rest => P c && all_chars P rest
  end.

Definition occurs_in (alphabet : string) (c : ascii) : bool :=
  existsb (Ascii.eqb c) (list_ascii_of_string alphabet).

(** The characters of lower-case hexadecimal, and those of padded
    base64. *)
Definition lower_hex_char : ascii -> bool := occurs_in Bytes.hextable.

Definition base64_char (c : ascii) : bool :=
  occurs_in Bytes.encodeStd c || Ascii.eqb c "=".

(** What an endpoint returns for the body of a 200 response. *)
Definition decoded {Resp} (decode : list byte -> Resp * option error)
    (bodyBytes : list byte) : option Resp * option error :=
  match decode bodyBytes with
  | (_, Some err) => (None, Some err)
  | (result, None) => (Some result, None)
  end.


(** The request an endpoint puts on the wire for a body, and the world
    in which the answer arrives. *)
Definition sent (env : Env) (c : client) (url : string)
    (bodyBytes : list byte) (w : World) : Go.Request :=
  prepared env c (POST_request url bodyBytes) (post_ref None w)
    (post_world c bodyBytes None w).

Definition answered (env : Env) (c : client) (url : string)
    (bodyBytes : list byte) (w : World) : World :=
  with_wire (wire w ++ [sent env c url bodyBytes w])
    (before_Do env c (post_ref None w) (post_world c bodyBytes None w)).

(** The time of a clock reading in milliseconds, when nothing wraps. *)
Definition millis (t : Time) : Z := unixSec t * 1000 + nsec t / 1000000.

(** A clock reading [time.Now] can give in this era: nanoseconds within
    the second, seconds far from the ends of [int64]. *)
Definition plausible (t : Time) : Prop :=
  0 <= nsec t < 1000000000 /\ - 2 ^ 50 <= unixSec t <= 2 ^ 50.

End SpecMore.

Module MoreFixtures.

Import Go Gop2b Spec Fixtures.


Definition unreachable_env : Env :=
  Testbed.scripted (fun _ _ => inr (errorString "connection refused")).

Definition broken_body : ReadCloser :=
  {| content := []; read_error := Some (errorString "unexpected EOF") |}.

Definition not_a_url : string := "%zz".

Definition unparsable_client : client :=
  {| c_http := {| CheckRedirect := Some useLastResponse |};
     c_auth := Some {| APIKey := "K"; APISecret := "S" |};
     c_url := not_a_url;
     c_wsUrl := websocketApi |}.

Definition ok_empty : Go.Response :=
  Testbed.reply 200 "200 OK" ∅ "{}".

Definition ok_env : Env := Testbed.scripted (Testbed.always ok_empty).

Definition two_maps : World :=
  {| maps := [ {[ "Accept" := "text/html" ]};
               {[ "Content-type" := "text/plain" ]} ];
     ticks := 0; iters := 0; wire := []; stdout := [] |}.

(** Decoders that succeed. *)
Definition any_balances (b : list byte) : AccountBalancesResp * option error :=
  ({| balances_Response := {| Success := true; Message := "" |};
      balances_Result := ∅ |},
   None).

Definition any_balance (b : list byte)
  : AccountCurrencyBalanceResp * option error :=
  ({| currency_Response := {| Success := true; Message := "" |};
      currency_Result :=
        {| Available := {| value := 15; exp := -1 |};
           Freeze := {| value := 5; exp := -1 |} |} |},
   None).

End MoreFixtures.

(* ===================================================================== *)
(** * The primitives on known answers *)
(* ===================================================================== *)

Module PrimitiveTests.
Import Bytes SHA512.

Example hex_abc :
  hex_EncodeToString (list_byte_of_string "abc") = "616263".
Proof. vm_compute. reflexivity. Qed.

Example base64_foobar :
  base64_EncodeToString (list_byte_of_string "foobar") = "Zm9vYmFy"
  /\ base64_EncodeToString (list_byte_of_string "fooba") = "Zm9vYmE="
  /\ base64_EncodeToString (list_byte_of_string "foob") = "Zm9vYg==".
Proof. vm_compute. auto. Qed.

Example sha512_abc :
  hex_EncodeToString (Sum512 (list_byte_of_string "abc"))
  = "ddaf35a193617abacc417349ae20413112e6fa4e89a97ea20a9eeee64b55d39a"
    +:+ "2192992a274fc1a836ba3c23a3feebbd454d4423643ce80e2a9ac94fa54ca49f".
Proof. vm_compute. reflexivity. Qed.

Example sha512_empty :
  hex_EncodeToString (Sum512 [])
  = "cf83e1357eefb8bdf1542850d66d8007d620e4050b5715dc83f4a921d36ce9ce"
    +:+ "47d0d13c5d85f2b0ff8318d2877eec2f63b931bd47417a81a538327af927da3e".
Proof. vm_compute. reflexivity. Qed.

(** Two blocks of input. *)
Example sha512_200a :
  hex_EncodeToString (Sum512 (repeat x61 200))
  = "4b11459c33f52a22ee8236782714c150a3b2c60994e9acee17fe68947a3e6789"
    +:+ "f31e7668394592da7bef827cddca88c4e6f86e4df7ed1ae6cba71f3e98faee9f".
Proof. vm_compute. reflexivity. Qed.

(** RFC 4231, test case 2. *)
Example hmac_rfc4231_2 :
  hex_EncodeToString
    (hmac (list_byte_of_string "Jefe")
          (list_byte_of_string "what do ya want for nothing?"))
  = "164b7a7bfcf819e2e395fbe73b56e0a387bd64222e831fd610270cd7ea250554"
    +:+ "9758bf75c05a994a6d034f65f8f0e6fdcaeab1a34d4a6b4b636e070a38bce737".
Proof. vm_compute. reflexivity. Qed.

(** A key longer than one block. *)
Example hmac_long_key :
  hex_EncodeToString (hmac (repeat x6b 200) (list_byte_of_string "abc"))
  = "600057e6cba9ce3e078c0ae32f0ba3a786002d1da4853945c899aa7678f932f0"
    +:+ "3c77200044e668ac0ae89029a08cae59b9ed7f93ffed3b39371e4d4f08c3c376".
Proof. vm_compute. reflexivity. Qed.

End PrimitiveTests.

(* ===================================================================== *)
(** * Numbers in decimal inside a text *)
(* ===================================================================== *)

Module DecimalText.

Import Go Spec.

Lemma numeric_app a b : numeric (a +:+ b) = numeric a && numeric b.
Proof.
  induction a as [|c a IH]; simpl; [reflexivity|].
  rewrite IH. apply andb_assoc.
Qed.

Lemma append_assoc (a b c : string) : (a +:+ b) +:+ c = a +:+ b +:+ c.
Proof. induction a as [|x a IH]; simpl; congruence. Qed.

Lemma pretty_N_char_numeric x : numeric_char (pretty_N_char x) = true.
Proof. unfold pretty_N_char. repeat case_match; reflexivity. Qed.

Lemma pretty_N_go_digits (x : N) :
  exists d, numeric d = true /\ ((0 < x)%N -> d <> "")
            /\ forall s, pretty_N_go x s = d +:+ s.
Proof.
  induction (N.lt_wf_0 x) as [x _ IH].
  destruct (decide (0 < x)%N) as [Hpos|Hzero].
  - destruct (IH (x `div` 10)%N) as (d & Hd & _ & Hgo).
    { apply N.div_lt; [done|reflexivity]. }
    exists (d +:+ String (pretty_N_char (x `mod` 10)) "").
    split; [|split].
    + rewrite numeric_app, Hd. simpl.
      rewrite pretty_N_char_numeric. reflexivity.
    + intros _. destruct d; discriminate.
    + intros s. rewrite pretty_N_go_step by done.
      rewrite Hgo, append_assoc. reflexivity.
  - assert (x = 0%N) as -> by lia.
    exists "". split; [reflexivity|]. split; [lia|].
    intros s. apply pretty_N_go_0.
Qed.

Lemma FormatInt10_numeric (z : Z) :
  numeric (FormatInt10 z) = true /\ FormatInt10 z <> "".
Proof.
  unfold FormatInt10, pretty, pretty_Z.
  assert (forall p : positive,
             numeric (pretty p) = true /\ pretty p <> "") as Hpos.
  { intros p. unfold pretty, pretty_positive, pretty, pretty_N.
    destruct (decide (N.pos p = 0%N)) as [|_]; [done|].
    destruct (pretty_N_go_digits (N.pos p)) as (d & Hd & Hne & Hgo).
    rewrite Hgo.
    assert (d +:+ "" = d) as ->.
    { clear. induction d; simpl; congruence. }
    split; [done|]. apply Hne. lia. }
  destruct z as [|p|p]; [done|apply Hpos|].
  destruct (Hpos p) as [Hn _]. simpl. rewrite Hn. done.
Qed.

(** Where a number ends is determined by the text. *)
Lemma numeric_prefix_unique (d1 d2 s1 s2 : string) :
  numeric d1 = true -> numeric d2 = true -> stops s1 -> stops s2 ->
  d1 +:+ s1 = d2 +:+ s2 -> d1 = d2 /\ s1 = s2.
Proof.
  revert d2. induction d1 as [|c d1 IH]; intros [|c' d2] H1 H2 St1 St2 Heq;
    simpl in *.
  - done.
  - subst s1. simpl in St1. apply andb_prop in H2 as [? _]. congruence.
  - subst s2. simpl in St2. apply andb_prop in H1 as [? _]. congruence.
  - injection Heq as -> Heq.
    apply andb_prop in H1 as [_ H1]. apply andb_prop in H2 as [_ H2].
    destruct (IH d2 H1 H2 St1 St2 Heq) as [-> ->]. done.
Qed.

Lemma join_ints_tail x rest :
  join_ints (x :: rest) = FormatInt10 x +:+ tail_ints rest.
Proof.
  revert x. induction rest as [|y rest IH]; intros x.
  - simpl. induction (FormatInt10 x); simpl; congruence.
  - change (join_ints (x :: y :: rest))
      with (FormatInt10 x +:+ " " +:+ join_ints (y :: rest)).
    rewrite IH. reflexivity.
Qed.

Lemma tail_ints_unique (l1 l2 : list Z) (t1 t2 : string) :
  tail_ints l1 +:+ "]" +:+ t1 = tail_ints l2 +:+ "]" +:+ t2 ->
  l1 = l2 /\ t1 = t2.
Proof.
  revert l2. induction l1 as [|x l1 IH]; intros [|y l2] Heq; simpl in Heq.
  - injection Heq as ->. done.
  - discriminate.
  - discriminate.
  - injection Heq as Heq. rewrite !append_assoc in Heq.
    apply numeric_prefix_unique in Heq as [Hxy Heq];
      try apply FormatInt10_numeric.
    + apply (inj pretty) in Hxy as ->.
      destruct (IH _ Heq) as [-> ->]. done.
    + destruct l1; simpl; reflexivity.
    + destruct l2; simpl; reflexivity.
Qed.

Lemma fmt_ints_unique (l1 l2 : list Z) (t1 t2 : string) :
  fmt_ints l1 +:+ t1 = fmt_ints l2 +:+ t2 -> l1 = l2 /\ t1 = t2.
Proof.
  unfold fmt_ints. simpl. intros [= Heq].
  rewrite !append_assoc in Heq.
  destruct l1 as [|x l1], l2 as [|y l2].
  - simpl in Heq. injection Heq as ->. done.
  - rewrite join_ints_tail in Heq. simpl in Heq.
    destruct (FormatInt10_numeric y) as [Hn Hne].
    destruct (FormatInt10 y) as [|c s]; [done|].
    simpl in Heq, Hn. injection Heq as <- _. discriminate.
  - rewrite join_ints_tail in Heq. simpl in Heq.
    destruct (FormatInt10_numeric x) as [Hn Hne].
    destruct (FormatInt10 x) as [|c s]; [done|].
    simpl in Heq, Hn. injection Heq as -> _. discriminate.
  - rewrite !join_ints_tail, !append_assoc in Heq.
    apply numeric_prefix_unique in Heq as [Hxy Heq];
      try apply FormatInt10_numeric.
    + apply (inj pretty) in Hxy as ->.
      destruct (tail_ints_unique _ _ _ _ Heq) as [-> ->]. done.
    + destruct l1; simpl; reflexivity.
    + destruct l2; simpl; reflexivity.
Qed.

End DecimalText.

(* ===================================================================== *)
(** * Status checking *)
(* ===================================================================== *)

Module StatusFacts.

Import Go Gop2b Spec Fixtures.

Lemma checkHTTPStatus_loop_found resp all rest :
  checkHTTPStatus_loop resp all rest = None <-> In (StatusCode resp) rest.
Proof.
  induction rest as [|e rest IH]; simpl.
  - split; [discriminate|tauto].
  - destruct (Z.eqb_spec (StatusCode resp) e) as [->|Hne].
    + split; auto.
    + rewrite IH. split; [auto|]. intros [Heq|Hin]; [congruence|done].
Qed.

Lemma checkHTTPStatus_loop_missing resp all rest :
  ~ In (StatusCode resp) rest ->
  checkHTTPStatus_loop resp all rest
  = Some (status_mismatch all (StatusCode resp)).
Proof.
  induction rest as [|e rest IH]; simpl; intros Hnot; [reflexivity|].
  destruct (Z.eqb_spec (StatusCode resp) e) as [Heq|Hne].
  - exfalso. apply Hnot. left. congruence.
  - apply IH. tauto.
Qed.

(** The text of a mismatch determines the expected codes and the code
    received. *)
Lemma status_mismatch_inj e1 a1 e2 a2 :
  status_mismatch e1 a1 = status_mismatch e2 a2 -> e1 = e2 /\ a1 = a2.
Proof.
  unfold status_mismatch. intros Heq.
  assert ("http response status != " +:+ fmt_ints e1 +:+ ", got "
          +:+ FormatInt10 a1
          = "http response status != " +:+ fmt_ints e2 +:+ ", got "
          +:+ FormatInt10 a2) as Htext by congruence.
  clear Heq. rename Htext into Heq.
  apply (inj (String.append _)) in Heq.
  apply DecimalText.fmt_ints_unique in Heq as [-> Heq].
  apply (inj (String.append _)) in Heq.
  apply (inj pretty) in Heq. done.
Qed.

(** C3. [checkHTTPStatus] returns nil exactly when the status code of the
    response is one of the expected codes; otherwise it returns the
    mismatch error, whose text determines the whole list of expected codes
    and the code received. With the single expected code 200 it returns
    nil exactly when the code is 200. *)
Theorem checkHTTPStatus_spec (resp : response) (expected : list Z) :
  (checkHTTPStatus resp expected = None <-> In (StatusCode resp) expected)
  /\ (checkHTTPStatus resp expected <> None ->
      checkHTTPStatus resp expected
      = Some (status_mismatch expected (StatusCode resp))
      /\ forall expected' actual',
           status_mismatch expected (StatusCode resp)
           = status_mismatch expected' actual' ->
           expected' = expected /\ actual' = StatusCode resp)
  /\ (checkHTTPStatus resp [200] = None <-> StatusCode resp = 200).
Proof.
  unfold checkHTTPStatus. split; [|split].
  - apply checkHTTPStatus_loop_found.
  - intros Hsome. split.
    + apply checkHTTPStatus_loop_missing.
      intros Hin. apply Hsome. by apply checkHTTPStatus_loop_found.
    + intros e' a' Heq. apply status_mismatch_inj in Heq as [-> ->]. done.
  - rewrite checkHTTPStatus_loop_found. simpl. intuition.
Qed.

(** The scenario of the specification: 400 against the expected 200. *)
Example checkHTTPStatus_400 :
  checkHTTPStatus
    {| Header := ∅; Body := None; StatusCode := 400; Status := "" |} [200]
  = Some (errorString "http response status != [200], got 400").
Proof. vm_compute. reflexivity. Qed.

End StatusFacts.

(* ===================================================================== *)
(** * Websocket requests *)
(* ===================================================================== *)

Module WsFacts.

Import Go Gop2b Spec Fixtures.

Lemma newWsRequest_no_params env method w :
  newWsRequest env method [] w
  = (Done {| Method := method; Params := Some [];
             Id := Unix (now env (ticks w)) |},
     tick w).
Proof. reflexivity. Qed.

(** The parameters are appended in order. *)
Lemma newWsRequest_params env method params w :
  newWsRequest env method params w
  = (Done {| Method := method; Params := Some params;
             Id := Unix (now env (ticks w)) |},
     tick w).
Proof.
  unfold newWsRequest.
  assert (forall acc id,
    fold_left
      (fun req p =>
         {| Method := Method req; Params := append_string (Params req) p;
            Id := Id req |})
      params {| Method := method; Params := Some acc; Id := id |}
    = {| Method := method; Params := Some (acc ++ params); Id := id |}) as H.
  { induction params as [|p params IH]; intros acc id; simpl.
    - by rewrite app_nil_r.
    - unfold append_string at 2. simpl. rewrite IH, <- app_assoc. done. }
  rewrite H. reflexivity.
Qed.

(** C8. [newUnsubscribeRequest s] returns the request whose method is [s]
    followed by [.unsubscribe], whose parameters are the empty (not nil)
    list and whose id is the Unix time in seconds read from the clock;
    [newPingRequest] returns the method [server.ping] with empty
    parameters. *)
Theorem newUnsubscribeRequest_spec (env : Env) (s : string) (w : World) :
  newUnsubscribeRequest env s w
  = (Done {| Method := s +:+ ".unsubscribe"; Params := Some [];
             Id := Unix (now env (ticks w)) |},
     tick w)
  /\ newPingRequest env w
     = (Done {| Method := "server.ping"; Params := Some [];
                Id := Unix (now env (ticks w)) |},
        tick w).
Proof. split; reflexivity. Qed.

Example newUnsubscribeRequest_trades :
  fst (newUnsubscribeRequest (Testbed.scripted (fun _ _ => inr ErrUseLastResponse))
         "trades" Testbed.empty_world)
  = Done {| Method := "trades.unsubscribe"; Params := Some [];
            Id := 1700000000 |}.
Proof. vm_compute. reflexivity. Qed.

End WsFacts.

(* ===================================================================== *)
(** * Running the monad *)
(* ===================================================================== *)

Module RunFacts.

Import Go Gop2b Spec Fixtures.

Lemma bind_Done {A B} (m : M A) (k : A -> M B) w a w' :
  m w = (Done a, w') -> bind m k w = k a w'.
Proof. unfold bind. intros ->. reflexivity. Qed.

Lemma with_maps_id w : with_maps (maps w) w = w.
Proof. destruct w; reflexivity. Qed.

Lemma deref_valid w l :
  (l < length (maps w))%nat ->
  maps w !! l = Some (deref w (Some l)).
Proof.
  intros Hl. unfold deref. destruct (lookup_lt_is_Some_2 (maps w) l Hl) as [m Hm].
  rewrite Hm. reflexivity.
Qed.

(** ** The loop of [mergeHeaders] *)

Lemma fill_missing_lookup entries :
  NoDup entries.*1 ->
  forall (mf : gmap string string) k,
    fill_missing mf entries !! k
    = merged_lookup mf (list_to_map entries) k.
Proof.
  unfold merged_lookup.
  induction entries as [|[k0 v0] entries IH]; intros Hnd mf k.
  - simpl. rewrite lookup_empty. by destruct (String.eqb _ _).
  - apply NoDup_cons in Hnd as [Hk0 Hnd]. simpl.
    rewrite (IH Hnd). clear IH.
    assert ((list_to_map entries : gmap string string) !! k0 = None) as Hnone.
    { by apply not_elem_of_list_to_map_1. }
    destruct (decide (k = k0)) as [->|Hne].
    + rewrite lookup_insert_eq, Hnone.
      destruct (String.eqb (default "" (mf !! k0)) "") eqn:Hcur.
      * rewrite lookup_insert_eq. simpl.
        by destruct (String.eqb v0 "").
      * by rewrite Hcur.
    + rewrite lookup_insert_ne by done.
      destruct (String.eqb (default "" (mf !! k0)) "");
        [rewrite lookup_insert_ne by done|]; reflexivity.
Qed.

Lemma fill_missing_perm (mf ms : gmap string string) entries k :
  entries ≡ₚ map_to_list ms ->
  fill_missing mf entries !! k = merged_lookup mf ms k.
Proof.
  intros Hperm.
  assert (NoDup entries.*1) as Hnd.
  { rewrite Hperm. apply NoDup_fst_map_to_list. }
  rewrite (fill_missing_lookup entries Hnd).
  rewrite (list_to_map_proper entries (map_to_list ms) Hnd Hperm).
  by rewrite list_to_map_to_list.
Qed.

Section Loop.

Context (env : Env).

Lemma merge_body_run (f : loc) kv w :
  (f < length (maps w))%nat ->
  merge_body (Some f) kv w
  = (Done tt,
     with_maps (<[f := fill_missing (deref w (Some f)) [kv]]> (maps w)) w).
Proof.
  intros Hf. pose proof (deref_valid w f Hf) as Hm.
  unfold merge_body, bind, map_index, fill_missing. cbn [fold_left].
  destruct (String.eqb (default "" (deref w (Some f) !! fst kv)) "").
  - reflexivity.
  - unfold ret. rewrite list_insert_id by done. by rewrite with_maps_id.
Qed.

Lemma for_each_merge (f : loc) entries :
  forall w, (f < length (maps w))%nat ->
    for_each entries (merge_body (Some f)) w
    = (Done tt,
       with_maps (<[f := fill_missing (deref w (Some f)) entries]> (maps w)) w).
Proof.
  induction entries as [|kv entries IH]; intros w Hf.
  - cbn. unfold ret. rewrite list_insert_id by (by apply deref_valid).
    by rewrite with_maps_id.
  - cbn [for_each].
    rewrite (bind_Done _ _ _ _ _ (merge_body_run f kv w Hf)).
    rewrite IH by (cbn; by rewrite length_insert).
    unfold with_maps, deref. cbn [maps ticks iters wire stdout].
    rewrite list_insert_insert_eq.
    rewrite list_lookup_insert_eq by done.
    reflexivity.
Qed.

Lemma mergeHeaders_both (f s : loc) w :
  (f < length (maps w))%nat ->
  mergeHeaders env (Some f) (Some s) w
  = (Done (Some f),
     with_iters (S (iters w))
       (with_maps
          (<[f := fill_missing (deref w (Some f))
                    (range_order env (iters w) (deref w (Some s)))]> (maps w))
          w)).
Proof.
  intros Hf. unfold mergeHeaders.
  unfold bind at 1, range.
  change (fun kv : string * string =>
            let* cur := map_index (Some f) (fst kv) in
            if String.eqb cur "" then map_assign (Some f) (fst kv) (snd kv)
            else ret tt) with (merge_body (Some f)).
  unfold bind at 1. rewrite for_each_merge by done.
  reflexivity.
Qed.

End Loop.

End RunFacts.

(* ===================================================================== *)
(** * The transport *)
(* ===================================================================== *)

Module TransportFacts.

Import Go Gop2b Spec Fixtures RunFacts.

Section Transport.

Context (env : Env).

(** ** The redirect loop touches the wire only *)

Lemma do_loop_frame n : forall c reqs req last w,
  exists more,
    snd (do_loop env n c reqs req last w) = with_wire (wire w ++ more) w.
Proof.
  assert (forall w, with_wire (wire w ++ []) w = w) as Hid.
  { intros [? ? ? ? ?]. unfold with_wire. cbn. by rewrite app_nil_r. }
  induction n as [|n IH]; intros c reqs req last w.
  - exists []. cbn. by rewrite Hid.
  - cbn [do_loop].
    assert (forall rq, exists more,
      snd ((let* r := send env rq in
            match r with
            | inl resp =>
                let '(redirectMethod, shouldRedirect, includeBody) :=
                  redirectBehavior (Go.Method rq) resp (hd rq (reqs ++ [rq])) in
                if negb shouldRedirect then ret (Some resp, None)
                else do_loop env n c (reqs ++ [rq]) rq
                       (Some (resp, redirectMethod, includeBody))
            | inr err => ret (None, Some (url_Error env (reqs ++ [rq]) err))
            end) w)
      = with_wire (wire w ++ more) w) as Hsend.
    { intros rq. unfold bind, send.
      destruct (round_trip env (wire w) rq) as [resp|err].
      - destruct (redirectBehavior _ _ _) as [[m should] incl].
        destruct should; cbn [negb].
        + match goal with |- context [do_loop env n c ?a ?b ?l ?w1] =>
            destruct (IH c a b l w1) as [more Hmore];
            destruct (do_loop env n c a b l w1) as [[x|msg|] w2] eqn:E
          end; cbn [snd] in *; subst w2;
            exists (rq :: more); unfold with_wire; cbn;
            by rewrite <- app_assoc.
        + exists [rq]. reflexivity.
      - exists [rq]. reflexivity. }
    destruct last as [[[resp m] incl]|]; [|apply Hsend].
    destruct (String.eqb _ _); [exists []; cbn; by rewrite Hid|].
    destruct (url_parse env _); [exists []; cbn; by rewrite Hid|].
    destruct (checkRedirect c _ _) as [err|]; [|apply Hsend].
    destruct (is_ErrUseLastResponse err); exists []; cbn; by rewrite Hid.
Qed.

(** With any fuel at all, the request given to [Do] is the first one put
    on the wire. *)
Lemma Client_Do_wire c req w :
  (1 <= fuel env)%nat ->
  exists more,
    snd (Client_Do env c req w) = with_wire (wire w ++ req :: more) w.
Proof.
  unfold Client_Do. destruct (fuel env) as [|n]; [lia|]. intros _.
  cbn [do_loop]. unfold bind, send.
  destruct (round_trip env (wire w) req) as [resp|err].
  - destruct (redirectBehavior _ _ _) as [[m should] incl].
    destruct should; cbn [negb].
    + match goal with |- context [do_loop env n c ?a ?b ?l ?w1] =>
        destruct (do_loop_frame n c a b l w1) as [more Hmore]
      end.
      rewrite Hmore. exists more. unfold with_wire. cbn.
      by rewrite <- app_assoc.
    + exists []. reflexivity.
  - exists []. reflexivity.
Qed.

(** ** A client that never follows *)

Lemma Client_Do_useLastResponse c req w :
  CheckRedirect c = Some useLastResponse ->
  (2 <= fuel env)%nat ->
  Client_Do env c req w
  = (Done (first_answer env req (round_trip env (wire w) req)),
     with_wire (wire w ++ [req]) w).
Proof.
  intros Hpolicy Hfuel. unfold Client_Do, first_answer.
  destruct (fuel env) as [|[|n]]; [lia|lia|].
  cbn [do_loop app hd]. unfold bind at 1, send.
  destruct (round_trip env (wire w) req) as [resp|err]; [|reflexivity].
  destruct (redirectBehavior _ _ _) as [[m should] incl]. cbn [fst snd].
  destruct should; cbn [negb andb]; [|reflexivity].
  destruct (String.eqb _ _); cbn [negb]; [reflexivity|].
  destruct (url_parse env _); [reflexivity|].
  unfold checkRedirect. rewrite Hpolicy. reflexivity.
Qed.

(** ** What [sendRequest] hands to [Do] *)

Lemma range_order_empty n : range_order env n ∅ = [].
Proof.
  apply Permutation_nil_r. rewrite range_order_perm.
  by rewrite map_to_list_empty.
Qed.

Lemma insert_last {A} (ms : list A) (m x : A) :
  <[length ms := x]> (ms ++ [m]) = ms ++ [x].
Proof.
  rewrite <- (Nat.add_0_r (length ms)). by rewrite insert_app_r.
Qed.

Lemma lookup_last {A} (ms : list A) (m : A) :
  (ms ++ [m]) !! length ms = Some m.
Proof. by rewrite list_lookup_middle. Qed.

Lemma deref_last ms m t i wr so :
  deref (mkWorld (ms ++ [m]) t i wr so) (Some (length ms)) = m.
Proof. unfold deref. cbn [maps]. by rewrite lookup_last. Qed.

Lemma deref_app_l ms ms' t i wr so f :
  (f < length ms)%nat ->
  deref (mkWorld (ms ++ ms') t i wr so) (Some f) = default ∅ (ms !! f).
Proof. intros Hf. unfold deref. cbn [maps]. by rewrite lookup_app_l. Qed.

Lemma sendRequest_run c request r w :
  valid_ref w r ->
  sendRequest env c request r w
  = bind (Client_Do env (c_http c) (prepared env c request r w)) finish
         (before_Do env c r w).
Proof.
  intros Hvalid. unfold sendRequest.
  change (fun r0 : option Go.Response * option error =>
            match r0 with
            | (_, Some err) =>
                let* _ := Println ("erro: " +:+ Go.Error err) in
                ret (None, Some err)
            | (Some resp, None) =>
                ret (Some {| StatusCode := Go.StatusCode resp;
                             Status := Go.Status resp;
                             Header := Go.RespHeader resp;
                             Body := Some (Go.Body resp) |},
                     None)
            | (None, None) =>
                panic "invalid memory address or nil pointer dereference"
            end) with finish.
  unfold bind at 1, range. unfold bind at 1, make_map.
  unfold bind at 1, map_assign at 1, set_maps.
  cbn [maps ticks iters wire stdout].
  rewrite deref_last, insert_last.
  assert (forall w1 : World,
            maps w1 = maps w ++ [<["Content-type" := "application/json"]> ∅] ->
            match c_auth c with
            | Some a =>
                map_assign (Some (length (maps w))) HeaderXTxcAPIKey (APIKey a)
            | None => ret ()
            end w1
            = (Done tt, with_maps (maps w ++ [computed c]) w1)) as Hauth.
  { intros w1 Hw1. unfold computed. destruct (c_auth c) as [a|].
    - unfold map_assign, set_maps, deref.
      rewrite Hw1, lookup_last, insert_last. reflexivity.
    - unfold ret. rewrite <- Hw1. by rewrite with_maps_id. }
  match goal with
  | |- bind _ _ ?w1 = _ => rewrite (bind_Done _ _ w1 _ _ (Hauth w1 eq_refl))
  end.
  clear Hauth.
  unfold with_maps at 1. cbn [maps ticks iters wire stdout].
  destruct r as [f|].
  - cbn in Hvalid.
    match goal with
    | |- bind _ _ ?w1 = _ =>
        assert (f < length (maps w1))%nat as Hf1
          by (cbn; rewrite length_app; lia);
        rewrite (bind_Done _ _ w1 _ _
                   (mergeHeaders_both env f (length (maps w)) w1 Hf1));
        clear Hf1
    end.
    rewrite deref_last, deref_app_l by done.
    unfold with_iters, with_maps. cbn [maps ticks iters wire stdout].
    unfold bind at 1. cbn [maps ticks iters wire stdout].
    rewrite insert_app_l by done.
    rewrite deref_app_l by (by rewrite length_insert).
    rewrite list_lookup_insert_eq by done.
    reflexivity.
  - cbn [mergeHeaders]. unfold ret at 1. unfold bind at 1 2.
    rewrite deref_last.
    unfold prepared, first_entries, second_entries, merged, before_Do.
    cbn [deref]. rewrite range_order_empty.
    reflexivity.
Qed.

Lemma finish_frame x w :
  maps (snd (finish x w)) = maps w /\ wire (snd (finish x w)) = wire w
  /\ ticks (snd (finish x w)) = ticks w.
Proof. destruct x as [[resp|] [err|]]; cbn; done. Qed.

(** After [sendRequest]: the maps are those it prepared, and the wire has
    grown; with any fuel the prepared env request was sent first. *)
Lemma sendRequest_effect c request r w :
  valid_ref w r ->
  maps (snd (sendRequest env c request r w)) = maps (before_Do env c r w)
  /\ ticks (snd (sendRequest env c request r w)) = ticks w
  /\ ((1 <= fuel env)%nat ->
      exists more,
        wire (snd (sendRequest env c request r w))
        = wire w ++ prepared env c request r w :: more).
Proof.
  intros Hvalid. rewrite sendRequest_run by done. unfold bind.
  assert (wire (before_Do env c r w) = wire w
          /\ ticks (before_Do env c r w) = ticks w) as [Hw Ht].
  { by destruct r. }
  destruct (do_loop_frame (fuel env) (c_http c) [] (prepared env c request r w)
              None (before_Do env c r w)) as [more0 Hframe].
  fold (Client_Do env (c_http c) (prepared env c request r w)) in Hframe.
  assert ((1 <= fuel env)%nat -> exists more,
            snd (Client_Do env (c_http c) (prepared env c request r w)
                   (before_Do env c r w))
            = with_wire (wire w ++ prepared env c request r w :: more)
                (before_Do env c r w)) as Hfirst.
  { intros Hfuel. rewrite <- Hw. by apply Client_Do_wire. }
  destruct (Client_Do env (c_http c) (prepared env c request r w) (before_Do env c r w))
    as [[x|msg|] w1]; cbn [snd] in *; subst w1.
  - destruct (finish_frame x (with_wire (wire (before_Do env c r w) ++ more0)
                                (before_Do env c r w))) as (Hm & Hwire & Hticks).
    rewrite Hm, Hwire, Hticks.
    split; [reflexivity|]. split; [by cbn|].
    intros Hfuel. destruct (Hfirst Hfuel) as [more Hmore].
    exists more. by rewrite Hmore.
  - split; [reflexivity|]. split; [by cbn|].
    intros Hfuel. destruct (Hfirst Hfuel) as [more Hmore].
    exists more. by rewrite Hmore.
  - split; [reflexivity|]. split; [by cbn|].
    intros Hfuel. destruct (Hfirst Hfuel) as [more Hmore].
    exists more. by rewrite Hmore.
Qed.

End Transport.
End TransportFacts.

(* ===================================================================== *)
(** * Header values *)
(* ===================================================================== *)

Module HeaderFacts.

Import Go Gop2b Spec Fixtures RunFacts TransportFacts.

Lemma Header_Values_stored h key :
  Header_Values h key = stored h (CanonicalMIMEHeaderKey key).
Proof. reflexivity. Qed.

Lemma stored_Header_Add h k v K :
  stored (Header_Add h k v) K
  = stored h K ++ (if decide (CanonicalMIMEHeaderKey k = K) then [v] else []).
Proof.
  unfold stored, Header_Add.
  destruct (decide (CanonicalMIMEHeaderKey k = K)) as [<-|Hne].
  - by rewrite lookup_insert_eq.
  - rewrite lookup_insert_ne by done. by rewrite app_nil_r.
Qed.

Lemma stored_fold entries : forall h K,
  stored (fold_left (fun h kv => Header_Add h (fst kv) (snd kv)) entries h) K
  = stored h K ++ values_for K entries.
Proof.
  unfold values_for.
  induction entries as [|[k v] entries IH]; intros h K; cbn [fold_left].
  - by rewrite app_nil_r.
  - rewrite IH, stored_Header_Add, filter_cons. cbn [fst snd].
    destruct (decide (CanonicalMIMEHeaderKey k = K)).
    + by rewrite <- app_assoc.
    + by rewrite app_nil_r.
Qed.

Lemma add_all_fields request entries :
  Go.Method (add_all request entries) = Go.Method request
  /\ URL (add_all request entries) = URL request
  /\ ReqBody (add_all request entries) = ReqBody request
  /\ ReqHeader (add_all request entries)
     = fold_left (fun h kv => Header_Add h (fst kv) (snd kv)) entries
         (ReqHeader request).
Proof.
  revert request. unfold add_all.
  induction entries as [|kv entries IH]; intros request; cbn [fold_left].
  - done.
  - destruct (IH {| Go.Method := Go.Method request; URL := URL request;
                    ReqHeader := Header_Add (ReqHeader request) (fst kv) (snd kv);
                    ReqBody := ReqBody request |}) as (-> & -> & -> & ->).
    done.
Qed.

Lemma stored_add_all request entries K :
  stored (ReqHeader (add_all request entries)) K
  = stored (ReqHeader request) K ++ values_for K entries.
Proof.
  destruct (add_all_fields request entries) as (_ & _ & _ & ->).
  apply stored_fold.
Qed.

Lemma elem_of_values_for K entries v :
  v ∈ values_for K entries
  <-> exists k, CanonicalMIMEHeaderKey k = K /\ (k, v) ∈ entries.
Proof.
  unfold values_for. rewrite list_elem_of_fmap. split.
  - intros ([k v'] & -> & Hin). apply list_elem_of_filter in Hin as [Hk Hin].
    exists k. done.
  - intros (k & Hk & Hin). exists (k, v). split; [done|].
    apply list_elem_of_filter. done.
Qed.


Lemma copies_app v l1 l2 : copies v (l1 ++ l2) = (copies v l1 + copies v l2)%nat.
Proof. unfold copies. by rewrite filter_app, length_app. Qed.

Lemma copies_elem_of v l : v ∈ l -> (1 <= copies v l)%nat.
Proof.
  unfold copies. intros Hin.
  assert (v ∈ filter (fun x => x = v) l) as Hf
    by (by apply list_elem_of_filter).
  destruct (filter (fun x => x = v) l); [by apply not_elem_of_nil in Hf|].
  cbn. lia.
Qed.

Section Prepared.

Context (env : Env).

Lemma first_entries_perm r w :
  first_entries env r w ≡ₚ map_to_list (deref w r).
Proof. apply range_order_perm. Qed.

Lemma second_entries_perm c r w :
  second_entries env c r w ≡ₚ map_to_list (merged env c r w).
Proof. destruct r; apply range_order_perm. Qed.

(** The merged map, key by key. *)
Lemma merged_spec c r w k :
  merged env c r w !! k = merged_lookup (deref w r) (computed c) k.
Proof.
  destruct r as [f|].
  - unfold merged. apply fill_missing_perm, range_order_perm.
  - unfold merged, merged_lookup. cbn [deref]. rewrite lookup_empty.
    cbn. by destruct (computed c !! k).
Qed.

Lemma elem_of_first_entries r w k v :
  (k, v) ∈ first_entries env r w <-> deref w r !! k = Some v.
Proof. rewrite first_entries_perm. apply elem_of_map_to_list. Qed.

Lemma elem_of_second_entries c r w k v :
  (k, v) ∈ second_entries env c r w
  <-> merged_lookup (deref w r) (computed c) k = Some v.
Proof.
  rewrite second_entries_perm, elem_of_map_to_list. by rewrite merged_spec.
Qed.

(** The header of the request [sendRequest] hands to [Do]. *)
Lemma stored_prepared c request r w K :
  stored (ReqHeader (prepared env c request r w)) K
  = stored (ReqHeader request) K
    ++ values_for K (first_entries env r w)
    ++ values_for K (second_entries env c r w).
Proof.
  unfold prepared. rewrite !stored_add_all. by rewrite <- app_assoc.
Qed.

Lemma prepared_fields c request r w :
  Go.Method (prepared env c request r w) = Go.Method request
  /\ URL (prepared env c request r w) = URL request
  /\ ReqBody (prepared env c request r w) = ReqBody request.
Proof.
  unfold prepared.
  destruct (add_all_fields (add_all request (first_entries env r w))
              (second_entries env c r w)) as (-> & -> & -> & _).
  destruct (add_all_fields request (first_entries env r w))
    as (-> & -> & -> & _).
  done.
Qed.

End Prepared.

(** The keys the transport computes. *)
Lemma computed_lookup c k v :
  computed c !! k = Some v ->
  (k = "Content-type" /\ v = "application/json")
  \/ (exists a, c_auth c = Some a /\ k = HeaderXTxcAPIKey /\ v = APIKey a).
Proof.
  unfold computed. destruct (c_auth c) as [a|].
  - destruct (decide (k = HeaderXTxcAPIKey)) as [->|Hne].
    + rewrite lookup_insert_eq. intros [= <-]. right. by exists a.
    + rewrite lookup_insert_ne by done.
      destruct (decide (k = "Content-type")) as [->|Hne'].
      * rewrite lookup_insert_eq. intros [= <-]. by left.
      * rewrite lookup_insert_ne by done. by rewrite lookup_empty.
  - destruct (decide (k = "Content-type")) as [->|Hne'].
    + rewrite lookup_insert_eq. intros [= <-]. by left.
    + rewrite lookup_insert_ne by done. by rewrite lookup_empty.
Qed.

Lemma computed_Content_type c :
  computed c !! "Content-type" = Some "application/json".
Proof. unfold computed. by destruct (c_auth c). Qed.

Lemma computed_APIKey c a :
  c_auth c = Some a -> computed c !! HeaderXTxcAPIKey = Some (APIKey a).
Proof. unfold computed. intros ->. by rewrite lookup_insert_eq. Qed.

Lemma merged_lookup_Some mf ms k v :
  merged_lookup mf ms k = Some v -> mf !! k = Some v \/ ms !! k = Some v.
Proof.
  unfold merged_lookup. destruct (String.eqb _ _); [|by left].
  destruct (ms !! k); [by right|by left].
Qed.

(** A value of the first map that is not the empty string is kept. *)
Lemma merged_lookup_kept mf ms k v :
  mf !! k = Some v -> v <> "" -> merged_lookup mf ms k = Some v.
Proof.
  unfold merged_lookup. intros -> Hv. cbn.
  destruct (String.eqb_spec v ""); done.
Qed.

(** So is any value under a key the second map does not have. *)
Lemma merged_lookup_absent mf ms k :
  ms !! k = None -> merged_lookup mf ms k = mf !! k.
Proof.
  unfold merged_lookup. intros ->. by destruct (String.eqb _ _).
Qed.

(** A missing or empty value is replaced by that of the second map. *)
Lemma merged_lookup_filled mf ms k v :
  default "" (mf !! k) = "" -> ms !! k = Some v ->
  merged_lookup mf ms k = Some v.
Proof. unfold merged_lookup. by intros -> ->. Qed.

End HeaderFacts.

(* ===================================================================== *)
(** * Signing *)
(* ===================================================================== *)

Module PostFacts.

Import Go Gop2b Spec Fixtures RunFacts TransportFacts HeaderFacts.

Section Post.

Context (env : Env).

Lemma deref_insert ms m t i wr so f :
  (f < length ms)%nat ->
  deref (mkWorld (<[f := m]> ms) t i wr so) (Some f) = m.
Proof.
  intros Hf. unfold deref. cbn [maps]. by rewrite list_lookup_insert_eq.
Qed.

Lemma sendPost_run c url r body bodyBytes w :
  valid_ref w r ->
  io_ReadAll body = (bodyBytes, None) ->
  url_parse env url = None ->
  sendPost env c url r body w
  = sendRequest env c (POST_request url bodyBytes) (post_ref r w)
      (post_world c bodyBytes r w).
Proof.
  intros Hvalid Hread Hurl. unfold sendPost, NewRequest.
  rewrite Hread, Hurl. fold (POST_request url bodyBytes).
  destruct r as [f|].
  - cbn in Hvalid. unfold bind at 1, ret at 1.
    unfold bind at 1, map_assign at 1, set_maps.
    unfold post_world, post_ref, with_maps, signed.
    destruct (c_auth c) as [a|].
    + unfold bind at 1 2, map_index, map_assign, set_maps.
      cbn [maps ticks iters wire stdout].
      rewrite !deref_insert by done.
      rewrite lookup_insert_eq. cbn [default from_option].
      rewrite list_insert_insert_eq. reflexivity.
    + unfold bind at 1, ret at 1. reflexivity.
  - unfold bind at 1, make_map, set_maps.
    unfold bind at 1, map_assign at 1, set_maps.
    cbn [maps ticks iters wire stdout].
    rewrite deref_last, insert_last.
    unfold post_world, post_ref, with_maps, signed.
    destruct (c_auth c) as [a|].
    + unfold bind at 1 2, map_index, map_assign, set_maps.
      cbn [maps ticks iters wire stdout].
      rewrite !deref_last, insert_last.
      rewrite lookup_insert_eq. reflexivity.
    + unfold bind at 1, ret at 1. reflexivity.
Qed.

Lemma post_ref_valid c body r w :
  valid_ref w r -> valid_ref (post_world c body r w) (post_ref r w).
Proof.
  destruct r as [f|]; cbn; intros Hvalid.
  - by rewrite length_insert.
  - rewrite length_app. cbn. lia.
Qed.

Lemma deref_post_world c body r w :
  valid_ref w r ->
  deref (post_world c body r w) (post_ref r w) = signed c body (deref w r).
Proof.
  destruct r as [f|]; intros Hvalid.
  - unfold deref at 1, post_world, post_ref, with_maps. cbn [maps].
    by rewrite list_lookup_insert_eq.
  - unfold post_world, post_ref, with_maps. by rewrite deref_last.
Qed.

Lemma sendGet_run c url r w :
  url_parse env url = None ->
  sendGet env c url r w = sendRequest env c (GET_request url) r w.
Proof. intros Hurl. unfold sendGet, NewRequest. by rewrite Hurl. Qed.

End Post.

Lemma signed_Payload c body m :
  signed c body m !! HeaderXTxcPayload = Some (payload_of body).
Proof.
  unfold signed. destruct (c_auth c).
  - rewrite lookup_insert_ne by done. by rewrite lookup_insert_eq.
  - by rewrite lookup_insert_eq.
Qed.

Lemma signed_Signature c a body m :
  c_auth c = Some a ->
  signed c body m !! HeaderXTxcSignature = Some (signature_of a body).
Proof. unfold signed. intros ->. by rewrite lookup_insert_eq. Qed.

Lemma signed_other c body m k :
  k <> HeaderXTxcPayload -> k <> HeaderXTxcSignature ->
  signed c body m !! k = m !! k.
Proof.
  unfold signed. intros Hp Hs. destruct (c_auth c).
  - by rewrite !lookup_insert_ne.
  - by rewrite lookup_insert_ne.
Qed.

End PostFacts.

(* ===================================================================== *)
(** * Merging headers *)
(* ===================================================================== *)

Module MergeClaims.

Import Go Gop2b Spec Fixtures RunFacts TransportFacts HeaderFacts PostFacts.

(** The merged map, key by key. *)
Lemma mergeHeaders_lookup env (f s : loc) w k :
  (f < length (maps w))%nat ->
  fst (mergeHeaders env (Some f) (Some s) w) = Done (Some f)
  /\ deref (snd (mergeHeaders env (Some f) (Some s) w)) (Some f) !! k
     = merged_lookup (deref w (Some f)) (deref w (Some s)) k.
Proof.
  intros Hf. rewrite mergeHeaders_both by done. split; [reflexivity|].
  cbn [snd]. unfold with_iters, with_maps. cbn [maps ticks iters wire stdout].
  rewrite deref_insert by done.
  apply fill_missing_perm, range_order_perm.
Qed.

(** The caller's map after [sendRequest] is the merged map. *)
Lemma sendRequest_caller_map env c request (f : loc) w k :
  (f < length (maps w))%nat ->
  deref (snd (sendRequest env c request (Some f) w)) (Some f) !! k
  = merged_lookup (deref w (Some f)) (computed c) k.
Proof.
  intros Hf.
  destruct (sendRequest_effect env c request (Some f) w Hf) as (Hmaps & _).
  unfold deref at 1. rewrite Hmaps. cbn [before_Do with_iters with_maps maps].
  rewrite lookup_app_l by (by rewrite length_insert).
  rewrite list_lookup_insert_eq by done. cbn [default from_option].
  apply (merged_spec env c (Some f) w k).
Qed.

(** C6, as stated, fails: a caller who defines [Content-type] with the
    empty string as its value, against the computed [application/json],
    finds the computed value in the merged map. *)
Lemma mergeHeaders_empty_value_replaced :
  deref content_type_maps (Some 0%nat) !! "Content-type" = Some ""
  /\ deref content_type_maps (Some 1%nat) !! "Content-type"
     = Some "application/json"
  /\ deref (snd (mergeHeaders quiet_env (Some 0%nat) (Some 1%nat)
                   content_type_maps)) (Some 0%nat) !! "Content-type"
     = Some "application/json".
Proof. vm_compute. auto. Qed.

(** C6, amended. When both maps are present, [mergeHeaders] returns the
    first (the caller's) map, in which every value of the caller that is
    not the empty string has been kept, whatever the second map holds
    for that key; a key the caller left out or gave the empty string has
    received the value of the second map. In [sendRequest], where the
    second map holds the computed [Content-type] and API key, the
    caller's map is that merged map once the request has been sent. *)
Theorem mergeHeaders_caller_precedence (env : Env) (f s : loc) (w : World) :
  (f < length (maps w))%nat ->
  fst (mergeHeaders env (Some f) (Some s) w) = Done (Some f)
  /\ (forall k v,
        deref w (Some f) !! k = Some v -> v <> "" ->
        deref (snd (mergeHeaders env (Some f) (Some s) w)) (Some f) !! k
        = Some v)
  /\ (forall k v,
        default "" (deref w (Some f) !! k) = "" ->
        deref w (Some s) !! k = Some v ->
        deref (snd (mergeHeaders env (Some f) (Some s) w)) (Some f) !! k
        = Some v)
  /\ (forall c request k v,
        deref w (Some f) !! k = Some v -> v <> "" ->
        deref (snd (sendRequest env c request (Some f) w)) (Some f) !! k
        = Some v).
Proof.
  intros Hf. split; [|split; [|split]].
  - apply (mergeHeaders_lookup env f s w "" Hf).
  - intros k v Hk Hv.
    destruct (mergeHeaders_lookup env f s w k Hf) as [_ ->].
    by apply merged_lookup_kept.
  - intros k v Hk Hs.
    destruct (mergeHeaders_lookup env f s w k Hf) as [_ ->].
    by apply merged_lookup_filled.
  - intros c request k v Hk Hv.
    rewrite sendRequest_caller_map by done.
    by apply merged_lookup_kept.
Qed.

Lemma mergeHeaders_caller_precedence_witness :
  (0 < length (maps text_plain_maps))%nat
  /\ deref (snd (mergeHeaders quiet_env (Some 0%nat) (Some 1%nat)
                   text_plain_maps)) (Some 0%nat) !! "Content-type"
     = Some "text/plain".
Proof.
  split; [cbn; lia|].
  destruct (mergeHeaders_caller_precedence quiet_env 0 1 text_plain_maps)
    as (_ & Hkept & _); [cbn; lia|].
  apply Hkept; [vm_compute; reflexivity|discriminate].
Defined.

(** With a nil map on either side the other is returned as it is. *)
Lemma mergeHeaders_nil env r w :
  mergeHeaders env r None w = (Done r, w)
  /\ mergeHeaders env None r w = (Done r, w).
Proof. by destruct r. Qed.

End MergeClaims.

(* ===================================================================== *)
(** * The request on the wire *)
(* ===================================================================== *)

Module WireFacts.

Import Go Gop2b Spec Fixtures RunFacts TransportFacts HeaderFacts PostFacts.

Section Wire.

Context (env : Env).

(** Where a value of the outgoing header comes from. *)
Lemma prepared_values c request r w K v :
  v ∈ stored (ReqHeader (prepared env c request r w)) K ->
  v ∈ stored (ReqHeader request) K
  \/ (exists k, CanonicalMIMEHeaderKey k = K /\ deref w r !! k = Some v)
  \/ (exists k, CanonicalMIMEHeaderKey k = K /\ computed c !! k = Some v).
Proof.
  rewrite stored_prepared, !elem_of_app, !elem_of_values_for.
  intros [Hin|[(k & Hk & Hin)|(k & Hk & Hin)]].
  - by left.
  - right. left. exists k. split; [done|].
    by apply (elem_of_first_entries env r w k v).
  - apply (elem_of_second_entries env c r w k v) in Hin.
    apply merged_lookup_Some in Hin as [Hin|Hin].
    + right. left. by exists k.
    + right. right. by exists k.
Qed.

(** An entry the merge leaves alone is added by both loops. *)
Lemma prepared_twice c request r w k v :
  deref w r !! k = Some v ->
  v <> "" \/ computed c !! k = None ->
  (k, v) ∈ first_entries env r w
  /\ (k, v) ∈ second_entries env c r w
  /\ (2 <= copies v (Header_Values (ReqHeader (prepared env c request r w)) k))%nat.
Proof.
  intros Hk Hkeep.
  assert ((k, v) ∈ first_entries env r w) as H1
    by (by apply (elem_of_first_entries env r w k v)).
  assert ((k, v) ∈ second_entries env c r w) as H2.
  { apply (elem_of_second_entries env c r w k v).
    destruct Hkeep as [Hv|Hnone].
    - by apply merged_lookup_kept.
    - by rewrite merged_lookup_absent. }
  split; [done|]. split; [done|].
  rewrite Header_Values_stored, stored_prepared, !copies_app.
  assert (1 <= copies v (values_for (CanonicalMIMEHeaderKey k)
                           (first_entries env r w)))%nat.
  { apply copies_elem_of, elem_of_values_for. by exists k. }
  assert (1 <= copies v (values_for (CanonicalMIMEHeaderKey k)
                           (second_entries env c r w)))%nat.
  { apply copies_elem_of, elem_of_values_for. by exists k. }
  lia.
Qed.

(** A computed header is sent unless the caller gave the key a value that
    is not empty. *)
Lemma prepared_computed c request r w k v :
  computed c !! k = Some v ->
  default "" (deref w r !! k) = "" ->
  v ∈ Header_Values (ReqHeader (prepared env c request r w)) k.
Proof.
  intros Hc Hempty.
  rewrite Header_Values_stored, stored_prepared, !elem_of_app.
  right. right. apply elem_of_values_for. exists k. split; [done|].
  apply (elem_of_second_entries env c r w k v).
  by apply merged_lookup_filled.
Qed.

End Wire.

Lemma canonical_Content_type :
  CanonicalMIMEHeaderKey "Content-type" = "Content-Type".
Proof. reflexivity. Qed.

Lemma canonical_APIKey :
  CanonicalMIMEHeaderKey HeaderXTxcAPIKey = "X-Txc-Apikey".
Proof. reflexivity. Qed.

Lemma canonical_Payload :
  CanonicalMIMEHeaderKey HeaderXTxcPayload = "X-Txc-Payload".
Proof. reflexivity. Qed.

Lemma canonical_Signature :
  CanonicalMIMEHeaderKey HeaderXTxcSignature = "X-Txc-Signature".
Proof. reflexivity. Qed.

Lemma stored_empty K : stored ∅ K = [].
Proof. unfold stored. by rewrite lookup_empty. Qed.


End WireFacts.

(* ===================================================================== *)
(** * GET requests *)
(* ===================================================================== *)

Module GetClaims.

Import Go Gop2b Spec Fixtures RunFacts TransportFacts HeaderFacts PostFacts WireFacts.

Lemma keyed_client_built : NewClient "K" "S" = (Some keyed_client, None).
Proof. reflexivity. Qed.




End GetClaims.

(* ===================================================================== *)
(** * POST requests *)
(* ===================================================================== *)

Module PostClaims.

Import Go Gop2b Spec Fixtures RunFacts TransportFacts HeaderFacts PostFacts WireFacts.

Section Signed.

Context (env : Env).

(** The map [sendPost] passes on, once the call is over. *)
Lemma sendPost_map c url r body bodyBytes w k :
  valid_ref w r ->
  io_ReadAll body = (bodyBytes, None) ->
  url_parse env url = None ->
  deref (snd (sendPost env c url r body w)) (post_ref r w) !! k
  = merged_lookup (signed c bodyBytes (deref w r)) (computed c) k.
Proof.
  intros Hvalid Hread Hurl.
  rewrite (sendPost_run env c url r body bodyBytes w) by done.
  pose proof (post_ref_valid c bodyBytes r w Hvalid) as Hv.
  pose proof (deref_post_world c bodyBytes r w Hvalid) as Hd.
  destruct (post_ref r w) as [f|] eqn:Href; [|by destruct r].
  rewrite MergeClaims.sendRequest_caller_map by done.
  by rewrite Hd.
Qed.

(** The request [sendPost] puts on the wire. *)
Lemma sendPost_wire c url r body bodyBytes w :
  valid_ref w r ->
  io_ReadAll body = (bodyBytes, None) ->
  url_parse env url = None ->
  (1 <= fuel env)%nat ->
  exists more,
    wire (snd (sendPost env c url r body w))
    = wire w
      ++ prepared env c (POST_request url bodyBytes) (post_ref r w)
           (post_world c bodyBytes r w) :: more.
Proof.
  intros Hvalid Hread Hurl Hfuel.
  rewrite (sendPost_run env c url r body bodyBytes w) by done.
  destruct (sendRequest_effect env c (POST_request url bodyBytes)
              (post_ref r w) (post_world c bodyBytes r w)
              (post_ref_valid c bodyBytes r w Hvalid)) as (_ & _ & Hwire).
  destruct (Hwire Hfuel) as [more ->]. exists more.
  by destruct r.
Qed.

(** The payload and the signature go out twice each. *)
Lemma sendPost_payload_twice c url r bodyBytes w :
  valid_ref w r ->
  (2 <= copies (payload_of bodyBytes)
          (Header_Values
             (ReqHeader (prepared env c (POST_request url bodyBytes)
                           (post_ref r w) (post_world c bodyBytes r w)))
             HeaderXTxcPayload))%nat.
Proof.
  intros Hvalid.
  apply (prepared_twice env c (POST_request url bodyBytes) (post_ref r w)
           (post_world c bodyBytes r w) HeaderXTxcPayload).
  - rewrite deref_post_world by done. apply signed_Payload.
  - right. unfold computed. destruct (c_auth c); reflexivity.
Qed.

Lemma sendPost_signature_twice c a url r bodyBytes w :
  c_auth c = Some a ->
  valid_ref w r ->
  (2 <= copies (signature_of a bodyBytes)
          (Header_Values
             (ReqHeader (prepared env c (POST_request url bodyBytes)
                           (post_ref r w) (post_world c bodyBytes r w)))
             HeaderXTxcSignature))%nat.
Proof.
  intros Ha Hvalid.
  apply (prepared_twice env c (POST_request url bodyBytes) (post_ref r w)
           (post_world c bodyBytes r w) HeaderXTxcSignature).
  - rewrite deref_post_world by done. by apply signed_Signature.
  - right. unfold computed. rewrite Ha. reflexivity.
Qed.

(** Every value sent under the canonical key of [key] is the one in the
    signed map, when no other key of that map or computed key has the
    same canonical form. *)
Lemma sendPost_values_of_key c url r bodyBytes w key x v :
  valid_ref w r ->
  signed c bodyBytes (deref w r) !! key = Some x ->
  (forall k, CanonicalMIMEHeaderKey k = CanonicalMIMEHeaderKey key ->
             k <> key -> deref w r !! k = None) ->
  CanonicalMIMEHeaderKey key <> "Content-Type" ->
  CanonicalMIMEHeaderKey key <> "X-Txc-Apikey" ->
  key = HeaderXTxcPayload \/ key = HeaderXTxcSignature ->
  v ∈ Header_Values
        (ReqHeader (prepared env c (POST_request url bodyBytes)
                      (post_ref r w) (post_world c bodyBytes r w))) key ->
  v = x.
Proof.
  intros Hvalid Hx Hothers Hct Hak Hkey Hin.
  rewrite Header_Values_stored in Hin.
  apply prepared_values in Hin as [Hin|[(k & Hk & Hin)|(k & Hk & Hin)]].
  - cbn [POST_request ReqHeader] in Hin. rewrite stored_empty in Hin.
    by apply not_elem_of_nil in Hin.
  - rewrite deref_post_world in Hin by done.
    destruct (decide (k = key)) as [->|Hne]; [congruence|].
    assert (k <> HeaderXTxcPayload /\ k <> HeaderXTxcSignature) as [Hp Hs].
    { split; intros ->; destruct Hkey as [-> | ->]; try done;
        vm_compute in Hk; discriminate. }
    rewrite signed_other in Hin by done.
    rewrite Hothers in Hin; done.
  - apply computed_lookup in Hin as [[-> ->]|(a & Ha & -> & ->)].
    + by rewrite canonical_Content_type in Hk.
    + by rewrite canonical_APIKey in Hk.
Qed.

End Signed.

(** C1. For a client with credentials, a readable body and a URL that
    parses, [sendPost] leaves in the header map, under [X-TXC-PAYLOAD],
    the standard base64 encoding of the body bytes and, under
    [X-TXC-SIGNATURE], the lower-case hexadecimal encoding of the
    HMAC-SHA512, keyed by the bytes of the API secret, of the bytes of
    that base64 text. The request put on the wire is a POST of the body
    to the URL and carries both values under these headers; it carries no
    other value there, unless the caller supplied the header under
    another spelling of its name. *)
Theorem sendPost_signs (env : Env) (c : client) (a : auth) (url : string)
    (r : option loc) (body : ReadCloser) (bodyBytes : list byte) (w : World) :
  c_auth c = Some a ->
  valid_ref w r ->
  io_ReadAll body = (bodyBytes, None) ->
  url_parse env url = None ->
  (1 <= fuel env)%nat ->
  let payload := Bytes.base64_EncodeToString bodyBytes in
  let signature :=
    Bytes.hex_EncodeToString
      (SHA512.hmac (list_byte_of_string (APISecret a))
                   (list_byte_of_string payload)) in
  let w' := snd (sendPost env c url r body w) in
  deref w' (post_ref r w) !! HeaderXTxcPayload = Some payload
  /\ deref w' (post_ref r w) !! HeaderXTxcSignature = Some signature
  /\ exists req more,
       wire w' = wire w ++ req :: more
       /\ Go.Method req = "POST" /\ URL req = url
       /\ ReqBody req = Some bodyBytes
       /\ payload ∈ Header_Values (ReqHeader req) HeaderXTxcPayload
       /\ signature ∈ Header_Values (ReqHeader req) HeaderXTxcSignature
       /\ ((forall k, CanonicalMIMEHeaderKey k = "X-Txc-Payload" ->
                      k <> HeaderXTxcPayload -> deref w r !! k = None) ->
           forall v, v ∈ Header_Values (ReqHeader req) HeaderXTxcPayload ->
                     v = payload)
       /\ ((forall k, CanonicalMIMEHeaderKey k = "X-Txc-Signature" ->
                      k <> HeaderXTxcSignature -> deref w r !! k = None) ->
           forall v, v ∈ Header_Values (ReqHeader req) HeaderXTxcSignature ->
                     v = signature).
Proof.
  intros Ha Hvalid Hread Hurl Hfuel payload signature w'.
  change payload with (payload_of bodyBytes).
  change signature with (signature_of a bodyBytes).
  subst w'. split; [|split].
  - rewrite (sendPost_map env c url r body bodyBytes w) by done.
    rewrite merged_lookup_absent by (unfold computed; by rewrite Ha).
    apply signed_Payload.
  - rewrite (sendPost_map env c url r body bodyBytes w) by done.
    rewrite merged_lookup_absent by (unfold computed; by rewrite Ha).
    by apply signed_Signature.
  - destruct (sendPost_wire env c url r body bodyBytes w) as [more Hmore];
      try done.
    eexists _, more. split; [exact Hmore|].
    destruct (prepared_fields env c (POST_request url bodyBytes) (post_ref r w)
                (post_world c bodyBytes r w)) as (-> & -> & ->).
    pose proof (sendPost_payload_twice env c url r bodyBytes w Hvalid) as Hp.
    pose proof (sendPost_signature_twice env c a url r bodyBytes w Ha Hvalid)
      as Hs.
    assert (forall v l, (2 <= copies v l)%nat -> v ∈ l) as Hcopies.
    { unfold copies. intros v l Hl.
      destruct (filter (fun x => x = v) l) as [|x rest] eqn:Hf; [cbn in Hl; lia|].
      assert (x ∈ filter (fun x => x = v) l) as Hx by (rewrite Hf; by left).
      apply list_elem_of_filter in Hx as [-> Hx]. done. }
    repeat split; try done.
    + by apply Hcopies.
    + by apply Hcopies.
    + intros Hothers v Hin.
      apply (sendPost_values_of_key env c url r bodyBytes w
               HeaderXTxcPayload (payload_of bodyBytes) v); try done.
      * apply signed_Payload.
      * by left.
    + intros Hothers v Hin.
      apply (sendPost_values_of_key env c url r bodyBytes w
               HeaderXTxcSignature (signature_of a bodyBytes) v); try done.
      * by apply signed_Signature.
      * by right.
Qed.

(** ** Exactly two copies *)

Lemma NoDup_all_same {A} (l : list A) (a : A) :
  NoDup l -> (forall x, x ∈ l -> x = a) -> a ∈ l -> l = [a].
Proof.
  intros Hnd Hall Hin. destruct l as [|x l]; [by apply not_elem_of_nil in Hin|].
  assert (x = a) as -> by (apply Hall; by left).
  destruct l as [|y l]; [done|].
  assert (y = a) as -> by (apply Hall; right; by left).
  apply NoDup_cons in Hnd as [Hnot _]. destruct Hnot. by left.
Qed.

Lemma values_for_single K entries key x :
  NoDup entries ->
  (key, x) ∈ entries ->
  CanonicalMIMEHeaderKey key = K ->
  (forall k v, (k, v) ∈ entries -> CanonicalMIMEHeaderKey k = K ->
               k = key /\ v = x) ->
  values_for K entries = [x].
Proof.
  intros Hnd Hin Hkey Honly. unfold values_for.
  rewrite (NoDup_all_same
             (filter (fun kv => CanonicalMIMEHeaderKey (fst kv) = K) entries)
             (key, x)).
  - reflexivity.
  - by apply NoDup_filter.
  - intros [k v] Hkv. apply list_elem_of_filter in Hkv as [Hk Hkv].
    destruct (Honly k v Hkv Hk) as [-> ->]. done.
  - apply list_elem_of_filter. done.
Qed.

Section Twice.

Context (env : Env).

Lemma NoDup_first_entries r w : NoDup (first_entries env r w).
Proof. rewrite first_entries_perm. apply NoDup_map_to_list. Qed.

Lemma NoDup_second_entries c r w : NoDup (second_entries env c r w).
Proof. rewrite second_entries_perm. apply NoDup_map_to_list. Qed.

(** Under the hypotheses of [sendPost_values_of_key] the value is sent
    exactly twice. *)
Lemma sendPost_exactly_twice c url r bodyBytes w key x :
  valid_ref w r ->
  signed c bodyBytes (deref w r) !! key = Some x ->
  (forall k, CanonicalMIMEHeaderKey k = CanonicalMIMEHeaderKey key ->
             k <> key -> deref w r !! k = None) ->
  key = HeaderXTxcPayload \/ key = HeaderXTxcSignature ->
  Header_Values
    (ReqHeader (prepared env c (POST_request url bodyBytes)
                  (post_ref r w) (post_world c bodyBytes r w))) key
  = [x; x].
Proof.
  intros Hvalid Hx Hothers Hkey.
  assert (CanonicalMIMEHeaderKey key <> "Content-Type"
          /\ CanonicalMIMEHeaderKey key <> "X-Txc-Apikey") as [Hct Hak].
  { destruct Hkey as [-> | ->]; split; discriminate. }
  assert (forall k v, signed c bodyBytes (deref w r) !! k = Some v ->
            CanonicalMIMEHeaderKey k = CanonicalMIMEHeaderKey key ->
            k = key /\ v = x) as Honly.
  { intros k v Hk Hcanon.
    destruct (decide (k = key)) as [->|Hne]; [split; congruence|].
    assert (k <> HeaderXTxcPayload /\ k <> HeaderXTxcSignature) as [Hp Hs].
    { split; intros ->; destruct Hkey as [-> | ->]; try done;
        vm_compute in Hcanon; discriminate. }
    rewrite signed_other in Hk by done.
    rewrite Hothers in Hk; done. }
  assert (computed c !! key = None) as Hnone.
  { destruct (computed c !! key) as [v|] eqn:Hc; [|done].
    apply computed_lookup in Hc as [[-> _]|(a & _ & -> & _)]; done. }
  rewrite Header_Values_stored, stored_prepared.
  cbn [POST_request ReqHeader]. rewrite stored_empty. cbn [app].
  rewrite (values_for_single _ (first_entries env _ _) key x);
    [rewrite (values_for_single _ (second_entries env c _ _) key x)|..];
    try done.
  - apply NoDup_second_entries.
  - apply (elem_of_second_entries env c (post_ref r w)
             (post_world c bodyBytes r w) key x).
    rewrite deref_post_world by done.
    by rewrite merged_lookup_absent.
  - intros k v Hin Hcanon.
    apply (elem_of_second_entries env c (post_ref r w)
             (post_world c bodyBytes r w) k v) in Hin.
    rewrite deref_post_world in Hin by done.
    apply merged_lookup_Some in Hin as [Hin|Hin]; [by apply Honly|].
    apply computed_lookup in Hin as [[-> _]|(a & _ & -> & _)].
    + by rewrite canonical_Content_type in Hcanon.
    + by rewrite canonical_APIKey in Hcanon.
  - apply NoDup_first_entries.
  - apply (elem_of_first_entries env (post_ref r w)
             (post_world c bodyBytes r w) key x).
    by rewrite deref_post_world.
  - intros k v Hin Hcanon.
    apply (elem_of_first_entries env (post_ref r w)
             (post_world c bodyBytes r w) k v) in Hin.
    rewrite deref_post_world in Hin by done.
    by apply Honly.
Qed.

End Twice.

End PostClaims.

(* ===================================================================== *)
(** * Headers added twice, and the caller's map *)
(* ===================================================================== *)

Module TransportClaims.

Import Go Gop2b Spec Fixtures RunFacts TransportFacts HeaderFacts PostFacts WireFacts.
Import PostClaims.

Lemma computed_other c k :
  k <> "Content-type" -> k <> HeaderXTxcAPIKey -> computed c !! k = None.
Proof.
  intros Hct Hak. destruct (computed c !! k) as [v|] eqn:Hc; [|done].
  apply computed_lookup in Hc as [[-> _]|(a & _ & -> & _)]; done.
Qed.




(** C10. [sendPost] writes into the caller's own map: with credentials, a
    readable body and a URL that parses, the map the caller passed holds,
    once the call is over, the computed payload and signature and, through
    the merge, the content type and the API key under the keys the caller
    had left out or empty. Every other entry is as the caller left it. *)
Theorem sendPost_mutates_caller_map (env : Env) (c : client) (a : auth)
    (url : string) (f : loc) (body : ReadCloser) (bodyBytes : list byte)
    (w : World) :
  c_auth c = Some a ->
  (f < length (maps w))%nat ->
  io_ReadAll body = (bodyBytes, None) ->
  url_parse env url = None ->
  let payload := Bytes.base64_EncodeToString bodyBytes in
  let signature :=
    Bytes.hex_EncodeToString
      (SHA512.hmac (list_byte_of_string (APISecret a))
                   (list_byte_of_string payload)) in
  let m := deref w (Some f) in
  let m' := deref (snd (sendPost env c url (Some f) body w)) (Some f) in
  m' !! HeaderXTxcPayload = Some payload
  /\ m' !! HeaderXTxcSignature = Some signature
  /\ (default "" (m !! "Content-type") = "" ->
      m' !! "Content-type" = Some "application/json")
  /\ (default "" (m !! HeaderXTxcAPIKey) = "" ->
      m' !! HeaderXTxcAPIKey = Some (APIKey a))
  /\ (forall k v,
        k <> HeaderXTxcPayload -> k <> HeaderXTxcSignature ->
        m !! k = Some v -> v <> "" -> m' !! k = Some v)
  /\ (forall k,
        k <> HeaderXTxcPayload -> k <> HeaderXTxcSignature ->
        k <> "Content-type" -> k <> HeaderXTxcAPIKey ->
        m' !! k = m !! k).
Proof.
  intros Ha Hf Hread Hurl payload signature m m'.
  change payload with (payload_of bodyBytes).
  change signature with (signature_of a bodyBytes).
  assert (forall k, m' !! k
            = merged_lookup (signed c bodyBytes m) (computed c) k) as Hm'.
  { intros k. subst m m'.
    apply (sendPost_map env c url (Some f) body bodyBytes w k); done. }
  repeat split.
  - rewrite Hm', merged_lookup_absent by (by apply computed_other).
    apply signed_Payload.
  - rewrite Hm', merged_lookup_absent by (by apply computed_other).
    by apply signed_Signature.
  - intros Hempty. rewrite Hm'. apply merged_lookup_filled.
    + by rewrite signed_other.
    + apply computed_Content_type.
  - intros Hempty. rewrite Hm'. apply merged_lookup_filled.
    + by rewrite signed_other.
    + by apply computed_APIKey.
  - intros k v Hp Hs Hk Hv. rewrite Hm'. apply merged_lookup_kept; [|done].
    by rewrite signed_other.
  - intros k Hp Hs Hct Hak.
    rewrite Hm', merged_lookup_absent by (by apply computed_other).
    by apply signed_other.
Qed.

Lemma sendPost_mutates_caller_map_witness :
  (0 < length (maps custom_header))%nat
  /\ deref (snd (sendPost quiet_env keyed_client
                   balances_url (Some 0%nat) empty_object custom_header))
        (Some 0%nat) !! HeaderXTxcPayload
     = Some (Bytes.base64_EncodeToString (list_byte_of_string "{}"))
  /\ deref (snd (sendPost quiet_env keyed_client
                   balances_url (Some 0%nat) empty_object custom_header))
        (Some 0%nat) !! HeaderXTxcAPIKey
     = Some "K".
Proof.
  assert (0 < length (maps custom_header))%nat as Hf by (cbn; lia).
  split; [exact Hf|].
  destruct (sendPost_mutates_caller_map quiet_env
              keyed_client {| APIKey := "K"; APISecret := "S" |}
              balances_url 0%nat empty_object (list_byte_of_string "{}")
              custom_header eq_refl Hf eq_refl eq_refl)
    as (Hp & _ & _ & Hk & _).
  split; [exact Hp|]. apply Hk. vm_compute. reflexivity.
Defined.

(** The caller's map of one header, after the call. *)
Example sendPost_caller_map_after :
  deref (snd (sendPost quiet_env keyed_client balances_url (Some 0%nat)
                empty_object custom_header)) (Some 0%nat)
  = list_to_map
      [ ("X-Request-Id", "42");
        ("X-TXC-PAYLOAD", "e30=");
        ("X-TXC-SIGNATURE",
         Bytes.hex_EncodeToString
           (SHA512.hmac (list_byte_of_string "S") (list_byte_of_string "e30=")));
        ("Content-type", "application/json");
        ("X-TXC-APIKEY", "K") ].
Proof. vm_compute. reflexivity. Qed.

(** The signature is that of the base64 text, not that of the body. *)
Example signature_of_payload_not_of_body :
  signature_of {| APIKey := "K"; APISecret := "S" |} (list_byte_of_string "{}")
  = Bytes.hex_EncodeToString
      (SHA512.hmac (list_byte_of_string "S") (list_byte_of_string "e30="))
  /\ signature_of {| APIKey := "K"; APISecret := "S" |}
       (list_byte_of_string "{}")
     <> Bytes.hex_EncodeToString
          (SHA512.hmac (list_byte_of_string "S") (list_byte_of_string "{}")).
Proof. vm_compute. split; [reflexivity|discriminate]. Qed.

Lemma sendPost_signs_witness :
  (1 <= fuel quiet_env)%nat
  /\ deref (snd (sendPost quiet_env keyed_client
                   balances_url None empty_object Testbed.empty_world))
        (Some 0%nat) !! HeaderXTxcSignature
     = Some (Bytes.hex_EncodeToString
               (SHA512.hmac (list_byte_of_string "S")
                  (list_byte_of_string
                     (Bytes.base64_EncodeToString
                        (list_byte_of_string "{}")))))
  /\ exists req more,
       wire (snd (sendPost quiet_env keyed_client
                    balances_url None empty_object Testbed.empty_world))
       = [] ++ req :: more
       /\ Go.Method req = "POST"
       /\ Bytes.base64_EncodeToString (list_byte_of_string "{}")
          ∈ Header_Values (ReqHeader req) HeaderXTxcPayload.
Proof.
  assert (1 <= fuel quiet_env)%nat as Hfuel by (cbn; lia).
  split; [exact Hfuel|].
  destruct (sendPost_signs quiet_env keyed_client
              {| APIKey := "K"; APISecret := "S" |} balances_url None
              empty_object (list_byte_of_string "{}") Testbed.empty_world
              eq_refl I eq_refl eq_refl Hfuel)
    as (_ & Hs & req & more & Hwire & Hm & _ & _ & Hp & _).
  split; [exact Hs|].
  exists req, more. split; [exact Hwire|]. split; [exact Hm|exact Hp].
Defined.

End TransportClaims.

(* ===================================================================== *)
(** * Redirects *)
(* ===================================================================== *)

Module RedirectClaims.

Import Go Gop2b Spec Fixtures RunFacts TransportFacts HeaderFacts PostFacts WireFacts.

Section NoFollow.

Context (env : Env).

Lemma first_answer_location_ok req resp :
  location_ok env resp ->
  first_answer env req (inl resp) = (Some resp, None).
Proof.
  unfold first_answer. intros [Hloc|Hloc].
  - rewrite Hloc. cbn. by rewrite andb_false_r.
  - rewrite Hloc. by destruct (_ && _).
Qed.

Lemma sendRequest_no_follow c request r w :
  CheckRedirect (c_http c) = Some useLastResponse ->
  valid_ref w r ->
  (2 <= fuel env)%nat ->
  sendRequest env c request r w
  = finish
      (first_answer env (prepared env c request r w)
         (round_trip env (wire w) (prepared env c request r w)))
      (with_wire (wire w ++ [prepared env c request r w]) (before_Do env c r w)).
Proof.
  intros Hpolicy Hvalid Hfuel. rewrite sendRequest_run by done.
  rewrite (bind_Done _ _ _ _ _
             (Client_Do_useLastResponse env (c_http c) _ _ Hpolicy Hfuel)).
  by destruct r.
Qed.

(** Under this policy one request goes out, whatever comes back. *)
Lemma sendRequest_no_follow_wire c request r w :
  CheckRedirect (c_http c) = Some useLastResponse ->
  valid_ref w r ->
  (2 <= fuel env)%nat ->
  wire (snd (sendRequest env c request r w))
  = wire w ++ [prepared env c request r w].
Proof.
  intros Hpolicy Hvalid Hfuel. rewrite sendRequest_no_follow by done.
  destruct (finish_frame
              (first_answer env (prepared env c request r w)
                 (round_trip env (wire w) (prepared env c request r w)))
              (with_wire (wire w ++ [prepared env c request r w])
                 (before_Do env c r w))) as (_ & -> & _).
  reflexivity.
Qed.

Lemma sendRequest_no_follow_response c request r w resp :
  CheckRedirect (c_http c) = Some useLastResponse ->
  valid_ref w r ->
  (2 <= fuel env)%nat ->
  round_trip env (wire w) (prepared env c request r w) = inl resp ->
  location_ok env resp ->
  fst (sendRequest env c request r w) = Done (Some (response_of resp), None).
Proof.
  intros Hpolicy Hvalid Hfuel Hresp Hloc.
  rewrite sendRequest_no_follow by done.
  rewrite Hresp, first_answer_location_ok by done. reflexivity.
Qed.

End NoFollow.

(** C7, as stated, fails: when the server answers 302 with a [Location]
    that does not parse, [Do] gives up before it asks the redirect
    policy, and [sendGet] returns an error and no response. The request
    is not sent again. *)
Lemma sendGet_302_unparsable_location :
  exists req err,
    wire (snd (sendGet redirecting_env keyed_client
                 "https://api.p2pb2b.com/api/v2/public/markets" None
                 Testbed.empty_world)) = [req]
    /\ round_trip redirecting_env [] req = inl redirect_to_nowhere
    /\ Go.StatusCode redirect_to_nowhere = 302
    /\ fst (sendGet redirecting_env keyed_client
              "https://api.p2pb2b.com/api/v2/public/markets" None
              Testbed.empty_world) = Done (None, Some err).
Proof. eexists _, _. vm_compute. auto. Qed.

(** C7, amended. A client built by [NewClient] or [newClientWithURL]
    never follows a redirect: [sendGet] and [sendPost] put one request on
    the wire, whatever the server answers, and return the first response,
    with its status code, status text, headers and body, whenever its
    [Location] header is absent or parses as a URL; this covers every
    3xx response with such a [Location]. *)
Theorem built_client_never_follows (env : Env) (url0 apiKey apiSecret : string)
    (c : client) :
  newClientWithURL url0 apiKey apiSecret = (Some c, None)
  \/ NewClient apiKey apiSecret = (Some c, None) ->
  (2 <= fuel env)%nat ->
  (forall url r w,
     valid_ref w r -> url_parse env url = None ->
     exists req,
       wire (snd (sendGet env c url r w)) = wire w ++ [req]
       /\ Go.Method req = "GET" /\ URL req = url
       /\ forall resp,
            round_trip env (wire w) req = inl resp ->
            location_ok env resp ->
            fst (sendGet env c url r w)
            = Done (Some (response_of resp), None))
  /\ (forall url r body bodyBytes w,
        valid_ref w r -> url_parse env url = None ->
        io_ReadAll body = (bodyBytes, None) ->
        exists req,
          wire (snd (sendPost env c url r body w)) = wire w ++ [req]
          /\ Go.Method req = "POST" /\ URL req = url
          /\ ReqBody req = Some bodyBytes
          /\ forall resp,
               round_trip env (wire w) req = inl resp ->
               location_ok env resp ->
               fst (sendPost env c url r body w)
               = Done (Some (response_of resp), None)).
Proof.
  intros Hbuilt Hfuel.
  assert (CheckRedirect (c_http c) = Some useLastResponse) as Hpolicy.
  { destruct Hbuilt as [Hb|Hb]; injection Hb as <-; reflexivity. }
  split.
  - intros url r w Hvalid Hurl. rewrite sendGet_run by done.
    exists (prepared env c (GET_request url) r w).
    destruct (prepared_fields env c (GET_request url) r w) as (-> & -> & _).
    split; [by apply sendRequest_no_follow_wire|].
    split; [done|]. split; [done|].
    intros resp Hresp Hloc.
    by apply sendRequest_no_follow_response.
  - intros url r body bodyBytes w Hvalid Hurl Hread.
    rewrite (sendPost_run env c url r body bodyBytes w) by done.
    pose proof (post_ref_valid c bodyBytes r w Hvalid) as Hv.
    assert (wire (post_world c bodyBytes r w) = wire w) as Hw by (by destruct r).
    exists (prepared env c (POST_request url bodyBytes) (post_ref r w)
              (post_world c bodyBytes r w)).
    destruct (prepared_fields env c (POST_request url bodyBytes) (post_ref r w)
                (post_world c bodyBytes r w)) as (-> & -> & ->).
    split; [rewrite <- Hw; by apply sendRequest_no_follow_wire|].
    split; [done|]. split; [done|]. split; [done|].
    intros resp Hresp Hloc.
    apply sendRequest_no_follow_response; try done.
    by rewrite Hw.
Qed.

Lemma built_client_never_follows_witness :
  (2 <= fuel found_env)%nat
  /\ exists req,
       wire (snd (sendGet found_env keyed_client
                    "https://api.p2pb2b.com/api/v2/public/markets" None
                    Testbed.empty_world)) = [] ++ [req]
       /\ fst (sendGet found_env keyed_client
                 "https://api.p2pb2b.com/api/v2/public/markets" None
                 Testbed.empty_world)
          = Done (Some (response_of found_elsewhere), None).
Proof.
  assert (2 <= fuel found_env)%nat as Hfuel by (cbn; lia).
  split; [exact Hfuel|].
  destruct (built_client_never_follows found_env baseAPI "K" "S"
              keyed_client (or_intror eq_refl) Hfuel) as [Hget _].
  destruct (Hget "https://api.p2pb2b.com/api/v2/public/markets" None
              Testbed.empty_world I eq_refl) as (req & Hwire & _ & _ & Hresp).
  exists req. split; [exact Hwire|].
  apply Hresp; [reflexivity|right; reflexivity].
Defined.

End RedirectClaims.

(* ===================================================================== *)
(** * The endpoints *)
(* ===================================================================== *)

Module EndpointClaims.

Import Go Gop2b Spec Fixtures RunFacts TransportFacts HeaderFacts PostFacts WireFacts.
Import PostClaims RedirectClaims.

Lemma bind_inv {A B} (m : M A) (k : A -> M B) w b w' :
  bind m k w = (Done b, w') ->
  exists a w1, m w = (Done a, w1) /\ k a w1 = (Done b, w').
Proof.
  unfold bind. destruct (m w) as [[a|msg|] w1]; intros H; try discriminate.
  by exists a, w1.
Qed.

Section Endpoints.

Context (env : Env).
Variable decode_balances : list byte -> AccountBalancesResp * option error.
Variable decode_currency
  : list byte -> AccountCurrencyBalanceResp * option error.

Lemma PostBalances_run c request w :
  PostBalances env decode_balances c request w
  = bind (sendPost env c (c_url c +:+ "/account/balances") None
            (bytes_NewReader (balances_body env request)))
         (after_post request decode_balances) w.
Proof. reflexivity. Qed.

Lemma PostCurrencyBalance_run c request w :
  PostCurrencyBalance env decode_currency c request w
  = bind (sendPost env c (c_url c +:+ "/account/balance") None
            (bytes_NewReader (currency_body env (stamped env w request))))
         (after_post (stamped env w request) decode_currency) (tick w).
Proof. reflexivity. Qed.

(** Whatever [sendPost] answered, the request comes back as it went in,
    and only the world [sendPost] left is seen. *)
Lemma after_post_request {Req Resp} (request : Req)
    (decode : list byte -> Resp * option error) r w request' res w' :
  after_post request decode r w = (Done (request', res), w') ->
  request' = request /\ w' = w.
Proof.
  unfold after_post, read_body, bind, ret, panic.
  destruct r as [[resp|] [err|]]; try (intros [= <- <- <-]; done);
    try discriminate.
  destruct (Body resp) as [b|]; [|discriminate].
  destruct (io_ReadAll b) as [bodyBytes [err|]];
    [intros [= <- <- <-]; done|].
  destruct (checkHTTPStatus resp [StatusOK]);
    [intros [= <- <- <-]; done|].
  destruct (decode bodyBytes) as [result [err|]]; intros [= <- <- <-]; done.
Qed.

Lemma after_post_frame {Req Resp} (request : Req)
    (decode : list byte -> Resp * option error) r w :
  snd (after_post request decode r w) = w.
Proof.
  unfold after_post, read_body, bind, ret, panic.
  destruct r as [[resp|] [err|]]; try reflexivity.
  destruct (Body resp) as [b|]; [|reflexivity].
  destruct (io_ReadAll b) as [bodyBytes [err|]]; [reflexivity|].
  destruct (checkHTTPStatus resp [StatusOK]); [reflexivity|].
  destruct (decode bodyBytes) as [result [err|]]; reflexivity.
Qed.

(** The first request an endpoint puts on the wire carries the serialized
    request as its body. *)
Lemma endpoint_wire {Req Resp} c url (request : Req)
    (decode : list byte -> Resp * option error) bodyBytes w :
  url_parse env url = None ->
  (1 <= fuel env)%nat ->
  exists req more,
    wire (snd (bind (sendPost env c url None (bytes_NewReader bodyBytes))
                    (after_post request decode) w))
    = wire w ++ req :: more
    /\ Go.Method req = "POST" /\ URL req = url
    /\ ReqBody req = Some bodyBytes.
Proof.
  intros Hurl Hfuel.
  destruct (sendPost_wire env c url None (bytes_NewReader bodyBytes) bodyBytes w
              I eq_refl Hurl Hfuel) as [more Hmore].
  eexists _, more.
  destruct (prepared_fields env c (POST_request url bodyBytes)
              (post_ref None w) (post_world c bodyBytes None w))
    as (Hm & Hu & Hb).
  split; [|split; [exact Hm|split; [exact Hu|exact Hb]]].
  unfold bind.
  destruct (sendPost env c url None (bytes_NewReader bodyBytes) w)
    as [[r|msg|] w1]; cbn [snd] in *; [|done..].
  by rewrite after_post_frame.
Qed.

(** ** Results that cannot make an endpoint panic *)

Lemma after_post_total {Req Resp} (request : Req)
    (decode : list byte -> Resp * option error) r w :
  well_formed r ->
  exists res, after_post request decode r w = (Done (request, res), w).
Proof.
  unfold after_post, read_body, bind, ret, well_formed.
  destruct r as [[resp|] [err|]]; intros Hwf.
  - eexists. reflexivity.
  - destruct Hwf as [b Hb]. rewrite Hb.
    destruct (io_ReadAll b) as [bodyBytes [err|]]; [eexists; reflexivity|].
    destruct (checkHTTPStatus resp [StatusOK]); [eexists; reflexivity|].
    destruct (decode bodyBytes) as [result [err|]]; eexists; reflexivity.
  - eexists. reflexivity.
  - destruct Hwf.
Qed.

Lemma sendPost_built c url r body bodyBytes w :
  CheckRedirect (c_http c) = Some useLastResponse ->
  (2 <= fuel env)%nat ->
  valid_ref w r ->
  io_ReadAll body = (bodyBytes, None) ->
  exists res w',
    sendPost env c url r body w = (Done res, w') /\ well_formed res.
Proof.
  intros Hpolicy Hfuel Hvalid Hread.
  destruct (url_parse env url) as [err|] eqn:Hurl.
  - unfold sendPost, NewRequest. rewrite Hread, Hurl.
    eexists _, _. split; [reflexivity|]. done.
  - rewrite (sendPost_run env c url r body bodyBytes w) by done.
    rewrite sendRequest_no_follow by (done || by apply post_ref_valid).
    unfold first_answer.
    destruct (round_trip env _ _) as [resp|err].
    + match goal with |- context [if ?b then _ else _] => destruct b end.
      * destruct (url_parse env (Header_Get _ _));
          eexists _, _; (split; [reflexivity|]); cbn; eauto.
      * eexists _, _. split; [reflexivity|]. cbn. eauto.
    + eexists _, _. split; [reflexivity|]. done.
Qed.

(** [sendPost] does not read the clock. *)
Lemma sendPost_ticks c url body w :
  ticks (snd (sendPost env c url None body w)) = ticks w.
Proof.
  destruct (io_ReadAll body) as [bodyBytes [err|]] eqn:Hread.
  { unfold sendPost. by rewrite Hread. }
  destruct (url_parse env url) as [err|] eqn:Hurl.
  { unfold sendPost, NewRequest. by rewrite Hread, Hurl. }
  rewrite (sendPost_run env c url None body bodyBytes w) by done.
  destruct (sendRequest_effect env c (POST_request url bodyBytes)
              (post_ref None w) (post_world c bodyBytes None w))
    as (_ & -> & _); [|done].
  cbn. rewrite length_app. cbn. lia.
Qed.

End Endpoints.

Lemma after_post_non200 {Req Resp} (request : Req)
    (decode : list byte -> Resp * option error) resp rc bodyBytes w :
  Body resp = Some rc ->
  io_ReadAll rc = (bodyBytes, None) ->
  StatusCode resp <> 200 ->
  after_post request decode (Some resp, None) w
  = (Done (request,
           (None, Some (errorString (non200_text (StatusCode resp) bodyBytes)))),
     w).
Proof.
  intros Hbody Hread Hcode. unfold after_post, read_body, bind, ret.
  rewrite Hbody, Hread.
  unfold checkHTTPStatus.
  rewrite StatusFacts.checkHTTPStatus_loop_missing.
  - reflexivity.
  - cbn. unfold StatusOK. intuition.
Qed.

(** C4. When [sendPost] hands an endpoint a response whose status is not
    200 and whose body can be read, [PostBalances] and
    [PostCurrencyBalance] return a nil result and an error whose text is
    the status mismatch (the expected [[200]] and the code received)
    followed by the text of the body, unchanged. This is so whatever the
    decoder of the typed response is: the body is not decoded. *)
Theorem endpoints_non200 (env : Env)
    (decode_balances : list byte -> AccountBalancesResp * option error)
    (decode_currency : list byte -> AccountCurrencyBalanceResp * option error)
    (c : client) (w w' : World) (resp : response) (rc : ReadCloser)
    (bodyBytes : list byte) :
  Body resp = Some rc ->
  io_ReadAll rc = (bodyBytes, None) ->
  StatusCode resp <> 200 ->
  (forall request,
     sendPost env c (c_url c +:+ "/account/balances") None
       (bytes_NewReader (balances_body env request)) w
     = (Done (Some resp, None), w') ->
     PostBalances env decode_balances c request w
     = (Done (request,
              (None,
               Some (errorString (non200_text (StatusCode resp) bodyBytes)))),
        w'))
  /\ (forall request,
        sendPost env c (c_url c +:+ "/account/balance") None
          (bytes_NewReader (currency_body env (stamped env w request)))
          (tick w)
        = (Done (Some resp, None), w') ->
        PostCurrencyBalance env decode_currency c request w
        = (Done (stamped env w request,
                 (None,
                  Some (errorString
                          (non200_text (StatusCode resp) bodyBytes)))),
           w')).
Proof.
  intros Hbody Hread Hcode. split; intros request Hpost.
  - rewrite PostBalances_run, (bind_Done _ _ _ _ _ Hpost).
    by apply (after_post_non200 request decode_balances resp rc).
  - rewrite PostCurrencyBalance_run, (bind_Done _ _ _ _ _ Hpost).
    by apply (after_post_non200 (stamped env w request) decode_currency resp rc).
Qed.

Lemma endpoints_non200_witness :
  fst (PostBalances bad_nonce_env no_balances keyed_client
         some_request Testbed.empty_world)
  = Done (some_request,
          (None,
           Some (errorString
                   (non200_text 400 (list_byte_of_string "bad nonce"))))).
Proof.
  destruct (endpoints_non200 bad_nonce_env no_balances no_balance
              keyed_client Testbed.empty_world
              (snd (sendPost bad_nonce_env keyed_client
                      (c_url keyed_client +:+ "/account/balances")
                      None
                      (bytes_NewReader (balances_body bad_nonce_env some_request))
                      Testbed.empty_world))
              (response_of bad_nonce) (Go.Body bad_nonce)
              (list_byte_of_string "bad nonce"))
    as [Hbalances _]; [reflexivity|reflexivity|discriminate|].
  rewrite (Hbalances some_request); [reflexivity|].
  vm_compute. reflexivity.
Defined.

Example non200_text_400 :
  non200_text 400 (list_byte_of_string "bad nonce")
  = "http response status != [200], got 400: bad nonce"
    +:+ String (ascii_of_nat 10) EmptyString.
Proof. vm_compute. reflexivity. Qed.

(** A 302 reaches the caller as a status mismatch: it is not followed. *)
Example PostBalances_302_surfaced :
  fst (PostBalances found_env no_balances keyed_client some_request
         Testbed.empty_world)
  = Done (some_request,
          (None,
           Some (errorString
                   ("http response status != [200], got 302: moved"
                    +:+ String (ascii_of_nat 10) EmptyString))))
  /\ length (wire (snd (PostBalances found_env no_balances keyed_client
                          some_request Testbed.empty_world))) = 1%nat.
Proof. vm_compute. auto. Qed.

End EndpointClaims.

(* ===================================================================== *)
(** * The nonce *)
(* ===================================================================== *)

Module NonceClaims.

Import Go Gop2b Spec Fixtures RunFacts TransportFacts HeaderFacts PostFacts WireFacts.
Import PostClaims RedirectClaims EndpointClaims.

Section Nonce.

Context (env : Env).
Variable decode_balances : list byte -> AccountBalancesResp * option error.
Variable decode_currency
  : list byte -> AccountCurrencyBalanceResp * option error.

Lemma PostCurrencyBalance_returns c request w request' res w' :
  PostCurrencyBalance env decode_currency c request w
  = (Done (request', res), w') ->
  request' = stamped env w request.
Proof.
  rewrite PostCurrencyBalance_run. intros Hrun.
  apply bind_inv in Hrun as (r & w1 & _ & Hafter).
  by apply after_post_request in Hafter as [-> _].
Qed.

Lemma PostBalances_returns c request w request' res w' :
  PostBalances env decode_balances c request w = (Done (request', res), w') ->
  request' = request.
Proof.
  rewrite PostBalances_run. intros Hrun.
  apply bind_inv in Hrun as (r & w1 & _ & Hafter).
  by apply after_post_request in Hafter as [-> _].
Qed.

Lemma PostBalances_ticks c request w :
  ticks (snd (PostBalances env decode_balances c request w)) = ticks w.
Proof.
  rewrite PostBalances_run. unfold bind.
  pose proof (sendPost_ticks env c (c_url c +:+ "/account/balances")
                (bytes_NewReader (balances_body env request)) w) as Ht.
  destruct (sendPost env c _ None _ w) as [[r|msg|] w1]; cbn [snd] in *;
    [|done..].
  by rewrite after_post_frame.
Qed.

Lemma PostBalances_wire c request w :
  url_parse env (c_url c +:+ "/account/balances") = None ->
  (1 <= fuel env)%nat ->
  exists req more,
    wire (snd (PostBalances env decode_balances c request w))
    = wire w ++ req :: more
    /\ Go.Method req = "POST"
    /\ URL req = c_url c +:+ "/account/balances"
    /\ ReqBody req = Some (balances_body env request).
Proof. intros Hurl Hfuel. rewrite PostBalances_run. by apply endpoint_wire. Qed.

Lemma PostCurrencyBalance_wire c request w :
  url_parse env (c_url c +:+ "/account/balance") = None ->
  (1 <= fuel env)%nat ->
  exists req more,
    wire (snd (PostCurrencyBalance env decode_currency c request w))
    = wire w ++ req :: more
    /\ Go.Method req = "POST"
    /\ URL req = c_url c +:+ "/account/balance"
    /\ ReqBody req = Some (currency_body env (stamped env w request)).
Proof.
  intros Hurl Hfuel. rewrite PostCurrencyBalance_run.
  by apply (endpoint_wire env c _ (stamped env w request) decode_currency
              (currency_body env (stamped env w request)) (tick w)).
Qed.

(** With a client that does not follow redirects both endpoints return. *)
Lemma endpoints_return c w :
  CheckRedirect (c_http c) = Some useLastResponse ->
  (2 <= fuel env)%nat ->
  (forall request, exists res w',
     PostCurrencyBalance env decode_currency c request w
     = (Done (stamped env w request, res), w'))
  /\ (forall request, exists res w',
        PostBalances env decode_balances c request w
        = (Done (request, res), w')).
Proof.
  intros Hpolicy Hfuel. split; intros request.
  - rewrite PostCurrencyBalance_run.
    destruct (sendPost_built env c (c_url c +:+ "/account/balance") None
                (bytes_NewReader (currency_body env (stamped env w request)))
                (currency_body env (stamped env w request)) (tick w)
                Hpolicy Hfuel I eq_refl) as (r & w1 & Hpost & Hwf).
    rewrite (bind_Done _ _ _ _ _ Hpost).
    destruct (after_post_total (stamped env w request) decode_currency r w1 Hwf)
      as [res Hres].
    by exists res, w1.
  - rewrite PostBalances_run.
    destruct (sendPost_built env c (c_url c +:+ "/account/balances") None
                (bytes_NewReader (balances_body env request))
                (balances_body env request) w
                Hpolicy Hfuel I eq_refl) as (r & w1 & Hpost & Hwf).
    rewrite (bind_Done _ _ _ _ _ Hpost).
    destruct (after_post_total request decode_balances r w1 Hwf)
      as [res Hres].
    by exists res, w1.
Qed.

End Nonce.

(** C2. [PostCurrencyBalance] writes, before it serializes the request,
    the clock's Unix time in milliseconds, in decimal, into [Nonce] and the
    path [/api/v2/account/balance] into [Request]: the caller's request
    comes back so stamped, and the body sent is the serialization of the
    stamped request. [PostBalances] neither reads the clock nor changes
    the request: the body it sends is the serialization of the request as
    the caller passed it, so that a second call sends the same nonce
    again. With a client built by [NewClient] or [newClientWithURL] both
    endpoints return. *)
Theorem only_PostCurrencyBalance_stamps (env : Env)
    (decode_balances : list byte -> AccountBalancesResp * option error)
    (decode_currency : list byte -> AccountCurrencyBalanceResp * option error)
    (c : client) (w : World) :
  url_parse env (c_url c +:+ "/account/balance") = None ->
  url_parse env (c_url c +:+ "/account/balances") = None ->
  (2 <= fuel env)%nat ->
  (forall request,
     let sent :=
       {| currency_Request :=
            {| Request_ := "/api/v2/account/balance";
               Nonce := FormatInt10 (UnixMilli (now env (ticks w))) |};
          Currency := Currency request |} in
     (forall request' res w',
        PostCurrencyBalance env decode_currency c request w
        = (Done (request', res), w') ->
        request' = sent)
     /\ exists req more,
          wire (snd (PostCurrencyBalance env decode_currency c request w))
          = wire w ++ req :: more
          /\ ReqBody req
             = Some (fst (json_Marshal_AccountCurrencyBalanceRequest env sent)))
  /\ (forall request,
        (forall request' res w',
           PostBalances env decode_balances c request w
           = (Done (request', res), w') ->
           request' = request)
        /\ ticks (snd (PostBalances env decode_balances c request w)) = ticks w
        /\ exists req more,
             wire (snd (PostBalances env decode_balances c request w))
             = wire w ++ req :: more
             /\ ReqBody req
                = Some (fst (json_Marshal_AccountBalancesRequest env request)))
  /\ (forall request request1 res1 w1,
        PostBalances env decode_balances c request w
        = (Done (request1, res1), w1) ->
        Nonce (balances_Request request1) = Nonce (balances_Request request)
        /\ exists req more,
             wire (snd (PostBalances env decode_balances c request1 w1))
             = wire w1 ++ req :: more
             /\ ReqBody req
                = Some (fst (json_Marshal_AccountBalancesRequest env request)))
  /\ (CheckRedirect (c_http c) = Some useLastResponse ->
      (forall request, exists res w',
         PostCurrencyBalance env decode_currency c request w
         = (Done ({| currency_Request :=
                       {| Request_ := "/api/v2/account/balance";
                          Nonce :=
                            FormatInt10 (UnixMilli (now env (ticks w))) |};
                     Currency := Currency request |}, res), w'))
      /\ (forall request, exists res w',
            PostBalances env decode_balances c request w
            = (Done (request, res), w'))).
Proof.
  intros Hurl1 Hurl2 Hfuel.
  assert (1 <= fuel env)%nat as Hfuel1 by lia.
  split; [|split; [|split]].
  - intros request sent. split.
    + intros request' res w'. apply PostCurrencyBalance_returns.
    + destruct (PostCurrencyBalance_wire env decode_currency c request w
                  Hurl1 Hfuel1) as (req & more & Hwire & _ & _ & Hbody).
      by exists req, more.
  - intros request. split; [|split].
    + intros request' res w'. apply PostBalances_returns.
    + apply PostBalances_ticks.
    + destruct (PostBalances_wire env decode_balances c request w
                  Hurl2 Hfuel1) as (req & more & Hwire & _ & _ & Hbody).
      by exists req, more.
  - intros request request1 res1 w1 Hrun.
    apply PostBalances_returns in Hrun as ->. split; [done|].
    destruct (PostBalances_wire env decode_balances c request w1
                Hurl2 Hfuel1) as (req & more & Hwire & _ & _ & Hbody).
    by exists req, more.
  - intros Hpolicy.
    apply (endpoints_return env decode_balances decode_currency c w
             Hpolicy Hfuel).
Qed.

Lemma only_PostCurrencyBalance_stamps_witness :
  (2 <= fuel bad_nonce_env)%nat
  /\ (exists res w',
        PostCurrencyBalance bad_nonce_env no_balance keyed_client
          btc_request Testbed.empty_world
        = (Done ({| currency_Request :=
                      {| Request_ := "/api/v2/account/balance";
                         Nonce := "1700000000000" |};
                    Currency := "BTC" |}, res), w'))
  /\ (exists res w',
        PostBalances bad_nonce_env no_balances keyed_client
          some_request Testbed.empty_world
        = (Done (some_request, res), w')).
Proof.
  assert (2 <= fuel bad_nonce_env)%nat as Hfuel by (cbn; lia).
  split; [exact Hfuel|].
  destruct (only_PostCurrencyBalance_stamps bad_nonce_env no_balances no_balance
              keyed_client Testbed.empty_world eq_refl eq_refl Hfuel)
    as (_ & _ & _ & Hreturn).
  destruct (Hreturn eq_refl) as [Hc Hb].
  split; [exact (Hc btc_request)|exact (Hb some_request)].
Defined.

Example PostBalances_twice_same_body :
  bodies (snd (twice (PostBalances bad_nonce_env no_balances
                        keyed_client)
                 some_request Testbed.empty_world))
  = [ string_of_list_byte (balances_body bad_nonce_env some_request);
      string_of_list_byte (balances_body bad_nonce_env some_request) ].
Proof. vm_compute. reflexivity. Qed.

Example PostCurrencyBalance_twice_fresh_nonce :
  bodies (snd (twice (PostCurrencyBalance bad_nonce_env no_balance
                        keyed_client)
                 btc_request Testbed.empty_world))
  = [ string_of_list_byte
        (currency_body bad_nonce_env
           {| currency_Request :=
                {| Request_ := "/api/v2/account/balance";
                   Nonce := "1700000000000" |};
              Currency := "BTC" |});
      string_of_list_byte
        (currency_body bad_nonce_env
           {| currency_Request :=
                {| Request_ := "/api/v2/account/balance";
                   Nonce := "1700000001007" |};
              Currency := "BTC" |}) ].
Proof. vm_compute. reflexivity. Qed.

End NonceClaims.

(* ===================================================================== *)
(** * Further properties: builders and status lists *)
(* ===================================================================== *)

Module BuilderProps.

Import Go Gop2b Spec Fixtures SpecMore MoreFixtures.

(** X1. [newWsRequest] keeps the method, copies the parameters in their
    order into a slice that is never nil (no parameters give the empty
    slice), and takes the id from a single reading of the clock, in
    seconds; so two requests built within the same second share their
    id. [newPingRequest] is the request [server.ping] without
    parameters. *)
Theorem newWsRequest_copies_params (env : Env) (method : string)
    (params : list string) (w : World) :
  newWsRequest env method params w
  = (Done {| Method := method; Params := Some params;
             Id := Unix (now env (ticks w)) |},
     tick w)
  /\ newPingRequest env w
     = (Done {| Method := "server.ping"; Params := Some [];
                Id := Unix (now env (ticks w)) |},
        tick w).
Proof.
  assert (forall method params,
    newWsRequest env method params w
    = (Done {| Method := method; Params := Some params;
               Id := Unix (now env (ticks w)) |},
       tick w)) as Hbuilt.
  { clear. intros method params. unfold newWsRequest.
    assert (forall acc id,
      fold_left
        (fun req p =>
           {| Method := Method req; Params := append_string (Params req) p;
              Id := Id req |})
        params {| Method := method; Params := Some acc; Id := id |}
      = {| Method := method; Params := Some (acc ++ params); Id := id |}) as H.
    { induction params as [|p params IH]; intros acc id; simpl.
      - by rewrite app_nil_r.
      - unfold append_string at 2. simpl. rewrite IH, <- app_assoc. done. }
    rewrite H. reflexivity. }
  split; [apply Hbuilt|]. unfold newPingRequest. apply Hbuilt.
Qed.

(** X2. Which codes [checkHTTPStatus] accepts depends on the expected
    list as a set: a response passes a concatenation exactly when it
    passes one of the parts, two lists with the same elements in another
    order accept the same responses, and the empty list accepts none. *)
Theorem checkHTTPStatus_as_a_set (resp : response) (l1 l2 : list Z) :
  (checkHTTPStatus resp (l1 ++ l2) = None
   <-> checkHTTPStatus resp l1 = None \/ checkHTTPStatus resp l2 = None)
  /\ (l1 ≡ₚ l2 ->
      (checkHTTPStatus resp l1 = None <-> checkHTTPStatus resp l2 = None))
  /\ checkHTTPStatus resp [] <> None.
Proof.
  unfold checkHTTPStatus. rewrite !StatusFacts.checkHTTPStatus_loop_found.
  split; [|split].
  - apply in_app_iff.
  - intros Hperm. split; apply Permutation_in; [done|by symmetry].
  - intros [].
Qed.

End BuilderProps.

(* ===================================================================== *)
(** * Further properties: merging *)
(* ===================================================================== *)

Module MergeProps.

Import Go Gop2b Spec Fixtures SpecMore MoreFixtures.
Import RunFacts TransportFacts HeaderFacts PostFacts.

Lemma merged_lookup_is_Some mf ms k :
  is_Some (merged_lookup mf ms k) <-> is_Some (mf !! k) \/ is_Some (ms !! k).
Proof.
  unfold merged_lookup.
  destruct (mf !! k) as [v|], (ms !! k) as [v'|]; cbn;
    repeat match goal with
           | |- context [if ?b then _ else _] => destruct b
           end;
    (split; [intros [x Hx]|intros [[x Hx]|[x Hx]]]); try discriminate; eauto.
Qed.

Lemma merged_lookup_self m k : merged_lookup m m k = m !! k.
Proof.
  unfold merged_lookup. destruct (String.eqb _ _); [|done].
  by destruct (m !! k).
Qed.


(** Merging the result with the second map once more changes nothing. *)
Lemma merged_lookup_twice (mf ms m1 : gmap string string) k :
  (forall k, m1 !! k = merged_lookup mf ms k) ->
  merged_lookup m1 ms k = m1 !! k.
Proof.
  intros Hm1. unfold merged_lookup at 1.
  destruct (String.eqb (default "" (m1 !! k)) "") eqn:Hcur; [|done].
  destruct (ms !! k) as [v|] eqn:Hs; [|done].
  rewrite Hm1 in Hcur |- *. unfold merged_lookup in Hcur |- *.
  rewrite Hs in Hcur |- *.
  destruct (String.eqb (default "" (mf !! k)) "") eqn:Hf; [done|].
  by rewrite Hcur in Hf.
Qed.

Lemma mergeHeaders_world env (f s : loc) w :
  (f < length (maps w))%nat ->
  exists m,
    mergeHeaders env (Some f) (Some s) w
    = (Done (Some f), with_iters (S (iters w)) (with_maps (<[f := m]> (maps w)) w))
    /\ forall k, m !! k = merged_lookup (deref w (Some f)) (deref w (Some s)) k.
Proof.
  intros Hf. eexists. split; [by apply mergeHeaders_both|].
  intros k. apply fill_missing_perm, range_order_perm.
Qed.

(** X3. [mergeHeaders] on two maps writes to the first map only: no map is
    allocated, every other map (the second included) is as it was, the
    clock, the wire and the console are untouched. No key is lost: the
    keys of the first map afterwards are those of the two maps together.
    With a nil map on either side nothing at all is done and the other
    reference is returned. *)
Theorem mergeHeaders_writes_first_only (env : Env) (f s : loc) (w : World) :
  (f < length (maps w))%nat ->
  let w' := snd (mergeHeaders env (Some f) (Some s) w) in
  length (maps w') = length (maps w)
  /\ (forall l, l <> f -> maps w' !! l = maps w !! l)
  /\ dom (deref w' (Some f))
     = dom (deref w (Some f)) ∪ dom (deref w (Some s))
  /\ ticks w' = ticks w /\ wire w' = wire w /\ stdout w' = stdout w
  /\ (forall r w0, mergeHeaders env r None w0 = (Done r, w0)
                   /\ mergeHeaders env None r w0 = (Done r, w0)).
Proof.
  intros Hf w'. subst w'.
  destruct (mergeHeaders_world env f s w Hf) as (m & -> & Hm).
  cbn [snd with_iters with_maps maps ticks iters wire stdout].
  split; [by rewrite length_insert|].
  split; [intros l Hl; by rewrite list_lookup_insert_ne|].
  split.
  - unfold with_iters, with_maps. cbn [maps ticks iters wire stdout].
    rewrite deref_insert by done. apply set_eq. intros k.
    rewrite elem_of_union, !elem_of_dom, Hm.
    apply merged_lookup_is_Some.
  - repeat split; try done; by destruct r.
Qed.

Lemma mergeHeaders_writes_first_only_witness :
  (0 < length (maps two_maps))%nat
  /\ maps (snd (mergeHeaders quiet_env (Some 0%nat) (Some 1%nat) two_maps))
       !! 1%nat
     = maps two_maps !! 1%nat
  /\ dom (deref (snd (mergeHeaders quiet_env (Some 0%nat) (Some 1%nat)
                        two_maps)) (Some 0%nat))
     = dom (deref two_maps (Some 0%nat)) ∪ dom (deref two_maps (Some 1%nat)).
Proof.
  assert (0 < length (maps two_maps))%nat as Hf by (cbn; lia).
  split; [exact Hf|].
  destruct (mergeHeaders_writes_first_only quiet_env 0 1 two_maps Hf)
    as (_ & Hother & Hdom & _).
  split; [apply Hother; lia|exact Hdom].
Defined.

(** X4. Merging is idempotent: a second [mergeHeaders] of the same two maps
    leaves the first map as the first call left it. Merging a map with
    itself leaves it as it was. *)
Theorem mergeHeaders_idempotent (env : Env) (f s : loc) (w : World) :
  (f < length (maps w))%nat ->
  let w1 := snd (mergeHeaders env (Some f) (Some s) w) in
  let w2 := snd (mergeHeaders env (Some f) (Some s) w1) in
  deref w2 (Some f) = deref w1 (Some f)
  /\ (f = s -> deref w1 (Some f) = deref w (Some f)).
Proof.
  intros Hf w1 w2.
  assert (forall k, deref w1 (Some f) !! k
            = merged_lookup (deref w (Some f)) (deref w (Some s)) k) as H1.
  { intros k. apply (MergeClaims.mergeHeaders_lookup env f s w k Hf). }
  assert (f = s -> deref w1 (Some f) = deref w (Some f)) as Hself.
  { intros <-. apply map_eq. intros k. rewrite H1. apply merged_lookup_self. }
  split; [|exact Hself].
  assert (f < length (maps w1))%nat as Hf1.
  { subst w1. destruct (mergeHeaders_world env f s w Hf) as (m & -> & _).
    cbn. by rewrite length_insert. }
  apply map_eq. intros k. subst w2.
  destruct (MergeClaims.mergeHeaders_lookup env f s w1 k Hf1) as [_ ->].
  destruct (decide (f = s)) as [<-|Hne].
  - apply merged_lookup_self.
  - assert (deref w1 (Some s) = deref w (Some s)) as ->.
    { subst w1. destruct (mergeHeaders_world env f s w Hf) as (m & -> & _).
      unfold deref. cbn [snd with_iters with_maps maps].
      by rewrite list_lookup_insert_ne. }
    by apply (merged_lookup_twice (deref w (Some f))).
Qed.

Lemma mergeHeaders_idempotent_witness :
  (0 < length (maps two_maps))%nat
  /\ deref (snd (mergeHeaders quiet_env (Some 0%nat) (Some 1%nat)
                   (snd (mergeHeaders quiet_env (Some 0%nat) (Some 1%nat)
                           two_maps)))) (Some 0%nat)
     = deref (snd (mergeHeaders quiet_env (Some 0%nat) (Some 1%nat) two_maps))
         (Some 0%nat).
Proof.
  assert (0 < length (maps two_maps))%nat as Hf by (cbn; lia).
  split; [exact Hf|].
  apply (mergeHeaders_idempotent quiet_env 0 1 two_maps Hf).
Defined.

End MergeProps.

(* ===================================================================== *)
(** * Further properties: the transport *)
(* ===================================================================== *)

Module TransportProps.

Import Go Gop2b Spec Fixtures SpecMore MoreFixtures.
Import RunFacts TransportFacts HeaderFacts PostFacts WireFacts.
Import PostClaims RedirectClaims.

(** X5. [sendPost] and [sendGet] fail before anything is sent or written:
    when the body cannot be read, [sendPost] returns a nil response and
    the read error, whatever the URL is; when the URL does not parse, both
    return the zero response (not nil) and an error that names the method
    and carries the parse error. In each case the world is as it was: no
    request on the wire, no map touched or allocated. *)
Theorem transport_fails_early (env : Env) (c : client) (url : string)
    (r : option loc) (body : ReadCloser) (w : World) :
  (forall data e,
     io_ReadAll body = (data, Some e) ->
     sendPost env c url r body w = (Done (None, Some e), w))
  /\ (forall data e,
        io_ReadAll body = (data, None) -> url_parse env url = Some e ->
        sendPost env c url r body w
        = (Done (Some response_zero,
                 Some (errorString
                         ("error creating POST request, " +:+ Error e))),
           w))
  /\ (forall e,
        url_parse env url = Some e ->
        sendGet env c url r w
        = (Done (Some response_zero,
                 Some (errorString
                         ("error creating GET request, " +:+ Error e))),
           w)).
Proof.
  unfold sendPost, sendGet, NewRequest. repeat split.
  - intros data e ->. reflexivity.
  - intros data e -> ->. reflexivity.
  - intros e ->. reflexivity.
Qed.

Lemma transport_fails_early_witness :
  sendPost quiet_env keyed_client not_a_url None broken_body
    Testbed.empty_world
  = (Done (None, Some (errorString "unexpected EOF")), Testbed.empty_world).
Proof.
  destruct (transport_fails_early quiet_env keyed_client not_a_url None
              broken_body Testbed.empty_world) as (Hread & _).
  apply (Hread []). reflexivity.
Defined.

Section Transport.

Context (env : Env).

Lemma sendRequest_built c request r w :
  CheckRedirect (c_http c) = Some useLastResponse ->
  (2 <= fuel env)%nat ->
  valid_ref w r ->
  exists res w',
    sendRequest env c request r w = (Done res, w') /\ well_formed res.
Proof.
  intros Hpolicy Hfuel Hvalid.
  rewrite sendRequest_no_follow by done.
  unfold first_answer.
  destruct (round_trip env _ _) as [resp|err].
  - match goal with |- context [if ?b then _ else _] => destruct b end.
    + destruct (url_parse env (Header_Get _ _));
        eexists _, _; (split; [reflexivity|]); cbn; eauto.
    + eexists _, _. split; [reflexivity|]. cbn. eauto.
  - eexists _, _. split; [reflexivity|]. done.
Qed.

Lemma stdout_before_Do c r w : stdout (before_Do env c r w) = stdout w.
Proof. by destruct r. Qed.

Lemma maps_after_sendRequest c request (f : loc) w l :
  (f < length (maps w))%nat ->
  (l < length (maps w))%nat -> l <> f ->
  maps (snd (sendRequest env c request (Some f) w)) !! l = maps w !! l.
Proof.
  intros Hf Hl Hne.
  destruct (sendRequest_effect env c request (Some f) w Hf) as (-> & _).
  cbn [before_Do with_iters with_maps maps].
  rewrite lookup_app_l by (by rewrite length_insert).
  by rewrite list_lookup_insert_ne.
Qed.

End Transport.

(** X6. A failure of the network is reported, not retried: with a client
    that does not follow redirects, [sendRequest] puts one request on the
    wire; if the exchange fails it returns a nil response with the error
    of [Do] and prints one line, [erro: ] followed by that error; if the
    server answers (with a usable [Location]) nothing is printed. *)
Theorem network_failure_reported (env : Env) (c : client)
    (request : Go.Request) (r : option loc) (w : World) :
  CheckRedirect (c_http c) = Some useLastResponse ->
  (2 <= fuel env)%nat ->
  valid_ref w r ->
  exists req,
    wire (snd (sendRequest env c request r w)) = wire w ++ [req]
    /\ (forall e,
          round_trip env (wire w) req = inr e ->
          fst (sendRequest env c request r w)
          = Done (None, Some (url_Error env [req] e))
          /\ stdout (snd (sendRequest env c request r w))
             = stdout w ++ ["erro: " +:+ Error (url_Error env [req] e)])
    /\ (forall resp,
          round_trip env (wire w) req = inl resp ->
          location_ok env resp ->
          stdout (snd (sendRequest env c request r w)) = stdout w).
Proof.
  intros Hpolicy Hfuel Hvalid.
  exists (prepared env c request r w).
  split; [by apply sendRequest_no_follow_wire|].
  rewrite sendRequest_no_follow by done. split.
  - intros e ->. cbn [first_answer finish]. unfold bind, Println, ret.
    cbn [fst snd stdout with_wire]. by rewrite stdout_before_Do.
  - intros resp -> Hloc. rewrite first_answer_location_ok by done.
    cbn. by rewrite stdout_before_Do.
Qed.

Lemma network_failure_reported_witness :
  (2 <= fuel unreachable_env)%nat
  /\ exists req,
       wire (snd (sendRequest unreachable_env keyed_client
                    (GET_request balances_url) None Testbed.empty_world))
       = [] ++ [req]
       /\ stdout (snd (sendRequest unreachable_env keyed_client
                         (GET_request balances_url) None Testbed.empty_world))
          = [] ++ ["erro: "
                   +:+ Error (url_Error unreachable_env [req]
                                (errorString "connection refused"))].
Proof.
  assert (2 <= fuel unreachable_env)%nat as Hfuel by (cbn; lia).
  split; [exact Hfuel|].
  destruct (network_failure_reported unreachable_env keyed_client
              (GET_request balances_url) None Testbed.empty_world
              eq_refl Hfuel I) as (req & Hwire & Hfail & _).
  exists req. split; [exact Hwire|].
  apply (Hfail (errorString "connection refused")). reflexivity.
Defined.

End TransportProps.

(* ===================================================================== *)
(** * Further properties: what is sent *)
(* ===================================================================== *)

Module SendingProps.

Import Go Gop2b Spec Fixtures SpecMore MoreFixtures.
Import RunFacts TransportFacts HeaderFacts PostFacts WireFacts.
Import PostClaims RedirectClaims.
Import TransportProps.

Section Sending.

Context (env : Env).

Lemma maps_kept c request r w l :
  valid_ref w r ->
  (l < length (maps w))%nat -> r <> Some l ->
  maps (snd (sendRequest env c request r w)) !! l = maps w !! l.
Proof.
  intros Hvalid Hl Hne.
  destruct (sendRequest_effect env c request r w Hvalid) as (-> & _).
  destruct r as [f|]; cbn [before_Do with_iters with_maps maps].
  - rewrite lookup_app_l by (by rewrite length_insert).
    rewrite list_lookup_insert_ne; [done|]. by intros ->.
  - by rewrite lookup_app_l.
Qed.

Lemma maps_grow c request r w :
  valid_ref w r ->
  (length (maps w) <= length (maps (snd (sendRequest env c request r w))))%nat.
Proof.
  intros Hvalid.
  destruct (sendRequest_effect env c request r w Hvalid) as (-> & _).
  destruct r as [f|]; cbn [before_Do with_iters with_maps maps];
    rewrite length_app, ?length_insert; lia.
Qed.

Lemma copies_positive v (l : list string) : (1 <= copies v l)%nat -> v ∈ l.
Proof.
  unfold copies. intros H.
  destruct (filter (fun x => x = v) l) as [|x l'] eqn:E; [cbn in H; lia|].
  assert (x ∈ filter (fun x => x = v) l) as Hx by (rewrite E; by left).
  apply list_elem_of_filter in Hx as [-> ?]. done.
Qed.



Lemma sendGet_world c url r w :
  snd (sendGet env c url r w) = w
  \/ snd (sendGet env c url r w)
     = snd (sendRequest env c (GET_request url) r w).
Proof.
  destruct (url_parse env url) as [e|] eqn:Hurl.
  - left. unfold sendGet, NewRequest. by rewrite Hurl.
  - right. by rewrite sendGet_run.
Qed.

Lemma sendPost_world c url r body w :
  valid_ref w r ->
  snd (sendPost env c url r body w) = w
  \/ exists bodyBytes,
       snd (sendPost env c url r body w)
       = snd (sendRequest env c (POST_request url bodyBytes)
                (post_ref r w) (post_world c bodyBytes r w)).
Proof.
  intros Hvalid.
  destruct (io_ReadAll body) as [data [e|]] eqn:Hread.
  { left. unfold sendPost. by rewrite Hread. }
  destruct (url_parse env url) as [e|] eqn:Hurl.
  { left. unfold sendPost, NewRequest. by rewrite Hread, Hurl. }
  right. exists data. by rewrite (sendPost_run env c url r body data).
Qed.

Lemma post_world_length c bodyBytes r w :
  (length (maps w) <= length (maps (post_world c bodyBytes r w)))%nat.
Proof.
  destruct r as [f|]; cbn [post_world with_maps maps];
    rewrite ?length_insert, ?length_app; lia.
Qed.

Lemma post_maps_kept c request bodyBytes r w l :
  valid_ref w r ->
  (l < length (maps w))%nat -> r <> Some l ->
  maps (snd (sendRequest env c request (post_ref r w)
               (post_world c bodyBytes r w))) !! l
  = maps w !! l.
Proof.
  intros Hvalid Hl Hne. rewrite maps_kept.
  - destruct r as [f|]; cbn [post_world with_maps maps].
    + rewrite list_lookup_insert_ne; [done|]. by intros ->.
    + by rewrite lookup_app_l.
  - by apply post_ref_valid.
  - pose proof (post_world_length c bodyBytes r w). lia.
  - destruct r as [f|]; cbn [post_ref]; [done|]. intros [= <-]. lia.
Qed.

Lemma post_maps_grow c request bodyBytes r w :
  valid_ref w r ->
  (length (maps w)
   <= length (maps (snd (sendRequest env c request (post_ref r w)
                           (post_world c bodyBytes r w)))))%nat.
Proof.
  intros Hvalid. etransitivity; [apply (post_world_length c bodyBytes r w)|].
  apply maps_grow. by apply post_ref_valid.
Qed.

Lemma post_ticks c request bodyBytes r w :
  valid_ref w r ->
  ticks (snd (sendRequest env c request (post_ref r w)
                (post_world c bodyBytes r w)))
  = ticks w.
Proof.
  intros Hvalid.
  destruct (sendRequest_effect env c request (post_ref r w)
              (post_world c bodyBytes r w)) as (_ & -> & _).
  - by apply post_ref_valid.
  - by destruct r.
Qed.

Lemma computed_same_name c k key x :
  key = "Content-type" \/ key = HeaderXTxcAPIKey ->
  CanonicalMIMEHeaderKey k = CanonicalMIMEHeaderKey key ->
  computed c !! k = Some x ->
  k = key.
Proof.
  intros Hkey HK Hk.
  destruct (computed_lookup c k x Hk) as [[-> _]|(a & _ & -> & _)];
    destruct Hkey as [-> | ->]; try done;
    by rewrite canonical_Content_type, canonical_APIKey in HK.
Qed.

End Sending.



(** X8. [sendPost] and [sendGet] write to no header map but the one they
    are given: every map of the caller other than the one passed is after
    the call what it was before, no map is removed, and the clock is not
    read. With nil headers no map of the caller changes at all. *)
Theorem transport_touches_one_map (env : Env) (c : client) (url : string)
    (r : option loc) (body : ReadCloser) (w : World) :
  valid_ref w r ->
  (forall l, (l < length (maps w))%nat -> r <> Some l ->
     maps (snd (sendPost env c url r body w)) !! l = maps w !! l
     /\ maps (snd (sendGet env c url r w)) !! l = maps w !! l)
  /\ (length (maps w) <= length (maps (snd (sendPost env c url r body w))))%nat
  /\ (length (maps w) <= length (maps (snd (sendGet env c url r w))))%nat
  /\ ticks (snd (sendPost env c url r body w)) = ticks w
  /\ ticks (snd (sendGet env c url r w)) = ticks w.
Proof.
  intros Hvalid.
  destruct (sendGet_world env c url r w) as [Hg|Hg];
    destruct (sendPost_world env c url r body w Hvalid)
      as [Hp|(bodyBytes & Hp)];
    rewrite Hg, Hp; clear Hg Hp.
  all: repeat split; intros;
    auto using maps_kept, maps_grow, post_maps_kept, post_maps_grow,
      post_ticks.
  all: by apply sendRequest_effect.
Qed.

Lemma transport_touches_one_map_witness :
  maps (snd (sendPost quiet_env keyed_client balances_url (Some 1%nat)
               empty_object two_maps)) !! 0%nat
  = Some {[ "Accept" := "text/html" ]}.
Proof.
  assert (valid_ref two_maps (Some 1%nat)) as Hvalid by (cbn; lia).
  destruct (transport_touches_one_map quiet_env keyed_client balances_url
              (Some 1%nat) empty_object two_maps Hvalid) as (Hkept & _).
  destruct (Hkept 0%nat) as (Hpost & _); [cbn; lia|discriminate|].
  exact Hpost.
Defined.

(** X9. [sendRequest] changes nothing of the request but its header, and
    there it only adds: the request on the wire has the method, the URL
    and the body of the one passed in, and under every header name the
    values the request already had come first, in their order. *)
Theorem sendRequest_only_adds (env : Env) (c : client)
    (request : Go.Request) (r : option loc) (w : World) :
  valid_ref w r ->
  (1 <= fuel env)%nat ->
  exists req more,
    wire (snd (sendRequest env c request r w)) = wire w ++ req :: more
    /\ Go.Method req = Go.Method request
    /\ URL req = URL request
    /\ ReqBody req = ReqBody request
    /\ forall K, exists added,
         stored (ReqHeader req) K = stored (ReqHeader request) K ++ added.
Proof.
  intros Hvalid Hfuel.
  destruct (sendRequest_effect env c request r w Hvalid)
    as (_ & _ & Hwire).
  destruct (Hwire Hfuel) as (more & ->).
  eexists _, more. split; [reflexivity|].
  destruct (prepared_fields env c request r w) as (-> & -> & ->).
  repeat split. intros K. rewrite stored_prepared. eauto.
Qed.

Lemma sendRequest_only_adds_witness :
  exists req more,
    wire (snd (sendRequest quiet_env keyed_client
                 (POST_request balances_url (list_byte_of_string "{}"))
                 (Some 0%nat) custom_header))
    = req :: more
    /\ Go.Method req = "POST"
    /\ URL req = balances_url
    /\ ReqBody req = Some (list_byte_of_string "{}").
Proof.
  assert (valid_ref custom_header (Some 0%nat)) as Hvalid by (cbn; lia).
  assert (1 <= fuel quiet_env)%nat as Hfuel by (cbn; lia).
  destruct (sendRequest_only_adds quiet_env keyed_client
              (POST_request balances_url (list_byte_of_string "{}"))
              (Some 0%nat) custom_header Hvalid Hfuel)
    as (req & more & Hwire & Hmethod & Hurl & Hbody & _).
  exists req, more. auto.
Defined.

(** X10. A header the caller sets under the exact name [sendRequest] uses
    ([Content-type], [X-TXC-APIKEY]) with a non-empty value replaces the
    computed one on the wire: every value sent under that name was
    already in the request or is one the caller supplied. When the
    caller's entry under the exact name is missing or empty, the computed
    value is sent, and an entry the caller has under another spelling of
    the name is sent beside it. *)
Theorem caller_header_replaces_computed (env : Env) (c : client)
    (request : Go.Request) (r : option loc) (w : World) (key : string) :
  valid_ref w r ->
  (1 <= fuel env)%nat ->
  key = "Content-type" \/ key = HeaderXTxcAPIKey ->
  exists req more,
    wire (snd (sendRequest env c request r w)) = wire w ++ req :: more
    /\ (forall v,
          deref w r !! key = Some v -> v <> "" ->
          forall x,
            x ∈ Header_Values (ReqHeader req) key ->
            x ∈ Header_Values (ReqHeader request) key
            \/ exists k, CanonicalMIMEHeaderKey k = CanonicalMIMEHeaderKey key
                         /\ deref w r !! k = Some x)
    /\ (forall x,
          default "" (deref w r !! key) = "" ->
          computed c !! key = Some x ->
          x ∈ Header_Values (ReqHeader req) key
          /\ forall k v,
               CanonicalMIMEHeaderKey k = CanonicalMIMEHeaderKey key ->
               k <> key -> deref w r !! k = Some v ->
               v ∈ Header_Values (ReqHeader req) key).
Proof.
  intros Hvalid Hfuel Hkey.
  destruct (sendRequest_effect env c request r w Hvalid)
    as (_ & _ & Hwire).
  destruct (Hwire Hfuel) as (more & ->).
  eexists _, more. split; [reflexivity|]. split.
  - intros v Hv Hne x Hx.
    rewrite !Header_Values_stored in *.
    rewrite stored_prepared in Hx.
    apply elem_of_app in Hx as [Hx|Hx]; [by left|]. right.
    apply elem_of_app in Hx as [Hx|Hx];
      apply elem_of_values_for in Hx as (k & HK & Hk).
    + exists k. split; [done|]. by apply (elem_of_first_entries env r w).
    + apply (elem_of_second_entries env c r w) in Hk.
      destruct (merged_lookup_Some _ _ _ _ Hk) as [Hcaller|Hcomputed];
        [by eauto|].
      assert (k = key) as ->
        by (by apply (computed_same_name c k key x)).
      rewrite (merged_lookup_kept _ _ _ _ Hv Hne) in Hk.
      injection Hk as <-. eauto.
  - intros x Hempty Hx. split; [by apply prepared_computed|].
    intros k v HK Hne Hk.
    rewrite Header_Values_stored, <- HK, <- Header_Values_stored.
    apply copies_positive.
    assert (computed c !! k = None) as Hnone.
    { destruct (computed c !! k) as [y|] eqn:Hy; [|done].
      destruct Hne. by apply (computed_same_name c k key y). }
    pose proof (prepared_twice env c request r w k v Hk (or_intror Hnone))
      as (_ & _ & ?).
    lia.
Qed.

Lemma caller_header_replaces_computed_witness :
  exists req more,
    wire (snd (sendRequest quiet_env keyed_client (GET_request balances_url)
                 (Some 1%nat) two_maps))
    = req :: more
    /\ forall x,
         x ∈ Header_Values (ReqHeader req) "Content-type" ->
         x ∈ Header_Values (ReqHeader (GET_request balances_url))
               "Content-type"
         \/ exists k, CanonicalMIMEHeaderKey k
                      = CanonicalMIMEHeaderKey "Content-type"
                      /\ deref two_maps (Some 1%nat) !! k = Some x.
Proof.
  assert (valid_ref two_maps (Some 1%nat)) as Hvalid by (cbn; lia).
  assert (1 <= fuel quiet_env)%nat as Hfuel by (cbn; lia).
  destruct (caller_header_replaces_computed quiet_env keyed_client
              (GET_request balances_url) (Some 1%nat) two_maps
              "Content-type" Hvalid Hfuel (or_introl eq_refl))
    as (req & more & Hwire & Hkept & _).
  exists req, more. split; [exact Hwire|].
  apply (Hkept "text/plain"); [reflexivity|discriminate].
Defined.

(** X11. With a client made by [NewClient] or [newClientWithURL] the
    transport always returns, and never a nil response together with a
    nil error: [sendPost] and [sendGet] end without a panic whatever the
    server does, and when the error is nil the response is there and has
    a body to read. *)
Theorem built_client_always_answers (env : Env)
    (url0 apiKey apiSecret : string) (c : client) :
  newClientWithURL url0 apiKey apiSecret = (Some c, None)
  \/ NewClient apiKey apiSecret = (Some c, None) ->
  (2 <= fuel env)%nat ->
  forall url r body w,
    valid_ref w r ->
    (exists res w',
       sendPost env c url r body w = (Done res, w') /\ well_formed res)
    /\ (exists res w',
          sendGet env c url r w = (Done res, w') /\ well_formed res).
Proof.
  intros Hbuilt Hfuel url r body w Hvalid.
  assert (CheckRedirect (c_http c) = Some useLastResponse) as Hpolicy.
  { destruct Hbuilt as [Hb|Hb]; injection Hb as <-; reflexivity. }
  split.
  - destruct (io_ReadAll body) as [data [e|]] eqn:Hread.
    + unfold sendPost. rewrite Hread. by eexists _, _.
    + by apply (EndpointClaims.sendPost_built env c url r body data).
  - destruct (url_parse env url) as [e|] eqn:Hurl.
    + unfold sendGet, NewRequest. rewrite Hurl. by eexists _, _.
    + rewrite sendGet_run by done. by apply sendRequest_built.
Qed.

Lemma built_client_always_answers_witness :
  exists res w',
    sendGet redirecting_env keyed_client balances_url None Testbed.empty_world
    = (Done res, w')
    /\ well_formed res.
Proof.
  assert (2 <= fuel redirecting_env)%nat as Hfuel by (cbn; lia).
  destruct (built_client_always_answers redirecting_env "" "K" "S"
              keyed_client (or_intror eq_refl) Hfuel balances_url None
              empty_object Testbed.empty_world I) as (_ & Hget).
  exact Hget.
Defined.

End SendingProps.

(* ===================================================================== *)
(** * Further properties: the endpoints *)
(* ===================================================================== *)

Module EndpointProps.

Import Go Gop2b Spec Fixtures SpecMore MoreFixtures.
Import RunFacts TransportFacts HeaderFacts PostFacts WireFacts.
Import PostClaims RedirectClaims EndpointClaims NonceClaims.

Section Answers.

Context (env : Env).

Lemma sendPost_no_follow c url bodyBytes w :
  CheckRedirect (c_http c) = Some useLastResponse ->
  (2 <= fuel env)%nat ->
  url_parse env url = None ->
  sendPost env c url None (bytes_NewReader bodyBytes) w
  = finish
      (first_answer env (sent env c url bodyBytes w)
         (round_trip env (wire w) (sent env c url bodyBytes w)))
      (answered env c url bodyBytes w).
Proof.
  intros Hpolicy Hfuel Hurl.
  rewrite (sendPost_run env c url None _ bodyBytes) by done.
  rewrite sendRequest_no_follow; [done..| |done].
  by apply post_ref_valid.
Qed.

Lemma first_answer_200 req resp :
  Go.StatusCode resp = 200 ->
  first_answer env req (inl resp) = (Some resp, None).
Proof.
  intros Hcode. unfold first_answer, redirectBehavior. by rewrite Hcode.
Qed.

Lemma endpoint_answered_200 {Req Resp} c url (request : Req)
    (decode : list byte -> Resp * option error) bodyBytes w resp :
  CheckRedirect (c_http c) = Some useLastResponse ->
  (2 <= fuel env)%nat ->
  url_parse env url = None ->
  round_trip env (wire w) (sent env c url bodyBytes w) = inl resp ->
  Go.StatusCode resp = 200 ->
  bind (sendPost env c url None (bytes_NewReader bodyBytes))
       (after_post request decode) w
  = after_post request decode (Some (response_of resp), None)
      (answered env c url bodyBytes w).
Proof.
  intros Hpolicy Hfuel Hurl Hanswer Hcode.
  unfold bind at 1. rewrite sendPost_no_follow by done.
  rewrite Hanswer, first_answer_200 by done.
  reflexivity.
Qed.

Lemma endpoint_answered {Req Resp} c url (request : Req)
    (decode : list byte -> Resp * option error) bodyBytes w resp :
  CheckRedirect (c_http c) = Some useLastResponse ->
  (2 <= fuel env)%nat ->
  url_parse env url = None ->
  round_trip env (wire w) (sent env c url bodyBytes w) = inl resp ->
  location_ok env resp ->
  bind (sendPost env c url None (bytes_NewReader bodyBytes))
       (after_post request decode) w
  = after_post request decode (Some (response_of resp), None)
      (answered env c url bodyBytes w).
Proof.
  intros Hpolicy Hfuel Hurl Hanswer Hloc.
  unfold bind at 1. rewrite sendPost_no_follow by done.
  rewrite Hanswer, first_answer_location_ok by done.
  reflexivity.
Qed.

Lemma endpoint_unanswered {Req Resp} c url (request : Req)
    (decode : list byte -> Resp * option error) bodyBytes w e :
  CheckRedirect (c_http c) = Some useLastResponse ->
  (2 <= fuel env)%nat ->
  url_parse env url = None ->
  round_trip env (wire w) (sent env c url bodyBytes w) = inr e ->
  fst (bind (sendPost env c url None (bytes_NewReader bodyBytes))
         (after_post request decode) w)
  = Done (request,
          (None, Some (url_Error env [sent env c url bodyBytes w] e))).
Proof.
  intros Hpolicy Hfuel Hurl Hanswer.
  unfold bind at 1. rewrite sendPost_no_follow by done.
  rewrite Hanswer. reflexivity.
Qed.

Lemma endpoint_sent {Req Resp} c url (request : Req)
    (decode : list byte -> Resp * option error) bodyBytes w :
  CheckRedirect (c_http c) = Some useLastResponse ->
  (2 <= fuel env)%nat ->
  url_parse env url = None ->
  wire (snd (bind (sendPost env c url None (bytes_NewReader bodyBytes))
               (after_post request decode) w))
  = wire w ++ [sent env c url bodyBytes w].
Proof.
  intros Hpolicy Hfuel Hurl.
  unfold bind at 1.
  destruct (sendPost env c url None (bytes_NewReader bodyBytes) w)
    as [[r|msg|] w1] eqn:Hpost; cbn [snd].
  1: rewrite after_post_frame.
  all: replace w1
    with (snd (sendPost env c url None (bytes_NewReader bodyBytes) w))
    by (by rewrite Hpost).
  all: rewrite (sendPost_run env c url None _ bodyBytes) by done.
  all: rewrite sendRequest_no_follow_wire; [done..| |done].
  all: by apply post_ref_valid.
Qed.

Lemma after_post_200 {Req Resp} (request : Req)
    (decode : list byte -> Resp * option error) resp bodyBytes w :
  io_ReadAll (Go.Body resp) = (bodyBytes, None) ->
  Go.StatusCode resp = 200 ->
  after_post request decode (Some (response_of resp), None) w
  = (Done (request, decoded decode bodyBytes), w).
Proof.
  intros Hread Hcode.
  unfold after_post, read_body, bind, ret. cbn [response_of Body].
  rewrite Hread.
  assert (checkHTTPStatus (response_of resp) [StatusOK] = None) as ->.
  { unfold checkHTTPStatus. apply StatusFacts.checkHTTPStatus_loop_found.
    cbn [response_of StatusCode]. rewrite Hcode. by left. }
  unfold decoded. by destruct (decode bodyBytes) as [result [err|]].
Qed.

Lemma after_post_unread {Req Resp} (request : Req)
    (decode : list byte -> Resp * option error) resp data e w :
  io_ReadAll (Go.Body resp) = (data, Some e) ->
  after_post request decode (Some (response_of resp), None) w
  = (Done (request, (None, Some e)), w).
Proof.
  intros Hread.
  unfold after_post, read_body, bind, ret. cbn [response_of Body].
  by rewrite Hread.
Qed.

End Answers.

(** X12. An endpoint decodes what a 200 response carries: with a client
    that does not follow redirects (as [NewClient] makes them) one request
    goes out, and when the server answers it with status 200 and a body
    that can be read, [PostBalances] and [PostCurrencyBalance] return the
    decoded body with a nil error, or a nil result with the decoder's
    error when the body does not decode. *)
Theorem endpoints_decode_200 (env : Env)
    (decode_balances : list byte -> AccountBalancesResp * option error)
    (decode_currency : list byte -> AccountCurrencyBalanceResp * option error)
    (c : client) (w : World) :
  CheckRedirect (c_http c) = Some useLastResponse ->
  (2 <= fuel env)%nat ->
  url_parse env (c_url c +:+ "/account/balances") = None ->
  url_parse env (c_url c +:+ "/account/balance") = None ->
  (forall request, exists req,
     wire (snd (PostBalances env decode_balances c request w))
     = wire w ++ [req]
     /\ forall resp bodyBytes,
          round_trip env (wire w) req = inl resp ->
          Go.StatusCode resp = 200 ->
          io_ReadAll (Go.Body resp) = (bodyBytes, None) ->
          fst (PostBalances env decode_balances c request w)
          = Done (request, decoded decode_balances bodyBytes))
  /\ (forall request, exists req,
        wire (snd (PostCurrencyBalance env decode_currency c request w))
        = wire w ++ [req]
        /\ forall resp bodyBytes,
             round_trip env (wire w) req = inl resp ->
             Go.StatusCode resp = 200 ->
             io_ReadAll (Go.Body resp) = (bodyBytes, None) ->
             fst (PostCurrencyBalance env decode_currency c request w)
             = Done (stamped env w request,
                     decoded decode_currency bodyBytes)).
Proof.
  intros Hpolicy Hfuel Hurl1 Hurl2. split; intros request.
  - rewrite PostBalances_run. eexists. split; [by apply endpoint_sent|].
    intros resp bodyBytes Hanswer Hcode Hread.
    rewrite (endpoint_answered_200 env c _ _ _ _ w resp) by done.
    by rewrite (after_post_200 _ _ resp bodyBytes).
  - rewrite PostCurrencyBalance_run.
    exists (sent env c (c_url c +:+ "/account/balance")
              (currency_body env (stamped env w request)) (tick w)).
    split; [by rewrite endpoint_sent|].
    intros resp bodyBytes Hanswer Hcode Hread.
    rewrite (endpoint_answered_200 env c _ _ _ _ (tick w) resp) by done.
    by rewrite (after_post_200 _ _ resp bodyBytes).
Qed.

Lemma endpoints_decode_200_witness :
  fst (PostCurrencyBalance ok_env any_balance keyed_client btc_request
         Testbed.empty_world)
  = Done (stamped ok_env Testbed.empty_world btc_request,
          decoded any_balance (list_byte_of_string "{}")).
Proof.
  assert (2 <= fuel ok_env)%nat as Hfuel by (cbn; lia).
  destruct (endpoints_decode_200 ok_env any_balances any_balance keyed_client
              Testbed.empty_world eq_refl Hfuel eq_refl eq_refl)
    as (_ & Hcurrency).
  destruct (Hcurrency btc_request) as (req & _ & Hdecoded).
  apply (Hdecoded ok_empty); reflexivity.
Defined.

(** X13. An endpoint hands failures on as they are: when the exchange
    with the server fails it returns a nil result and the error of [Do],
    and when the body of the response cannot be read it returns a nil
    result and the read error, whatever the status of the response is,
    since the body is read before the status is looked at. *)
Theorem endpoints_hand_on_failures (env : Env)
    (decode_balances : list byte -> AccountBalancesResp * option error)
    (decode_currency : list byte -> AccountCurrencyBalanceResp * option error)
    (c : client) (w : World) :
  CheckRedirect (c_http c) = Some useLastResponse ->
  (2 <= fuel env)%nat ->
  url_parse env (c_url c +:+ "/account/balances") = None ->
  url_parse env (c_url c +:+ "/account/balance") = None ->
  (forall request, exists req,
     wire (snd (PostBalances env decode_balances c request w))
     = wire w ++ [req]
     /\ (forall e,
           round_trip env (wire w) req = inr e ->
           fst (PostBalances env decode_balances c request w)
           = Done (request, (None, Some (url_Error env [req] e))))
     /\ (forall resp data e,
           round_trip env (wire w) req = inl resp ->
           location_ok env resp ->
           io_ReadAll (Go.Body resp) = (data, Some e) ->
           fst (PostBalances env decode_balances c request w)
           = Done (request, (None, Some e))))
  /\ (forall request, exists req,
        wire (snd (PostCurrencyBalance env decode_currency c request w))
        = wire w ++ [req]
        /\ (forall e,
              round_trip env (wire w) req = inr e ->
              fst (PostCurrencyBalance env decode_currency c request w)
              = Done (stamped env w request,
                      (None, Some (url_Error env [req] e))))
        /\ (forall resp data e,
              round_trip env (wire w) req = inl resp ->
              location_ok env resp ->
              io_ReadAll (Go.Body resp) = (data, Some e) ->
              fst (PostCurrencyBalance env decode_currency c request w)
              = Done (stamped env w request, (None, Some e)))).
Proof.
  intros Hpolicy Hfuel Hurl1 Hurl2. split; intros request.
  - rewrite PostBalances_run. eexists.
    split; [by apply endpoint_sent|]. split.
    + intros e Hanswer. by apply endpoint_unanswered.
    + intros resp data e Hanswer Hloc Hread.
      rewrite (endpoint_answered env c _ _ _ _ w resp) by done.
      by rewrite (after_post_unread _ _ resp data e).
  - rewrite PostCurrencyBalance_run.
    exists (sent env c (c_url c +:+ "/account/balance")
              (currency_body env (stamped env w request)) (tick w)).
    split; [by rewrite endpoint_sent|]. split.
    + intros e Hanswer.
      by apply (endpoint_unanswered env c _ _ _ _ (tick w)).
    + intros resp data e Hanswer Hloc Hread.
      rewrite (endpoint_answered env c _ _ _ _ (tick w) resp) by done.
      by rewrite (after_post_unread _ _ resp data e).
Qed.

Lemma endpoints_hand_on_failures_witness :
  exists req,
    wire (snd (PostBalances unreachable_env any_balances keyed_client
                 some_request Testbed.empty_world))
    = [] ++ [req]
    /\ fst (PostBalances unreachable_env any_balances keyed_client
              some_request Testbed.empty_world)
       = Done (some_request,
               (None,
                Some (url_Error unreachable_env [req]
                        (errorString "connection refused")))).
Proof.
  assert (2 <= fuel unreachable_env)%nat as Hfuel by (cbn; lia).
  destruct (endpoints_hand_on_failures unreachable_env any_balances
              any_balance keyed_client Testbed.empty_world eq_refl Hfuel
              eq_refl eq_refl) as (Hbalances & _).
  destruct (Hbalances some_request) as (req & Hwire & Hfail & _).
  exists req. split; [exact Hwire|].
  apply Hfail. reflexivity.
Defined.

(** X14. When the address of an endpoint is not a URL, the endpoint
    returns a nil result and an error that says the POST request could
    not be created and carries the parse error; nothing is sent, no
    header map is made and nothing is printed. [PostCurrencyBalance] has
    by then read the clock and stamped the caller's request. *)
Theorem endpoints_reject_bad_address (env : Env)
    (decode_balances : list byte -> AccountBalancesResp * option error)
    (decode_currency : list byte -> AccountCurrencyBalanceResp * option error)
    (c : client) (w : World) :
  (forall e request,
     url_parse env (c_url c +:+ "/account/balances") = Some e ->
     PostBalances env decode_balances c request w
     = (Done (request,
              (None,
               Some (errorString
                       ("error creating POST request, " +:+ Error e)))),
        w))
  /\ (forall e request,
        url_parse env (c_url c +:+ "/account/balance") = Some e ->
        PostCurrencyBalance env decode_currency c request w
        = (Done (stamped env w request,
                 (None,
                  Some (errorString
                          ("error creating POST request, " +:+ Error e)))),
           tick w)).
Proof.
  split; intros e request Hurl.
  - rewrite PostBalances_run. unfold bind at 1, sendPost, NewRequest.
    cbn [io_ReadAll bytes_NewReader read_error content]. by rewrite Hurl.
  - rewrite PostCurrencyBalance_run. unfold bind at 1, sendPost, NewRequest.
    cbn [io_ReadAll bytes_NewReader read_error content]. by rewrite Hurl.
Qed.

Lemma endpoints_reject_bad_address_witness :
  exists e,
    PostBalances quiet_env any_balances unparsable_client some_request
      Testbed.empty_world
    = (Done (some_request,
             (None,
              Some (errorString
                      ("error creating POST request, " +:+ Error e)))),
       Testbed.empty_world).
Proof.
  destruct (endpoints_reject_bad_address quiet_env any_balances any_balance
              unparsable_client Testbed.empty_world) as (Hbalances & _).
  eexists. apply Hbalances. reflexivity.
Defined.

Lemma UnixMilli_plausible (t : Time) : plausible t -> UnixMilli t = millis t.
Proof.
  intros [Hn Hs]. unfold UnixMilli, millis, wrap64.
  rewrite Z.quot_div_nonneg by lia.
  assert (0 <= nsec t / 1000000 < 1000) as Hms.
  { split; [apply Z.div_pos; lia|apply Z.div_lt_upper_bound; lia]. }
  assert (2 ^ 50 = 1125899906842624) as E50 by reflexivity.
  assert (2 ^ 63 = 9223372036854775808) as E63 by reflexivity.
  assert (2 ^ 64 = 18446744073709551616) as E64 by reflexivity.
  rewrite E50 in Hs. rewrite E63, E64.
  rewrite (Z.mod_small (unixSec t * 1000 + _)) by lia.
  rewrite Z.mod_small by lia. lia.
Qed.

(** X15. The nonce [PostCurrencyBalance] sends is the time of the call in
    whole milliseconds: for a clock reading of this era the stamped
    request carries the decimal of seconds times 1000 plus the elapsed
    milliseconds of the second, so two calls get the same nonce exactly
    when they fall into the same millisecond. What the caller had put
    into [Nonce] and [Request] plays no part: two requests for the same
    currency are treated alike. *)
Theorem nonce_is_the_millisecond (env : Env)
    (decode_currency : list byte -> AccountCurrencyBalanceResp * option error)
    (c : client) :
  CheckRedirect (c_http c) = Some useLastResponse ->
  (2 <= fuel env)%nat ->
  (forall request w,
     plausible (now env (ticks w)) ->
     exists res w',
       PostCurrencyBalance env decode_currency c request w
       = (Done ({| currency_Request :=
                     {| Request_ := "/api/v2/account/balance";
                        Nonce := FormatInt10 (millis (now env (ticks w))) |};
                   Currency := Currency request |},
                res),
          w'))
  /\ (forall request1 w1 request2 w2 stamped1 res1 w1' stamped2 res2 w2',
        plausible (now env (ticks w1)) ->
        plausible (now env (ticks w2)) ->
        PostCurrencyBalance env decode_currency c request1 w1
        = (Done (stamped1, res1), w1') ->
        PostCurrencyBalance env decode_currency c request2 w2
        = (Done (stamped2, res2), w2') ->
        (Nonce (currency_Request stamped1) = Nonce (currency_Request stamped2)
         <-> millis (now env (ticks w1)) = millis (now env (ticks w2))))
  /\ (forall request1 request2 w,
        Currency request1 = Currency request2 ->
        PostCurrencyBalance env decode_currency c request1 w
        = PostCurrencyBalance env decode_currency c request2 w).
Proof.
  intros Hpolicy Hfuel. split; [|split].
  - intros request w Hplausible.
    destruct (endpoints_return env (fun _ => no_balances [])
                decode_currency c w Hpolicy Hfuel) as (Hreturn & _).
    destruct (Hreturn request) as (res & w' & Hrun).
    exists res, w'. rewrite Hrun. unfold stamped.
    by rewrite UnixMilli_plausible.
  - intros request1 w1 request2 w2 stamped1 res1 w1' stamped2 res2 w2'
      Hp1 Hp2 Hrun1 Hrun2.
    apply PostCurrencyBalance_returns in Hrun1 as ->.
    apply PostCurrencyBalance_returns in Hrun2 as ->.
    cbn [stamped currency_Request Nonce].
    rewrite !UnixMilli_plausible by done. unfold FormatInt10.
    split; [apply pretty_Z_inj|by intros ->].
  - intros request1 request2 w Hcurrency.
    rewrite !PostCurrencyBalance_run. unfold stamped. by rewrite Hcurrency.
Qed.

Lemma nonce_is_the_millisecond_witness :
  exists res w',
    PostCurrencyBalance quiet_env any_balance keyed_client btc_request
      Testbed.empty_world
    = (Done ({| currency_Request :=
                  {| Request_ := "/api/v2/account/balance";
                     Nonce := "1700000000000" |};
                Currency := "BTC" |},
             res),
       w').
Proof.
  assert (2 <= fuel quiet_env)%nat as Hfuel by (cbn; lia).
  assert (plausible (now quiet_env (ticks Testbed.empty_world))) as Hplausible
    by (split; cbn; lia).
  destruct (nonce_is_the_millisecond quiet_env any_balance keyed_client
              eq_refl Hfuel) as (Hstamp & _).
  exact (Hstamp btc_request Testbed.empty_world Hplausible).
Defined.

End EndpointProps.

(* ===================================================================== *)
(** * Further properties: the header of an endpoint's request *)
(* ===================================================================== *)

Module HeaderProps.

Import Go Gop2b Spec Fixtures SpecMore MoreFixtures.
Import RunFacts TransportFacts HeaderFacts PostFacts WireFacts.
Import PostClaims RedirectClaims EndpointClaims NonceClaims.
Import EndpointProps.





Section Header.

Context (env : Env).




End Header.




End HeaderProps.

(* ===================================================================== *)
(** * Further properties: the shape of the payload and the signature *)
(* ===================================================================== *)

Module ShapeProps.

Import Go Gop2b Spec Fixtures SpecMore MoreFixtures.
Import RunFacts TransportFacts HeaderFacts PostFacts WireFacts.
Import PostClaims.

(** ** Hexadecimal *)

Lemma hex_length (src : list byte) :
  String.length (Bytes.hex_EncodeToString src) = (2 * length src)%nat.
Proof.
  induction src as [|b src IH]; [done|].
  cbn [Bytes.hex_EncodeToString String.length length]. rewrite IH. lia.
Qed.

Lemma hex_digits (b : byte) :
  lower_hex_char (Bytes.char_at Bytes.hextable (Z.shiftr (Bytes.to_Z b) 4))
  && lower_hex_char (Bytes.char_at Bytes.hextable (Z.land (Bytes.to_Z b) 15))
  = true.
Proof. destruct b; vm_compute; reflexivity. Qed.

Lemma hex_chars (src : list byte) :
  all_chars lower_hex_char (Bytes.hex_EncodeToString src) = true.
Proof.
  induction src as [|b src IH]; [done|].
  cbn [Bytes.hex_EncodeToString all_chars].
  pose proof (hex_digits b) as H. apply andb_true_iff in H as [-> ->].
  by rewrite IH.
Qed.

(** ** Base64 *)

Lemma b64_char (v shift : Z) : base64_char (Bytes.b64 v shift) = true.
Proof.
  unfold Bytes.b64.
  assert (0 <= Z.land (Z.shiftr v shift) 63 < 64) as Hrange.
  { change 63 with (Z.ones 6). rewrite Z.land_ones by lia.
    apply Z.mod_pos_bound. lia. }
  generalize dependent (Z.land (Z.shiftr v shift) 63). intros i Hi.
  rewrite <- (Z2Nat.id i) by lia.
  assert (Z.to_nat i < 64)%nat as Hn by lia.
  generalize dependent (Z.to_nat i). clear. intros n Hn.
  do 64 (destruct n as [|n]; [vm_compute; reflexivity|]). lia.
Qed.

Lemma base64_shape : forall (n : nat) (src : list byte),
  (length src <= n)%nat ->
  String.length (Bytes.base64_EncodeToString src)
  = (4 * ((length src + 2) / 3))%nat
  /\ all_chars base64_char (Bytes.base64_EncodeToString src) = true.
Proof.
  induction n as [|n IH]; intros src Hlen.
  { destruct src; [done|cbn in Hlen; lia]. }
  destruct src as [|a [|b [|c rest]]].
  1-3: split; [reflexivity|];
       cbn [Bytes.base64_EncodeToString all_chars]; by rewrite ?b64_char.
  destruct (IH rest) as [Hl Hc]; [cbn [length] in Hlen; lia|].
  cbn [Bytes.base64_EncodeToString String.length all_chars length].
  rewrite Hl, Hc, !b64_char. split; [|done].
  replace (S (S (S (length rest))) + 2)%nat
    with (length rest + 2 + 1 * 3)%nat by lia.
  rewrite Nat.div_add by lia. lia.
Qed.

(** ** The digest *)

Lemma round_length st kw : length (SHA512.round st kw) = length st.
Proof.
  unfold SHA512.round.
  do 9 (destruct st as [|? st]; [reflexivity|]). reflexivity.
Qed.

Lemma rounds_length kws : forall st,
  length (fold_left SHA512.round kws st) = length st.
Proof.
  induction kws as [|kw kws IH]; intros st; [done|].
  cbn [fold_left]. by rewrite IH, round_length.
Qed.

Lemma zip_add_length xs : forall ys,
  length ys = length xs -> length (SHA512.zip_add xs ys) = length xs.
Proof.
  induction xs as [|x xs IH]; intros [|y ys] Hlen; try done.
  cbn [SHA512.zip_add length]. rewrite IH; [done|]. cbn in Hlen. lia.
Qed.

Lemma compress_length h block : length (SHA512.compress h block) = length h.
Proof.
  unfold SHA512.compress. apply zip_add_length, rounds_length.
Qed.

Lemma blocks_length blocks : forall h,
  length (fold_left SHA512.compress blocks h) = length h.
Proof.
  induction blocks as [|b blocks IH]; intros h; [done|].
  cbn [fold_left]. by rewrite IH, compress_length.
Qed.

Lemma be_bytes_length n : forall x, length (SHA512.be_bytes n x) = n.
Proof.
  induction n as [|n IH]; intros x; [done|].
  cbn [SHA512.be_bytes]. rewrite length_app, IH. cbn. lia.
Qed.

Lemma words_length (st : list Z) :
  length (List.concat (List.map (SHA512.be_bytes 8) st))
  = (8 * length st)%nat.
Proof.
  induction st as [|x st IH]; [done|].
  cbn [List.map List.concat length].
  rewrite length_app, be_bytes_length, IH. lia.
Qed.

Lemma Sum512_length (msg : list byte) : length (SHA512.Sum512 msg) = 64%nat.
Proof.
  unfold SHA512.Sum512. rewrite words_length, blocks_length. reflexivity.
Qed.

Lemma hmac_length (key msg : list byte) :
  length (SHA512.hmac key msg) = 64%nat.
Proof. apply Sum512_length. Qed.

(** X17. What [sendPost] writes into the header map has a fixed shape:
    the payload is padded base64 of the body, four characters for every
    three bytes begun, and the signature is 128 characters of lower-case
    hexadecimal, whatever the secret and the body are. Neither contains
    a character that could end a header line. *)
Theorem signed_values_shape (env : Env) (c : client) (a : auth)
    (url : string) (r : option loc) (body : ReadCloser)
    (bodyBytes : list byte) (w : World) :
  c_auth c = Some a ->
  valid_ref w r ->
  io_ReadAll body = (bodyBytes, None) ->
  url_parse env url = None ->
  exists payload signature,
    deref (snd (sendPost env c url r body w)) (post_ref r w)
    !! HeaderXTxcPayload = Some payload
    /\ deref (snd (sendPost env c url r body w)) (post_ref r w)
       !! HeaderXTxcSignature = Some signature
    /\ String.length payload = (4 * ((length bodyBytes + 2) / 3))%nat
    /\ all_chars base64_char payload = true
    /\ String.length signature = 128%nat
    /\ all_chars lower_hex_char signature = true.
Proof.
  intros Hauth Hvalid Hread Hurl.
  exists (payload_of bodyBytes), (signature_of a bodyBytes).
  rewrite !(sendPost_map env c url r body bodyBytes w) by done.
  rewrite !merged_lookup_absent
    by (by apply TransportClaims.computed_other).
  rewrite signed_Payload, (signed_Signature c a) by done.
  destruct (base64_shape (length bodyBytes) bodyBytes) as [Hl Hc]; [done|].
  repeat split; try done.
  - unfold signature_of. by rewrite hex_length, hmac_length.
  - apply hex_chars.
Qed.

Lemma signed_values_shape_witness :
  exists payload signature,
    deref (snd (sendPost quiet_env keyed_client balances_url None
                  empty_object Testbed.empty_world)) (Some 0%nat)
    !! HeaderXTxcPayload = Some payload
    /\ deref (snd (sendPost quiet_env keyed_client balances_url None
                     empty_object Testbed.empty_world)) (Some 0%nat)
       !! HeaderXTxcSignature = Some signature
    /\ String.length payload = 4%nat
    /\ String.length signature = 128%nat.
Proof.
  destruct (signed_values_shape quiet_env keyed_client
              {| APIKey := "K"; APISecret := "S" |} balances_url None
              empty_object (list_byte_of_string "{}") Testbed.empty_world
              eq_refl I eq_refl eq_refl)
    as (payload & signature & Hp & Hs & Hpl & _ & Hsl & _).
  exists payload, signature. auto.
Defined.

End ShapeProps.

(* ===================================================================== *)
(** * Further properties: one header map, two requests *)
(* ===================================================================== *)

Module ReuseProps.

Import Go Gop2b Spec Fixtures SpecMore MoreFixtures.
Import RunFacts TransportFacts HeaderFacts PostFacts WireFacts.
Import PostClaims.
Import SendingProps.

Section Reuse.

Context (env : Env).

Lemma sendPost_valid c url (f : loc) body w :
  (f < length (maps w))%nat ->
  (f < length (maps (snd (sendPost env c url (Some f) body w))))%nat.
Proof.
  intros Hf.
  destruct (sendPost_world env c url (Some f) body w Hf)
    as [->|(bodyBytes & ->)]; [done|].
  pose proof (post_maps_grow env c (POST_request url bodyBytes) bodyBytes
                (Some f) w Hf).
  lia.
Qed.

(** A spelling of a signing header other than the one [sendPost] writes
    is not brought into the map by [sendPost]. *)
Lemma sendPost_other_spelling c url (f : loc) body bodyBytes w k :
  (f < length (maps w))%nat ->
  io_ReadAll body = (bodyBytes, None) ->
  url_parse env url = None ->
  k <> HeaderXTxcPayload -> k <> HeaderXTxcSignature ->
  k <> "Content-type" -> k <> HeaderXTxcAPIKey ->
  deref (snd (sendPost env c url (Some f) body w)) (Some f) !! k
  = deref w (Some f) !! k.
Proof.
  intros Hf Hread Hurl Hp Hs Hc Hk.
  pose proof (sendPost_map env c url (Some f) body bodyBytes w k Hf Hread Hurl)
    as Hmap.
  cbn [post_ref] in Hmap. rewrite Hmap.
  rewrite merged_lookup_absent by (by apply TransportClaims.computed_other).
  by apply signed_other.
Qed.

End Reuse.

(** X18. A header map can be used for a second request: when the caller
    passes the same map to [sendPost] twice, the second request carries
    the payload and the signature of the second body, twice each, and
    nothing of the first body, provided the map the caller started with
    has no entry under another spelling of the two signing headers. *)
Theorem header_map_reusable (env : Env) (c : client) (a : auth)
    (url1 url2 : string) (f : loc) (body1 body2 : ReadCloser)
    (bytes1 bytes2 : list byte) (w : World) :
  c_auth c = Some a ->
  (f < length (maps w))%nat ->
  io_ReadAll body1 = (bytes1, None) ->
  io_ReadAll body2 = (bytes2, None) ->
  url_parse env url1 = None ->
  url_parse env url2 = None ->
  (1 <= fuel env)%nat ->
  (forall k,
     CanonicalMIMEHeaderKey k = "X-Txc-Payload"
     \/ CanonicalMIMEHeaderKey k = "X-Txc-Signature" ->
     k <> HeaderXTxcPayload -> k <> HeaderXTxcSignature ->
     deref w (Some f) !! k = None) ->
  let w1 := snd (sendPost env c url1 (Some f) body1 w) in
  exists req more,
    wire (snd (sendPost env c url2 (Some f) body2 w1))
    = wire w1 ++ req :: more
    /\ Header_Values (ReqHeader req) HeaderXTxcPayload
       = [payload_of bytes2; payload_of bytes2]
    /\ Header_Values (ReqHeader req) HeaderXTxcSignature
       = [signature_of a bytes2; signature_of a bytes2].
Proof.
  intros Hauth Hf Hread1 Hread2 Hurl1 Hurl2 Hfuel Hclean w1.
  assert (valid_ref w1 (Some f)) as Hf1 by (by apply sendPost_valid).
  assert (forall k,
            CanonicalMIMEHeaderKey k = "X-Txc-Payload"
            \/ CanonicalMIMEHeaderKey k = "X-Txc-Signature" ->
            k <> HeaderXTxcPayload -> k <> HeaderXTxcSignature ->
            deref w1 (Some f) !! k = None) as Hclean1.
  { intros k HK Hp Hs. unfold w1.
    rewrite (sendPost_other_spelling env c url1 f body1 bytes1 w k);
      try done; [by apply Hclean|..].
    - intros ->. by destruct HK.
    - intros ->. by destruct HK. }
  destruct (sendPost_wire env c url2 (Some f) body2 bytes2 w1)
    as (more & Hwire); [done..|].
  eexists _, more. split; [exact Hwire|].
  cbn [post_ref]. split.
  - apply (sendPost_exactly_twice env c url2 (Some f) bytes2 w1);
      [done|apply signed_Payload| |by left].
    intros k HK Hne. rewrite canonical_Payload in HK.
    apply Hclean1; [by left|done|]. intros ->. done.
  - apply (sendPost_exactly_twice env c url2 (Some f) bytes2 w1);
      [done|by apply signed_Signature| |by right].
    intros k HK Hne. rewrite canonical_Signature in HK.
    apply Hclean1; [by right| |done]. intros ->. done.
Qed.

Lemma header_map_reusable_witness :
  exists req more,
    wire (snd (sendPost quiet_env keyed_client balances_url (Some 0%nat)
                 (bytes_NewReader (list_byte_of_string "[]"))
                 (snd (sendPost quiet_env keyed_client balances_url
                         (Some 0%nat) empty_object custom_header))))
    = wire (snd (sendPost quiet_env keyed_client balances_url (Some 0%nat)
                   empty_object custom_header))
      ++ req :: more
    /\ Header_Values (ReqHeader req) HeaderXTxcPayload
       = [payload_of (list_byte_of_string "[]");
          payload_of (list_byte_of_string "[]")].
Proof.
  assert (0 < length (maps custom_header))%nat as Hf by (cbn; lia).
  assert (1 <= fuel quiet_env)%nat as Hfuel by (cbn; lia).
  assert (forall k,
            CanonicalMIMEHeaderKey k = "X-Txc-Payload"
            \/ CanonicalMIMEHeaderKey k = "X-Txc-Signature" ->
            k <> HeaderXTxcPayload -> k <> HeaderXTxcSignature ->
            deref custom_header (Some 0%nat) !! k = None) as Hclean.
  { intros k HK _ _. cbn [deref custom_header maps lookup list_lookup default].
    destruct (decide (k = "X-Request-Id")) as [->|Hne].
    - destruct HK as [HK|HK]; vm_compute in HK; discriminate.
    - by apply lookup_singleton_ne. }
  destruct (header_map_reusable quiet_env keyed_client
              {| APIKey := "K"; APISecret := "S" |} balances_url balances_url
              0%nat empty_object
              (bytes_NewReader (list_byte_of_string "[]"))
              (list_byte_of_string "{}") (list_byte_of_string "[]")
              custom_header eq_refl Hf eq_refl eq_refl eq_refl eq_refl
              Hfuel Hclean)
    as (req & more & Hwire & Hpayload & _).
  exists req, more. auto.
Defined.

End ReuseProps.

